(** * Contrastive RL networks: a shallow embedding of [contrastive/networks.py]

    The module builds the policy, critic, representation, goal and language
    networks of the contrastive RL agent out of Haiku modules and [jax.numpy]
    operations.  This development embeds those functions and proves the
    properties that the specification states about them.

    Conventions of the embedding.

    - The networks are embedded with real numbers ([R]) for the float32
      numbers of the source, so rounding, overflow, NaN and infinities are
      not represented there (division by zero is [Rdiv] by [0]): the
      statements on the networks name the operations the code performs.
      Where rounding or overflow decides a property, the operations are
      also given on IEEE 754 binary32 numbers (module [f32]).
    - A two-dimensional array is the list of its rows.  An array with no rows
      does not record its number of columns, so a shape check on an empty
      batch passes here.
    - Shape errors raised by [jax.numpy] or Haiku are [None]; the [ValueError]
      raised by the module itself is an explicit exception value.
    - Haiku gives every module created inside one [hk.transform] a unique
      name ([sa_encoder], then [sa_encoder_1], ...).  The embedding threads
      the counters of the names used so far through the network functions, and
      parameters are looked up under the resulting names. *)

From Stdlib Require Import Reals Lra SpecFloat.
From stdpp Require Import base option list gmap strings pretty.

Open Scope string_scope.
Open Scope list_scope.
Open Scope nat_scope.

Abbreviation vector := (list R).
Abbreviation matrix := (list (list R)).
(** An image is height x width x channels; [images] is a batch of them. *)
Abbreviation image := (list (list (list R))).
Abbreviation images := (list (list (list (list R)))).

(** [is_matrix n m x]: [x] has shape [(n, m)]. *)
Definition is_matrix (n m : nat) (x : matrix) : Prop :=
  length x = n ∧ Forall (λ r, length r = m) x.

Definition is_matrixb (n m : nat) (x : matrix) : bool :=
  (length x =? n) && forallb (λ r, length r =? m) x.

(** [is_images n h w c x]: [x] has shape [(n, h, w, c)]. *)
Definition is_images (n h w c : nat) (x : images) : Prop :=
  length x = n ∧
  Forall (λ img, length img = h ∧
     Forall (λ row, length row = w ∧ Forall (λ px, length px = c) row) img) x.

(** [is_array3 n m k x]: [x] has shape [(n, m, k)]. *)
Definition is_array3 (n m k : nat) (x : list (list (list R))) : Prop :=
  length x = n ∧ Forall (λ r, length r = m ∧ Forall (λ e, length e = k) r) x.

(** [x[i][j]]. *)
Definition entry {A} (x : list (list A)) (i j : nat) : option A :=
  r ← x !! i; r !! j.

(** The entries of a batch of images, in row-major order. *)
Definition flatten (x : images) : vector := concat (concat (concat x)).

(** Every entry of a batch of images lies in [[lo, hi]]. *)
Definition pixels_in (lo hi : R) (x : images) : Prop :=
  Forall (Forall (Forall (Forall (λ v, lo <= v <= hi)%R))) x.

(** ** The [jax.numpy] operations the module uses *)
Module jnp.

(** Sum of the entries of a vector. *)
Definition sum (a : vector) : R := foldr Rplus 0%R a.

(** Inner product of two vectors of the same length. *)
Definition dot (a b : vector) : R := sum (zip_with Rmult a b).

(** [c * x] for a scalar [c]. *)
Definition scale (c : R) (x : matrix) : matrix := map (map (Rmult c)) x.

(** [x / c] for a scalar [c]. *)
Definition divide_scalar (x : matrix) (c : R) : matrix :=
  map (map (λ v, v / c)%R) x.

(** [x[:, :d]] and [x[:, d:]]; Python slices clamp at the row length. *)
Definition cols_to (d : nat) (x : matrix) : matrix := map (take d) x.
Definition cols_from (d : nat) (x : matrix) : matrix := map (drop d) x.

(** The summand of [einsum] over one contracted axis [k]: when the axis has
    the same size on both sides it is the inner product; an axis of size 1
    on one side only is broadcast against the other side; any other pair of
    sizes is an error. *)
Definition contract (a b : vector) : option R :=
  if length a =? length b then Some (dot a b)
  else match a, b with
       | [x], _ => Some (dot (replicate (length b) x) b)
       | _, [y] => Some (dot a (replicate (length a) y))
       | _, _ => None
       end.

(** [einsum('ik,jk->ij', x, y)]. *)
Definition einsum_ik_jk (x y : matrix) : option matrix :=
  mapM (λ a, mapM (λ b, contract a b) y) x.

(** [concatenate([x, y], axis=-1)] for two-dimensional arrays: the numbers
    of rows must agree. *)
Definition concatenate (x y : matrix) : option matrix :=
  if length x =? length y then Some (zip_with app x y) else None.

(** [concatenate([x, y], axis=-1)] for batches of images: all axes but the
    channel axis must agree. *)
Definition concatenate_rows (x y : list (list R)) : option (list (list R)) :=
  if length x =? length y then Some (zip_with app x y) else None.

Definition concatenate_image (x y : image) : option image :=
  if length x =? length y
  then mapM (λ p, concatenate_rows p.1 p.2) (zip x y) else None.

Definition concatenate_images (x y : images) : option images :=
  if length x =? length y
  then mapM (λ p, concatenate_image p.1 p.2) (zip x y) else None.

(** [stack([x, y], axis=-1)] for two-dimensional arrays of one shape. *)
Definition stack_row (a b : vector) : option (list (list R)) :=
  if length a =? length b then Some (zip_with (λ u v, [u; v]) a b) else None.

Definition stack (x y : matrix) : option (list (list (list R))) :=
  if length x =? length y
  then mapM (λ p, stack_row p.1 p.2) (zip x y) else None.

(** [linalg.norm(x, axis=1, keepdims=True)]: the L2 norm of each row. *)
Definition sum_sq (a : vector) : R := sum (map (λ v, v * v)%R a).

Definition norm (a : vector) : R := sqrt (sum_sq a).

Definition linalg_norm (x : matrix) : list R := map norm x.

(** [x / linalg.norm(x, axis=1, keepdims=True)]: each row divided by its
    own norm (the norms, of shape (n, 1), are broadcast along the row). *)
Definition divide_rows (x : matrix) (n : list R) : matrix :=
  zip_with (λ r d, map (λ v, v / d)%R r) x n.

(** [chunks n k l]: the first [n] consecutive pieces of length [k] of [l]. *)
Fixpoint chunks {A} (n k : nat) (l : list A) : list (list A) :=
  match n with
  | O => []
  | S n' => take k l :: chunks n' k (drop k l)
  end.

(** [reshape(x, (-1, h, w, c))] of a two-dimensional array, in row-major
    order.  It fails unless the number of entries is a multiple of
    [h * w * c]. *)
Definition reshape_images (h w c : nat) (x : matrix) : option images :=
  let flat := concat x in
  let size := length flat in
  let n := size `div` (h * w * c) in
  if (h * w * c =? 0) || negb (size `mod` (h * w * c) =? 0) then None
  else Some (chunks n h (chunks (n * h) w (chunks (n * h * w) c flat))).

(** [x / c] for a batch of images. *)
Definition divide_images (x : images) (c : R) : images :=
  map (map (map (map (λ v, v / c)%R))) x.

(** [jax.nn.relu]. *)
Definition relu (x : matrix) : matrix := map (map (Rmax 0)) x.

End jnp.

(** ** The same operations on float32 numbers

    The arrays of the module are float32.  [f32] gives the normalization of
    [_repr_fn] (lines 115-117) and the [einsum] of [_combine_repr] on
    IEEE 754 binary32 numbers: 24 bits of precision, round to nearest even,
    overflow to infinity, with the arithmetic of the Standard Library's
    [SpecFloat].  A sum is written in the order of [jnp.sum] above; XLA
    does not fix the order of its additions, and the sums evaluated in this
    file have one summand, or infinite summands only. *)
Module f32.

Definition prec : Z := 24.
Definition emax : Z := 128.

Abbreviation t := spec_float.
Abbreviation vector := (list spec_float).
Abbreviation matrix := (list (list spec_float)).

Definition zero : t := S754_zero false.
Definition add : t → t → t := SFadd prec emax.
Definition mul : t → t → t := SFmul prec emax.
Definition div : t → t → t := SFdiv prec emax.
Definition sqrt : t → t := SFsqrt prec emax.

(** The float32 number nearest to the integer [n]. *)
Definition of_Z (n : Z) : t := binary_normalize prec emax n 0 false.

Definition is_matrix (n m : nat) (x : matrix) : Prop :=
  length x = n ∧ Forall (λ r, length r = m) x.

Definition sum (a : vector) : t := foldr add zero a.

Definition dot (a b : vector) : t := sum (zip_with mul a b).

(** [c * x] for a scalar [c]. *)
Definition scale (c : t) (x : matrix) : matrix := map (map (mul c)) x.

Definition contract (a b : vector) : option t :=
  if length a =? length b then Some (dot a b)
  else match a, b with
       | [x], _ => Some (dot (replicate (length b) x) b)
       | _, [y] => Some (dot a (replicate (length a) y))
       | _, _ => None
       end.

(** [einsum('ik,jk->ij', x, y)]. *)
Definition einsum_ik_jk (x y : matrix) : option matrix :=
  mapM (λ a, mapM (λ b, contract a b) y) x.

Definition _combine_repr (sa_repr g_repr : matrix) : option matrix :=
  einsum_ik_jk sa_repr g_repr.

(** [linalg.norm(x, axis=1, keepdims=True)]. *)
Definition sum_sq (a : vector) : t := sum (map (λ v, mul v v) a).

Definition norm (a : vector) : t := sqrt (sum_sq a).

Definition linalg_norm (x : matrix) : list t := map norm x.

(** [x / linalg.norm(x, axis=1, keepdims=True)]. *)
Definition divide_rows (x : matrix) (n : list t) : matrix :=
  zip_with (λ r d, map (λ v, div v d) r) x n.

End f32.

(** ** The part of Haiku the module uses *)
Module hk.

(** The parameters of one [hk.Linear]: [w] of shape (input size, output
    size) and [b] of shape (output size). *)
Record LinearParams := { w : matrix; b : vector }.

(** [x @ w] for one row [x]. *)
Definition vecmat (output_size : nat) (x : vector) (w : matrix) : vector :=
  foldr (zip_with Rplus) (replicate output_size 0%R)
        (zip_with (λ xk wk, map (Rmult xk) wk) x w).

(** [hk.Linear(output_size)(x)] with parameters [p]: [x @ w + b].  Haiku
    requests [w] with shape (x.shape[-1], output_size) and [b] with shape
    (output_size) and raises when a stored parameter has another shape. *)
Definition Linear (output_size : nat) (p : LinearParams) (x : matrix)
  : option matrix :=
  if forallb (λ r, length r =? length (w p)) x
     && forallb (λ r, length r =? output_size) (w p)
     && (length (b p) =? output_size)
  then Some (map (λ r, zip_with Rplus (vecmat output_size r (w p)) (b p)) x)
  else None.

Section WithConv.
(** The parameters of the modules that are not [hk.Linear] layers (the
    convolutions of the image torso) are kept abstract. *)
Context {ConvParams : Type}.

(** A parameter collection: the [hk.Linear] parameters by module name,
    the parameters created outside any module (Haiku files them under
    the module name [~]) by parameter name, and the rest. *)
Record Params := {
  linear_params : gmap string LinearParams;
  top_level : gmap string R;
  conv_params : ConvParams;
}.

(** A network function inside [hk.transform]: it reads the parameters,
    and it reads and updates the counters of the module names used so
    far.  [None] is an error raised by Haiku or [jax.numpy]. *)
Definition M (A : Type) : Type :=
  Params → gmap string nat → option (A * gmap string nat).

Definition ret {A} (a : A) : M A := λ _ c, Some (a, c).

Definition bind {A B} (m : M A) (k : A → M B) : M B :=
  λ P c, match m P c with
         | Some (a, c') => k a P c'
         | None => None
         end.

#[global] Instance M_ret : MRet M := @ret.
#[global] Instance M_bind : MBind M := λ A B k m, bind m k.

Definition lift {A} (o : option A) : M A :=
  λ _ c, match o with Some a => Some (a, c) | None => None end.

(** The call of a module: it reads the parameters and leaves the
    counters of the enclosing function alone. *)
Definition call {A} (f : Params → option A) : M A :=
  λ P c, match f P with Some a => Some (a, c) | None => None end.

(** The name Haiku gives a module created with the name [name] when the
    counters are [c]: the name itself the first time, [name_n] the
    (n+1)-th time.  The counter of the name is then incremented. *)
Definition name_for (name : string) (c : gmap string nat) : string :=
  let n := default 0 (c !! name) in
  if n =? 0 then name else name +:+ "_" +:+ pretty n.

Definition bump (name : string) (c : gmap string nat) : gmap string nat :=
  <[name := S (default 0 (c !! name))]> c.

Definition unique_name (name : string) : M string :=
  λ _ c, Some (name_for name c, bump name c).

(** [hk.get_parameter(name, [], init=...)] outside any module, when the
    function is applied: the stored scalar, an error if it is missing. *)
Definition get_parameter (name : string) : M R :=
  λ P c, match top_level P !! name with
         | Some v => Some (v, c)
         | None => None
         end.

(** [hk.without_apply_rng(hk.transform(f)).apply]. *)
Definition transform {A} (f : M A) (P : Params) : option A :=
  match f P ∅ with Some (a, _) => Some a | None => None end.

(** The name of the [i]-th layer of the MLP called [name]. *)
Definition linear_name (name : string) (i : nat) : string :=
  name +:+ "/~/linear_" +:+ pretty i.

(** The forward pass of [hk.nets.MLP] from layer [i] on: every layer but
    the last is followed by the activation (the last one too with
    [activate_final]). *)
Fixpoint MLP_call (P : Params) (name : string) (activate_final : bool)
    (i : nat) (output_sizes : list nat) (x : matrix) : option matrix :=
  match output_sizes with
  | [] => Some x
  | size :: rest =>
      p ← linear_params P !! linear_name name i;
      out ← Linear size p x;
      MLP_call P name activate_final (S i) rest
        (if negb (bool_decide (rest = [])) || activate_final
         then jnp.relu out else out)
  end.

(** [hk.nets.MLP(output_sizes, activation=jax.nn.relu, name=name)]:
    creating the module takes a unique name; the module is then a
    function of its input. *)
Definition MLP (output_sizes : list nat) (activate_final : bool)
    (name : string) : M (matrix → M matrix) :=
  n ← unique_name name;
  mret (λ x, call (λ P, MLP_call P n activate_final 0 output_sizes x)).

(** The parameters of the MLP called [name] exist and have the shapes
    its layers request, from layer [i] on, for an input of width
    [input_size]. *)
Fixpoint MLP_params_ok (P : Params) (name : string) (i input_size : nat)
    (output_sizes : list nat) : Prop :=
  match output_sizes with
  | [] => True
  | size :: rest =>
      (∃ p, linear_params P !! linear_name name i = Some p
            ∧ is_matrix input_size size (w p) ∧ length (b p) = size)
      ∧ MLP_params_ok P name (S i) size rest
  end.

End WithConv.
Arguments Params : clear implicits.
Arguments M : clear implicits.

End hk.

(** ** The arguments of [make_networks] *)

(** The environment specification: only the shapes are used. *)
Record EnvironmentSpec := {
  actions_shape : list nat;
  observations_shape : list nat;
}.

Record Config := {
  spec : EnvironmentSpec;
  obs_dim : nat;
  repr_dim : nat;
  repr_norm : bool;
  repr_norm_temp : bool;
  hidden_layer_sizes : list nat;
  actor_min_std : R;
  twin_q : bool;
  use_image_obs : bool;
  maze_shape : nat * nat;
}.

(** The default values of the keyword arguments. *)
Definition default_config (spec : EnvironmentSpec) (obs_dim : nat) : Config :=
  {| spec := spec; obs_dim := obs_dim; repr_dim := 64; repr_norm := false;
     repr_norm_temp := true; hidden_layer_sizes := [256; 256];
     actor_min_std := (1 / 1000000)%R; twin_q := false;
     use_image_obs := false; maze_shape := (8, 8) |}.

(** [ValueError(msg)]. *)
Inductive exception := ValueError (msg : string).

(** The output of the critic: a matrix, or with [twin_q] the two matrices
    stacked along a new last axis. *)
Inductive critic_output :=
  | Outer (outer : matrix)
  | OuterTwin (outer : list (list (list R))).

Section Networks.
(** The image torso ([networks_lib.AtariTorso]), the random keys and the
    action distribution head ([networks_lib.NormalTanhDistribution]) come
    from libraries; they are parameters of the development. *)
Context {ConvParams PRNGKey : Type}.

(** An action distribution, as far as the module uses it. *)
Record Distribution := {
  dist_sample : PRNGKey → matrix;      (* .sample(seed=key) *)
  dist_mode : matrix;                  (* .mode() *)
  dist_log_prob : matrix → vector;     (* .log_prob(actions) *)
}.

Variable AtariTorso : ConvParams → images → option matrix.
Variable NormalTanhDistribution :
  nat → R → hk.Params ConvParams → matrix → option Distribution.

Abbreviation Params := (hk.Params ConvParams).
Abbreviation M := (hk.M ConvParams).
Abbreviation Hidden := (matrix * matrix)%type.

(** [networks_lib.FeedForwardNetwork]: only its [apply] is embedded; [init]
    draws random parameters for dummy inputs. *)
Record FeedForwardNetwork (A : Type) := { apply : A }.
Arguments apply {A}.

Abbreviation SampleFn := (Distribution → PRNGKey → matrix).

Record ContrastiveNetworks := {
  policy_network : FeedForwardNetwork (Params → matrix → option Distribution);
  q_network : FeedForwardNetwork (Params → matrix → matrix → option critic_output);
  l_network :
    FeedForwardNetwork (Params → matrix → matrix → option (matrix * matrix * matrix));
  log_prob : Distribution → matrix → vector;
  goal_fn : Params → matrix → option matrix;
  repr_fn :
    Params → matrix → matrix → option Hidden → option (matrix * matrix * Hidden);
  sample : SampleFn;
  sample_eval : option SampleFn;
}.

(** [apply_policy_and_sample(networks, eval_mode)]: the function that
    computes actions, or the [ValueError]. *)
Definition apply_policy_and_sample (networks : ContrastiveNetworks)
    (eval_mode : bool)
  : exception + (Params → PRNGKey → matrix → option matrix) :=
  let sample_fn :=
    if negb eval_mode then Some (sample networks) else sample_eval networks in
  match sample_fn with
  | None => inl (ValueError "sample function is not provided")
  | Some sample_fn =>
      let apply_and_sample params key obs :=
        d ← apply (policy_network networks) params obs;
        Some (sample_fn d key) in
      inr apply_and_sample
  end.

(** [TORSO()]: the module is created once in each transformed function, so
    its name is not tracked; it reads the abstract part of the parameters. *)
Definition TORSO : M (images → M matrix) :=
  mret (λ x, hk.call (λ P, AtariTorso (hk.conv_params P) x)).

Section MakeNetworks.
Variable cfg : Config.

Definition num_dimensions : nat := foldr Nat.mul 1 (actions_shape (spec cfg)).

(** The two reshapes can fail, the divisions cannot: dividing after both
    reshapes returns what the source returns. *)
Definition _unflatten_obs (obs : matrix) : option (images * images) :=
  state ← jnp.reshape_images 64 64 3 (jnp.cols_to (obs_dim cfg) obs);
  goal ← jnp.reshape_images 64 64 3 (jnp.cols_from (obs_dim cfg) obs);
  Some (jnp.divide_images state 255, jnp.divide_images goal 255).

Definition _goal_fn (goal : matrix) : M matrix :=
  g_encoder ← hk.MLP (hidden_layer_sizes cfg ++ [repr_dim cfg]) false "g_encoder";
  g_repr ← g_encoder goal;
  mret g_repr.

Definition _repr_fn (obs action : matrix) (hidden : option Hidden)
  : M (matrix * matrix * Hidden) :=
  '(state, goal) ←
    match hidden with
    | None =>
        if use_image_obs cfg then
          '(state, goal) ← hk.lift (_unflatten_obs obs);
          img_encoder ← TORSO;
          state ← img_encoder state;
          goal ← img_encoder goal;
          mret (state, goal)
        else
          mret (jnp.cols_to (obs_dim cfg) obs, jnp.cols_from (obs_dim cfg) obs)
    | Some hidden => mret hidden
    end;
  sa_encoder ← hk.MLP (hidden_layer_sizes cfg ++ [repr_dim cfg]) false "sa_encoder";
  sa_input ← hk.lift (jnp.concatenate state action);
  sa_repr ← sa_encoder sa_input;
  g_repr ← _goal_fn goal;
  '(sa_repr, g_repr) ←
    (if repr_norm cfg then
       let sa_repr := jnp.divide_rows sa_repr (jnp.linalg_norm sa_repr) in
       let g_repr := jnp.divide_rows g_repr (jnp.linalg_norm g_repr) in
       if repr_norm_temp cfg then
         log_scale ← hk.get_parameter "repr_log_scale";
         mret (jnp.divide_scalar sa_repr (exp log_scale), g_repr)
       else mret (sa_repr, g_repr)
     else mret (sa_repr, g_repr));
  mret (sa_repr, g_repr, (state, goal)).

Definition _combine_repr (sa_repr g_repr : matrix) : option matrix :=
  jnp.einsum_ik_jk sa_repr g_repr.

Definition _critic_fn (obs action : matrix) : M critic_output :=
  '(sa_repr, g_repr, hidden) ← _repr_fn obs action None;
  outer ← hk.lift (_combine_repr sa_repr g_repr);
  if twin_q cfg then
    '(sa_repr2, g_repr2, _) ← _repr_fn obs action (Some hidden);
    outer2 ← hk.lift (_combine_repr sa_repr2 g_repr2);
    outer ← hk.lift (jnp.stack outer outer2);
    mret (OuterTwin outer)
  else mret (Outer outer).

Definition _actor_fn (obs : matrix) : M Distribution :=
  obs ←
    (if use_image_obs cfg then
       '(state, goal) ← hk.lift (_unflatten_obs obs);
       obs ← hk.lift (jnp.concatenate_images state goal);
       torso ← TORSO;
       torso obs
     else mret obs);
  mlp ← hk.MLP (hidden_layer_sizes cfg) true "mlp";
  features ← mlp obs;
  hk.call (λ P, NormalTanhDistribution num_dimensions (actor_min_std cfg) P features).

Definition _language_fn (goal language : matrix)
  : M (matrix * matrix * matrix) :=
  g_repr ← _goal_fn goal;
  l_encoder ← hk.MLP (hidden_layer_sizes cfg ++ [repr_dim cfg]) false "l_encoder";
  l_repr ← l_encoder language;
  outer ← hk.lift (_combine_repr g_repr l_repr);
  mret (g_repr, l_repr, outer).

Definition make_networks : ContrastiveNetworks :=
  let policy P obs := hk.transform (_actor_fn obs) P in
  let critic P obs action := hk.transform (_critic_fn obs action) P in
  let language P goal lang := hk.transform (_language_fn goal lang) P in
  let repr_fn P obs action hidden := hk.transform (_repr_fn obs action hidden) P in
  let goal_fn P goal := hk.transform (_goal_fn goal) P in
  {| policy_network := {| apply := policy |};
     q_network := {| apply := critic |};
     l_network := {| apply := language |};
     goal_fn := goal_fn;
     repr_fn := repr_fn;
     log_prob := λ params actions, dist_log_prob params actions;
     sample := λ params key, dist_sample params key;
     sample_eval := Some (λ params key, dist_mode params) |}.

End MakeNetworks.
End Networks.

Arguments apply {A}.

(** ** The representation function as a function of the module names

    The two calls of [_repr_fn] inside the twin critic differ only in the
    names Haiku gives their encoders.  [repr_head] is the computation of
    [_repr_fn] once those names are fixed; [repr_fn_run] below proves that
    [_repr_fn] is [repr_head] at the names drawn from the counters. *)
Section ReprHead.
Context {ConvParams : Type}.
Variable AtariTorso : ConvParams → images → option matrix.
Variable cfg : Config.
Implicit Types (P : hk.Params ConvParams).

(** The layer sizes of the three encoders. *)
Definition encoder_sizes : list nat := hidden_layer_sizes cfg ++ [repr_dim cfg].

(** The (state, goal) pair that [_repr_fn] works on. *)
Definition hidden_stage P (obs : matrix) (hidden : option (matrix * matrix))
  : option (matrix * matrix) :=
  match hidden with
  | Some h => Some h
  | None =>
      if use_image_obs cfg then
        '(state, goal) ← _unflatten_obs cfg obs;
        state ← AtariTorso (hk.conv_params P) state;
        goal ← AtariTorso (hk.conv_params P) goal;
        Some (state, goal)
      else Some (jnp.cols_to (obs_dim cfg) obs, jnp.cols_from (obs_dim cfg) obs)
  end.

(** The normalization and temperature scaling at the end of [_repr_fn]. *)
Definition norm_stage P (sa_repr g_repr : matrix) : option (matrix * matrix) :=
  if repr_norm cfg then
    let sa_repr := jnp.divide_rows sa_repr (jnp.linalg_norm sa_repr) in
    let g_repr := jnp.divide_rows g_repr (jnp.linalg_norm g_repr) in
    if repr_norm_temp cfg then
      log_scale ← hk.top_level P !! "repr_log_scale";
      Some (jnp.divide_scalar sa_repr (exp log_scale), g_repr)
    else Some (sa_repr, g_repr)
  else Some (sa_repr, g_repr).

Definition repr_head P (sa_name g_name : string) (obs action : matrix)
    (hidden : option (matrix * matrix))
  : option (matrix * matrix * (matrix * matrix)) :=
  '(state, goal) ← hidden_stage P obs hidden;
  sa_input ← jnp.concatenate state action;
  sa ← hk.MLP_call P sa_name false 0 encoder_sizes sa_input;
  g ← hk.MLP_call P g_name false 0 encoder_sizes goal;
  '(sa', g') ← norm_stage P sa g;
  Some (sa', g', (state, goal)).

(** The critic once the names are fixed: the first head uses the encoders
    [sa_encoder] and [g_encoder], the second one [sa_encoder_1] and
    [g_encoder_1] and the (state, goal) pair returned by the first. *)
Definition critic_head P (obs action : matrix) : option critic_output :=
  '(sa_repr, g_repr, hidden) ← repr_head P "sa_encoder" "g_encoder" obs action None;
  outer ← _combine_repr sa_repr g_repr;
  if twin_q cfg then
    '(sa_repr2, g_repr2, _) ←
      repr_head P "sa_encoder_1" "g_encoder_1" obs action (Some hidden);
    outer2 ← _combine_repr sa_repr2 g_repr2;
    outer ← jnp.stack outer outer2;
    Some (OuterTwin outer)
  else Some (Outer outer).

End ReprHead.

(** [cfg] with another value of one flag. *)
Definition with_repr_norm (v : bool) (cfg : Config) : Config :=
  {| spec := spec cfg; obs_dim := obs_dim cfg; repr_dim := repr_dim cfg;
     repr_norm := v; repr_norm_temp := repr_norm_temp cfg;
     hidden_layer_sizes := hidden_layer_sizes cfg;
     actor_min_std := actor_min_std cfg; twin_q := twin_q cfg;
     use_image_obs := use_image_obs cfg; maze_shape := maze_shape cfg |}.

Definition with_repr_norm_temp (v : bool) (cfg : Config) : Config :=
  {| spec := spec cfg; obs_dim := obs_dim cfg; repr_dim := repr_dim cfg;
     repr_norm := repr_norm cfg; repr_norm_temp := v;
     hidden_layer_sizes := hidden_layer_sizes cfg;
     actor_min_std := actor_min_std cfg; twin_q := twin_q cfg;
     use_image_obs := use_image_obs cfg; maze_shape := maze_shape cfg |}.

(** ** Valid inputs and parameters of the critic *)
Section Valid.
Context {ConvParams : Type}.
Variable AtariTorso : ConvParams → images → option matrix.
Implicit Types (P : hk.Params ConvParams) (cfg : Config).

(** The torso maps every batch of 64 x 64 x 3 images to one row of
    [features] entries per image. *)
Definition torso_ok (cp : ConvParams) (features : nat) : Prop :=
  ∀ k imgs, is_images k 64 64 3 imgs →
    ∃ m, AtariTorso cp imgs = Some m ∧ is_matrix k features m.

(** An observation of width [w] is valid for the configuration, with state
    and goal representations of widths [ds] and [dg]: without images these
    are the two segments of the observation; with images each segment is
    one 64 x 64 x 3 image and the representations are the torso's
    features. *)
Definition obs_width_ok cfg P (w ds dg : nat) : Prop :=
  if use_image_obs cfg then
    obs_dim cfg = 64 * 64 * 3 ∧ w = 64 * 64 * 3 + 64 * 64 * 3
    ∧ ds = dg ∧ torso_ok (hk.conv_params P) ds
  else ds = obs_dim cfg `min` w ∧ dg = w - obs_dim cfg.

(** The parameters the critic reads exist and have the requested shapes. *)
Definition critic_params_ok cfg P (ds dg a : nat) : Prop :=
  hk.MLP_params_ok P "sa_encoder" 0 (ds + a) (encoder_sizes cfg)
  ∧ hk.MLP_params_ok P "g_encoder" 0 dg (encoder_sizes cfg)
  ∧ (twin_q cfg = true →
     hk.MLP_params_ok P "sa_encoder_1" 0 (ds + a) (encoder_sizes cfg)
     ∧ hk.MLP_params_ok P "g_encoder_1" 0 dg (encoder_sizes cfg))
  ∧ (repr_norm cfg = true → repr_norm_temp cfg = true →
     is_Some (hk.top_level P !! "repr_log_scale")).

End Valid.

(** ** What the specification says of one observation segment

    The segment of one observation, of length [h * w * c], read as an image
    in row-major order. *)
Definition image_of_segment (h w c : nat) (r : vector) : image :=
  jnp.chunks h w (jnp.chunks (h * w) c r).

(** ** Variants of the configuration and of the parameters *)

Definition with_twin_q (v : bool) (cfg : Config) : Config :=
  {| spec := spec cfg; obs_dim := obs_dim cfg; repr_dim := repr_dim cfg;
     repr_norm := repr_norm cfg; repr_norm_temp := repr_norm_temp cfg;
     hidden_layer_sizes := hidden_layer_sizes cfg;
     actor_min_std := actor_min_std cfg; twin_q := v;
     use_image_obs := use_image_obs cfg; maze_shape := maze_shape cfg |}.

(** [P] with the parameters of one [hk.Linear] replaced. *)
Definition update_linear {ConvParams} (key : string) (p : hk.LinearParams)
    (P : hk.Params ConvParams) : hk.Params ConvParams :=
  {| hk.linear_params := <[key := p]> (hk.linear_params P);
     hk.top_level := hk.top_level P;
     hk.conv_params := hk.conv_params P |}.

(** ** The input of the policy's layers *)
Section ActorInput.
Context {ConvParams : Type}.
Variable AtariTorso : ConvParams → images → option matrix.
Variable cfg : Config.

(** The input of the policy's MLP: the observation, or with image
    observations the torso's features of the state and goal images joined
    along the channel axis. *)
Definition actor_input (P : hk.Params ConvParams) (obs : matrix) : option matrix :=
  if use_image_obs cfg then
    '(state, goal) ← _unflatten_obs cfg obs;
    obs ← jnp.concatenate_images state goal;
    AtariTorso (hk.conv_params P) obs
  else Some obs.
End ActorInput.

(** [row_ok w c row]: a row of [w] pixels of [c] channels;
    [image_ok h w c img]: an image of shape [(h, w, c)]. *)
Definition row_ok (w c : nat) (row : list (list R)) : Prop :=
  length row = w ∧ Forall (λ px, length px = c) row.
Definition image_ok (h w c : nat) (img : image) : Prop :=
  length img = h ∧ Forall (row_ok w c) img.

(** ** Concrete inputs

    A torso that flattens each image and a distribution head centred on its
    input stand for the library modules.  The encoders of the example
    configuration have no hidden layer and one output. *)
Definition ex_torso : unit → images → option matrix :=
  λ _ x, Some (map (λ img, concat (concat img)) x).

Definition ex_head : nat → R → hk.Params unit → matrix → option (@Distribution nat) :=
  λ _ _ _ x,
    Some {| dist_sample := λ _, x; dist_mode := x; dist_log_prob := λ _, [] |}.

Definition ex_cfg (norm temp twin : bool) : Config :=
  {| spec := {| actions_shape := [1]; observations_shape := [2] |};
     obs_dim := 1; repr_dim := 1; repr_norm := norm; repr_norm_temp := temp;
     hidden_layer_sizes := []; actor_min_std := (1 / 1000000)%R;
     twin_q := twin; use_image_obs := false; maze_shape := (1, 1) |}.

Definition ex_linear (w : matrix) (b : vector) : hk.LinearParams :=
  {| hk.w := w; hk.b := b |}.

Definition ex_params (log_scale : R) : hk.Params unit :=
  {| hk.linear_params :=
       <["sa_encoder/~/linear_0" := ex_linear [[1]; [0]]%R [0%R]]>
       (<["g_encoder/~/linear_0" := ex_linear [[2%R]] [0%R]]>
       (<["sa_encoder_1/~/linear_0" := ex_linear [[3]; [0]]%R [0%R]]>
       (<["g_encoder_1/~/linear_0" := ex_linear [[5%R]] [0%R]]>
       (<["l_encoder/~/linear_0" := ex_linear [[1%R]] [0%R]]> ∅))));
     hk.top_level := <["repr_log_scale" := log_scale]> ∅;
     hk.conv_params := tt |}.

(** Two layers of one unit, to check where the activation is applied. *)
Definition ex_mlp_params : hk.Params unit :=
  {| hk.linear_params :=
       <["mlp/~/linear_0" := ex_linear [[1%R]] [(-3)%R]]>
       (<["mlp/~/linear_1" := ex_linear [[1%R]] [(-5)%R]]> ∅);
     hk.top_level := ∅;
     hk.conv_params := tt |}.

Definition ex_obs : matrix := [[1; 1]]%R.
Definition ex_action : matrix := [[0]]%R.
Definition ex_obs2 : matrix := [[1; 1]; [2; 3]]%R.
Definition ex_action2 : matrix := [[0]; [1]]%R.

(** A bundle built by hand, without an evaluation sampler. *)
Definition ex_networks_no_eval : @ContrastiveNetworks unit nat :=
  let networks := make_networks ex_torso ex_head (ex_cfg false true false) in
  {| policy_network := policy_network networks;
     q_network := q_network networks;
     l_network := l_network networks;
     log_prob := log_prob networks;
     goal_fn := goal_fn networks;
     repr_fn := repr_fn networks;
     sample := sample networks;
     sample_eval := None |}.

(** One observation made of two black 64 x 64 x 3 images. *)
Definition ex_image_cfg : Config :=
  {| spec := {| actions_shape := [1]; observations_shape := [2] |};
     obs_dim := 64 * 64 * 3; repr_dim := 1; repr_norm := false;
     repr_norm_temp := true; hidden_layer_sizes := [];
     actor_min_std := (1 / 1000000)%R; twin_q := false;
     use_image_obs := true; maze_shape := (1, 1) |}.

Definition ex_image_obs : matrix := [replicate (64 * 64 * 3 + 64 * 64 * 3) 0%R].

(** The example parameters without the top-level scalar. *)
Definition ex_params_no_scale : hk.Params unit :=
  {| hk.linear_params := hk.linear_params (ex_params 0);
     hk.top_level := ∅;
     hk.conv_params := tt |}.

(** Parameters for the first head of the critic only. *)
Definition ex_params_one_head : hk.Params unit :=
  {| hk.linear_params :=
       <["sa_encoder/~/linear_0" := ex_linear [[1]; [0]]%R [0%R]]>
       (<["g_encoder/~/linear_0" := ex_linear [[2%R]] [0%R]]> ∅);
     hk.top_level := <["repr_log_scale" := 0%R]> ∅;
     hk.conv_params := tt |}.

(** A policy with two hidden layers of one unit. *)
Definition ex_actor_cfg : Config :=
  {| spec := {| actions_shape := [1]; observations_shape := [1] |};
     obs_dim := 1; repr_dim := 1; repr_norm := false; repr_norm_temp := true;
     hidden_layer_sizes := [1; 1]; actor_min_std := (1 / 1000000)%R;
     twin_q := false; use_image_obs := false; maze_shape := (1, 1) |}.

(** A torso with one constant feature per image. *)
Definition ex_small_torso : unit → images → option matrix :=
  λ _ x, Some (map (λ _, [1%R]) x).

(** 0.1, 0.3 and 0.7 as float32 numbers, and the float32 number nearest to
    10^30. *)
Definition ex_tenth : f32.t := S754_finite false 13421773 (-27).
Definition ex_three_tenths : f32.t := S754_finite false 10066330 (-25).
Definition ex_seven_tenths : f32.t := S754_finite false 11744051 (-24).
Definition ex_large : f32.t := f32.of_Z (10 ^ 30).

(** * Properties *)

(** ** Small checks of the embedding *)

Example unique_name_twice :
  hk.name_for "sa_encoder" ∅ = "sa_encoder"
  ∧ hk.name_for "sa_encoder" (hk.bump "g_encoder" (hk.bump "sa_encoder" ∅))
    = "sa_encoder_1"
  ∧ hk.name_for "g_encoder" (hk.bump "g_encoder" (hk.bump "sa_encoder" ∅))
    = "g_encoder_1"
  ∧ hk.linear_name "g_encoder_1" 0 = "g_encoder_1/~/linear_0".
Proof. repeat split; vm_compute; reflexivity. Qed.

Example reshape_two_rows :
  jnp.reshape_images 1 2 2 [[1; 2; 3; 4]; [5; 6; 7; 8]]%R
  = Some [[[[1; 2]; [3; 4]]]; [[[5; 6]; [7; 8]]]]%R
  ∧ jnp.reshape_images 1 2 2 [[1; 2]; [3; 4]]%R = Some [[[[1; 2]; [3; 4]]]]%R
  ∧ jnp.reshape_images 1 2 2 [[1; 2; 3]]%R = None.
Proof. repeat split; reflexivity. Qed.

Example relu_small : jnp.relu [[-1; 2]]%R = [[0; 2]]%R.
Proof.
  unfold jnp.relu. cbn [map].
  rewrite Rmax_left by lra. rewrite Rmax_right by lra. reflexivity.
Qed.

Example mlp_two_layers :
  hk.MLP_call ex_mlp_params "mlp" false 0 [1; 1] [[1%R]] = Some [[(-5)%R]]
  ∧ hk.MLP_call ex_mlp_params "mlp" true 0 [1; 1] [[1%R]] = Some [[0%R]]
  ∧ hk.MLP_call ex_mlp_params "mlp" false 0 [1; 1; 1] [[1%R]] = None.
Proof.
  assert (hk.linear_params ex_mlp_params !! hk.linear_name "mlp" 0
          = Some (ex_linear [[1%R]] [(-3)%R])) as E0 by (vm_compute; reflexivity).
  assert (hk.linear_params ex_mlp_params !! hk.linear_name "mlp" 1
          = Some (ex_linear [[1%R]] [(-5)%R])) as E1 by (vm_compute; reflexivity).
  assert (hk.linear_params ex_mlp_params !! hk.linear_name "mlp" 2 = None) as E2
    by (vm_compute; reflexivity).
  assert (Rmax 0 (1 * 1 + 0 + -3) = 0)%R as Hrelu by (apply Rmax_left; lra).
  repeat split; cbn [hk.MLP_call]; rewrite E0;
    cbn -[Rplus Rmult Rmax hk.linear_name lookup hk.linear_params];
    rewrite Hrelu, E1;
    cbn -[Rplus Rmult Rmax hk.linear_name lookup hk.linear_params];
    rewrite ?E2; try reflexivity.
  - do 3 f_equal. lra.
  - do 3 f_equal. apply Rmax_left. lra.
Qed.

Example einsum_small :
  jnp.einsum_ik_jk [[1; 2]]%R [[3; 4]; [5; 6]]%R
  = Some [[1 * 3 + (2 * 4 + 0); 1 * 5 + (2 * 6 + 0)]]%R
  ∧ jnp.einsum_ik_jk [[1; 2; 3]]%R [[3; 4]]%R = None
  ∧ jnp.einsum_ik_jk [[1; 2]]%R [[3]]%R = Some [[1 * 3 + (2 * 3 + 0)]]%R.
Proof. repeat split; reflexivity. Qed.

Example stack_small :
  jnp.stack [[1; 2]]%R [[3; 4]]%R = Some [[[1; 3]; [2; 4]]]%R
  ∧ jnp.stack [[1; 2]]%R [[3]]%R = None.
Proof. repeat split; reflexivity. Qed.

Example concatenate_small :
  jnp.concatenate [[1]; [2]]%R [[0]; [1]]%R = Some [[1; 0]; [2; 1]]%R
  ∧ jnp.concatenate [[1]; [2]]%R [[0]]%R = None.
Proof. repeat split; reflexivity. Qed.

Example float32_numbers :
  f32.div (f32.of_Z 1) (f32.of_Z 10) = ex_tenth
  ∧ f32.div (f32.of_Z 3) (f32.of_Z 10) = ex_three_tenths
  ∧ f32.div (f32.of_Z 7) (f32.of_Z 10) = ex_seven_tenths
  ∧ ex_large = S754_finite false 13234890 76
  ∧ f32.mul ex_large ex_large = S754_infinity false
  ∧ f32.add (f32.of_Z 1) f32.zero = f32.of_Z 1.
Proof. repeat split; vm_compute; reflexivity. Qed.

Example linear_small :
  hk.Linear 1 (ex_linear [[1]; [0]]%R [0%R]) [[1; 0]; [2; 1]]%R
  = Some [[1 * 1 + (0 * 0 + 0) + 0]; [2 * 1 + (1 * 0 + 0) + 0]]%R
  ∧ hk.Linear 1 (ex_linear [[1]; [0]]%R [0%R]) [[1; 0; 5]]%R = None
  ∧ hk.Linear 2 (ex_linear [[1]; [0]]%R [0%R]) [[1; 0]]%R = None.
Proof. repeat split; reflexivity. Qed.

(** ** Running the network functions *)

Ltac hk_unfold :=
  unfold hk.MLP, TORSO, hk.lift, hk.get_parameter, hk.unique_name, hk.call;
  unfold mbind, hk.M_bind, mret, hk.M_ret, hk.bind, hk.ret, option_bind.

Lemma name_for_empty (name : string) : hk.name_for name ∅ = name.
Proof. unfold hk.name_for. rewrite lookup_empty. reflexivity. Qed.

Lemma name_for_bump_ne (name name' : string) (c : gmap string nat) :
  name ≠ name' → hk.name_for name (hk.bump name' c) = hk.name_for name c.
Proof.
  intros Hne. unfold hk.name_for, hk.bump.
  rewrite lookup_insert_ne by congruence. reflexivity.
Qed.

Lemma name_for_bump (name : string) (c : gmap string nat) :
  hk.name_for name (hk.bump name c)
  = name +:+ "_" +:+ pretty (S (default 0 (c !! name))).
Proof. unfold hk.name_for, hk.bump. rewrite lookup_insert_eq. reflexivity. Qed.

Section Run.
Context {ConvParams : Type}.
Variable AtariTorso : ConvParams → images → option matrix.
Variable cfg : Config.
Implicit Types (P : hk.Params ConvParams) (c : gmap string nat).

Lemma goal_fn_run goal P c :
  _goal_fn cfg goal P c =
    g ← hk.MLP_call P (hk.name_for "g_encoder" c) false 0 (encoder_sizes cfg) goal;
    Some (g, hk.bump "g_encoder" c).
Proof.
  unfold _goal_fn, encoder_sizes. hk_unfold.
  destruct (hk.MLP_call _ _ _ _ _ _); reflexivity.
Qed.

Lemma repr_fn_run obs action hidden P c :
  _repr_fn AtariTorso cfg obs action hidden P c =
    r ← repr_head AtariTorso cfg P (hk.name_for "sa_encoder" c)
          (hk.name_for "g_encoder" c) obs action hidden;
    Some (r, hk.bump "g_encoder" (hk.bump "sa_encoder" c)).
Proof.
  rewrite <- (name_for_bump_ne "g_encoder" "sa_encoder" c) by discriminate.
  unfold _repr_fn, _goal_fn, repr_head, hidden_stage, norm_stage, encoder_sizes.
  hk_unfold.
  destruct hidden as [[state goal]|]; [|destruct (use_image_obs cfg)].
  all: repeat
    match goal with
    | |- context [match ?o with Some _ => _ | None => _ end] =>
        lazymatch o with
        | context [match _ with _ => _ end] => fail
        | _ => destruct o as [?|] eqn:?; try reflexivity
        end
    | |- context [let '(_, _) := ?p in _] => is_var p; destruct p
    end.
  all: destruct (repr_norm cfg); [destruct (repr_norm_temp cfg)|]; try reflexivity.
  all: repeat case_match; simplify_eq; reflexivity.
Qed.

Lemma language_fn_run goal language P c :
  _language_fn cfg goal language P c =
    g_repr ← hk.MLP_call P (hk.name_for "g_encoder" c) false 0 (encoder_sizes cfg) goal;
    l_repr ← hk.MLP_call P (hk.name_for "l_encoder" c) false 0 (encoder_sizes cfg) language;
    outer ← _combine_repr g_repr l_repr;
    Some ((g_repr, l_repr, outer), hk.bump "l_encoder" (hk.bump "g_encoder" c)).
Proof.
  rewrite <- (name_for_bump_ne "l_encoder" "g_encoder" c) by discriminate.
  unfold _language_fn, _goal_fn, encoder_sizes. hk_unfold.
  repeat (case_match; simplify_eq/=); done.
Qed.

Lemma critic_fn_run obs action P :
  hk.transform (_critic_fn AtariTorso cfg obs action) P
  = critic_head AtariTorso cfg P obs action.
Proof.
  unfold hk.transform, _critic_fn, critic_head.
  unfold mbind at 1, hk.M_bind, hk.bind. rewrite repr_fn_run.
  rewrite !name_for_empty.
  destruct (repr_head _ _ _ "sa_encoder" _ _ _ _) as [[[sa g] h]|]; [|done].
  cbn [mbind option_bind].
  unfold mbind at 1, hk.M_bind, hk.bind, hk.lift.
  destruct (_combine_repr sa g) as [outer|]; [|done].
  cbn [mbind option_bind].
  destruct (twin_q cfg); [|done].
  unfold mbind at 1, hk.M_bind, hk.bind. rewrite repr_fn_run.
  rewrite (name_for_bump_ne "sa_encoder" "g_encoder") by discriminate.
  rewrite name_for_bump, (name_for_bump "g_encoder").
  replace ("sa_encoder" +:+ "_" +:+ pretty (S (default 0 (∅ !! "sa_encoder"))))
    with "sa_encoder_1" by (vm_compute; reflexivity).
  replace ("g_encoder" +:+ "_" +:+
           pretty (S (default 0 (hk.bump "sa_encoder" ∅ !! "g_encoder"))))
    with "g_encoder_1" by (vm_compute; reflexivity).
  destruct (repr_head _ _ _ "sa_encoder_1" _ _ _ _) as [[[sa2 g2] h2]|]; [|done].
  cbn [mbind option_bind]. hk_unfold.
  repeat (case_match; simplify_eq/=); done.
Qed.

Lemma repr_fn_transform obs action hidden P :
  hk.transform (_repr_fn AtariTorso cfg obs action hidden) P
  = repr_head AtariTorso cfg P "sa_encoder" "g_encoder" obs action hidden.
Proof.
  unfold hk.transform. rewrite repr_fn_run, !name_for_empty.
  destruct (repr_head _ _ _ _ _ _ _ _) as [[[sa g] h]|]; reflexivity.
Qed.

Lemma goal_fn_transform goal P :
  hk.transform (_goal_fn cfg goal) P
  = hk.MLP_call P "g_encoder" false 0 (encoder_sizes cfg) goal.
Proof.
  unfold hk.transform. rewrite goal_fn_run, name_for_empty.
  destruct (hk.MLP_call _ _ _ _ _ _); reflexivity.
Qed.

Lemma language_fn_transform goal language P :
  hk.transform (_language_fn cfg goal language) P =
    g_repr ← hk.MLP_call P "g_encoder" false 0 (encoder_sizes cfg) goal;
    l_repr ← hk.MLP_call P "l_encoder" false 0 (encoder_sizes cfg) language;
    outer ← _combine_repr g_repr l_repr;
    Some (g_repr, l_repr, outer).
Proof.
  unfold hk.transform. rewrite language_fn_run, !name_for_empty.
  destruct (hk.MLP_call P "g_encoder" _ _ _ _) as [g|]; [|done].
  destruct (hk.MLP_call P "l_encoder" _ _ _ _) as [l|]; [|done].
  cbn [mbind option_bind].
  destruct (_combine_repr g l); reflexivity.
Qed.

End Run.

(** ** The stages of the representation function *)

Lemma divide_scalar_1 (x : matrix) : jnp.divide_scalar x 1 = x.
Proof.
  unfold jnp.divide_scalar.
  induction x as [|r x IH]; [reflexivity|].
  cbn [map]. rewrite IH. f_equal.
  clear. induction r as [|v r IH]; [reflexivity|].
  cbn [map]. rewrite IH. f_equal. lra.
Qed.

Section Stages.
Context {ConvParams : Type}.
Variable AtariTorso : ConvParams → images → option matrix.
Implicit Types (P : hk.Params ConvParams) (cfg : Config).

Lemma repr_head_inv cfg P n1 n2 obs action hidden sa g h :
  repr_head AtariTorso cfg P n1 n2 obs action hidden = Some (sa, g, h) →
  ∃ sa_input sa0 g0,
    hidden_stage AtariTorso cfg P obs hidden = Some h
    ∧ jnp.concatenate h.1 action = Some sa_input
    ∧ hk.MLP_call P n1 false 0 (encoder_sizes cfg) sa_input = Some sa0
    ∧ hk.MLP_call P n2 false 0 (encoder_sizes cfg) h.2 = Some g0
    ∧ norm_stage cfg P sa0 g0 = Some (sa, g).
Proof.
  unfold repr_head. intros H.
  destruct (hidden_stage _ _ _ _ _) as [[state goal]|]; [|done].
  cbn [mbind option_bind] in H.
  destruct (jnp.concatenate state action) as [sa_input|] eqn:E1; [|done].
  cbn [mbind option_bind] in H.
  destruct (hk.MLP_call P n1 _ _ _ _) as [sa0|] eqn:E2; [|done].
  cbn [mbind option_bind] in H.
  destruct (hk.MLP_call P n2 _ _ _ _) as [g0|] eqn:E3; [|done].
  cbn [mbind option_bind] in H.
  destruct (norm_stage cfg P sa0 g0) as [[sa' g']|] eqn:E4; [|done].
  cbn [mbind option_bind] in H. injection H as -> -> <-.
  exists sa_input, sa0, g0. auto.
Qed.

Lemma repr_head_intro cfg P n1 n2 obs action hidden sa g h sa_input sa0 g0 :
  hidden_stage AtariTorso cfg P obs hidden = Some h →
  jnp.concatenate h.1 action = Some sa_input →
  hk.MLP_call P n1 false 0 (encoder_sizes cfg) sa_input = Some sa0 →
  hk.MLP_call P n2 false 0 (encoder_sizes cfg) h.2 = Some g0 →
  norm_stage cfg P sa0 g0 = Some (sa, g) →
  repr_head AtariTorso cfg P n1 n2 obs action hidden = Some (sa, g, h).
Proof.
  intros Hh Hc Hsa Hg Hn. unfold repr_head. rewrite Hh.
  destruct h as [state goal]. cbn [mbind option_bind fst snd] in *.
  rewrite Hc. cbn [mbind option_bind]. rewrite Hsa. cbn [mbind option_bind].
  rewrite Hg. cbn [mbind option_bind]. rewrite Hn. reflexivity.
Qed.

Lemma repr_head_hidden cfg P n1 n2 obs action hidden sa g h :
  repr_head AtariTorso cfg P n1 n2 obs action hidden = Some (sa, g, h) →
  hidden_stage AtariTorso cfg P obs hidden = Some h.
Proof. intros H. apply repr_head_inv in H as (?&?&?&?&_). done. Qed.

Lemma repr_head_reuse cfg P n1 n2 obs obs' action hidden sa g h :
  repr_head AtariTorso cfg P n1 n2 obs action hidden = Some (sa, g, h) →
  repr_head AtariTorso cfg P n1 n2 obs' action (Some h) = Some (sa, g, h).
Proof.
  intros H. apply repr_head_inv in H as (?&?&?&?&?&?&?&?).
  eapply repr_head_intro; eauto.
Qed.

Lemma norm_stage_temp_zero cfg P sa g :
  repr_norm_temp cfg = true →
  hk.top_level P !! "repr_log_scale" = Some 0%R →
  norm_stage cfg P sa g = norm_stage (with_repr_norm_temp false cfg) P sa g.
Proof.
  intros Ht Hs. unfold norm_stage.
  cbn [with_repr_norm_temp repr_norm repr_norm_temp].
  rewrite Ht, Hs. cbn [mbind option_bind].
  rewrite exp_0, divide_scalar_1. reflexivity.
Qed.

(** With normalization on, the embeddings are the normalized embeddings of
    the same configuration with normalization off. *)
Lemma repr_head_norm_off cfg P n1 n2 obs action hidden sa g h :
  repr_norm cfg = true →
  repr_head AtariTorso cfg P n1 n2 obs action hidden = Some (sa, g, h) →
  ∃ sa_raw g_raw,
    repr_head AtariTorso (with_repr_norm false cfg) P n1 n2 obs action hidden
      = Some (sa_raw, g_raw, h)
    ∧ g = jnp.divide_rows g_raw (jnp.linalg_norm g_raw)
    ∧ (if repr_norm_temp cfg then
         ∃ log_scale, hk.top_level P !! "repr_log_scale" = Some log_scale
           ∧ sa = jnp.divide_scalar
                    (jnp.divide_rows sa_raw (jnp.linalg_norm sa_raw))
                    (exp log_scale)
       else sa = jnp.divide_rows sa_raw (jnp.linalg_norm sa_raw)).
Proof.
  intros Hn H.
  apply repr_head_inv in H as (sa_input & sa0 & g0 & Hh & Hc & Hsa & Hg & Hst).
  exists sa0, g0. split.
  - eapply repr_head_intro; eauto.
  - unfold norm_stage in Hst. rewrite Hn in Hst.
    destruct (repr_norm_temp cfg).
    + destruct (hk.top_level P !! "repr_log_scale") as [ls|]; [|done].
      cbn [mbind option_bind] in Hst. injection Hst as <- <-.
      split; [reflexivity|]. exists ls. done.
    + injection Hst as <- <-. done.
Qed.

End Stages.

(** ** Lists and real numbers *)

Lemma lookup_map {A B} (f : A → B) (l : list A) (i : nat) :
  map f l !! i = f <$> l !! i.
Proof. revert i. induction l as [|a l IH]; intros [|i]; cbn; auto. Qed.

Lemma divide_rows_norm (x : matrix) :
  jnp.divide_rows x (jnp.linalg_norm x)
  = map (λ r, map (λ v, v / jnp.norm r)%R r) x.
Proof.
  unfold jnp.divide_rows, jnp.linalg_norm.
  induction x as [|r x IH]; [reflexivity|]. cbn [map zip_with]. by rewrite IH.
Qed.

(** ** Similarity combination *)

Lemma contract_same_length (a b : vector) :
  length a = length b → jnp.contract a b = Some (jnp.dot a b).
Proof. intros H. unfold jnp.contract. rewrite H, Nat.eqb_refl. done. Qed.

Lemma mapM_total {A B} (f : A → option B) (g : A → B) (l : list A) :
  Forall (λ a, f a = Some (g a)) l → mapM f l = Some (map g l).
Proof.
  induction 1 as [|a l Ha _ IH]; [reflexivity|].
  cbn [mapM map]. rewrite Ha, IH. reflexivity.
Qed.

Lemma einsum_matrix (n m k : nat) (A B : matrix) :
  is_matrix n k A → is_matrix m k B →
  jnp.einsum_ik_jk A B = Some (map (λ a, map (λ b, jnp.dot a b) B) A).
Proof.
  intros [_ HA] [_ HB]. unfold jnp.einsum_ik_jk.
  apply mapM_total. eapply Forall_impl; [exact HA|].
  intros a Ha. cbn beta. apply mapM_total.
  eapply Forall_impl; [exact HB|]. intros b Hb. cbn beta.
  apply contract_same_length. congruence.
Qed.

(** *** On float32 numbers *)






(** ** Reshaping *)

Section Chunks.
Context {A : Type}.
Implicit Types (l : list A).

Lemma chunks_length n k l : length (jnp.chunks n k l) = n.
Proof. revert l. induction n as [|n IH]; intros l; cbn; [done|]. by rewrite IH. Qed.

Lemma chunks_Forall_length n k l :
  n * k ≤ length l → Forall (λ c, length c = k) (jnp.chunks n k l).
Proof.
  revert l. induction n as [|n IH]; intros l Hl; cbn [jnp.chunks]; constructor.
  - rewrite length_take. lia.
  - apply IH. rewrite length_drop. lia.
Qed.

Lemma concat_chunks n k l : length l = n * k → concat (jnp.chunks n k l) = l.
Proof.
  revert l. induction n as [|n IH]; intros l Hl; cbn [jnp.chunks concat].
  - destruct l; [done|]. cbn in Hl. lia.
  - rewrite IH by (rewrite length_drop; lia). apply take_drop.
Qed.

Lemma chunks_app n m k l1 l2 :
  length l1 = n * k →
  jnp.chunks (n + m) k (l1 ++ l2) = jnp.chunks n k l1 ++ jnp.chunks m k l2.
Proof.
  revert l1. induction n as [|n IH]; intros l1 Hl; cbn [jnp.chunks Nat.add app].
  - destruct l1; [done|]. cbn in Hl. lia.
  - assert (k ≤ length l1) by lia.
    rewrite take_app_le, drop_app_le by done.
    rewrite IH by (rewrite length_drop; lia). done.
Qed.

Lemma chunks_exact k l : length l = k → jnp.chunks 1 k l = [l].
Proof.
  intros <-. cbn. by rewrite firstn_all.
Qed.
End Chunks.

Lemma length_concat_matrix {A} (n m : nat) (x : list (list A)) :
  length x = n → Forall (λ r, length r = m) x → length (concat x) = n * m.
Proof.
  intros <- H. induction H as [|r x Hr _ IH]; cbn [concat length]; [done|].
  rewrite length_app, IH, Hr. lia.
Qed.

Lemma reshape_chunks_rows (h w c : nat) (x : matrix) :
  Forall (λ r, length r = h * w * c) x →
  jnp.chunks (length x) h
    (jnp.chunks (length x * h) w (jnp.chunks (length x * h * w) c (concat x)))
  = map (image_of_segment h w c) x.
Proof.
  induction 1 as [|r x Hr Hx IH]; [reflexivity|].
  cbn [length concat map].
  replace (S (length x) * h * w) with (h * w + length x * h * w) by lia.
  rewrite chunks_app by lia.
  replace (S (length x) * h) with (h + length x * h) by lia.
  rewrite chunks_app by (rewrite chunks_length; lia).
  change (S (length x)) with (1 + length x).
  rewrite chunks_app by (rewrite chunks_length; lia).
  rewrite IH. rewrite chunks_exact by (rewrite chunks_length; lia).
  reflexivity.
Qed.

Lemma reshape_images_inv (h w c : nat) (x : matrix) (y : images) :
  jnp.reshape_images h w c x = Some y →
  let size := length (concat x) in
  let n := size `div` (h * w * c) in
  h * w * c ≠ 0 ∧ size = n * (h * w * c)
  ∧ y = jnp.chunks n h (jnp.chunks (n * h) w (jnp.chunks (n * h * w) c (concat x))).
Proof.
  unfold jnp.reshape_images. intros H.
  destruct (h * w * c =? 0) eqn:E0; [done|]. apply Nat.eqb_neq in E0.
  destruct (length (concat x) `mod` (h * w * c) =? 0) eqn:E1; [|done].
  apply Nat.eqb_eq in E1. cbn in H. injection H as <-.
  cbn zeta. split; [done|]. split; [|done].
  pose proof (Nat.div_mod_eq (length (concat x)) (h * w * c)). lia.
Qed.

Lemma reshape_images_None (h w c : nat) (x : matrix) :
  jnp.reshape_images h w c x = None ↔
  h * w * c = 0 ∨ length (concat x) `mod` (h * w * c) ≠ 0.
Proof.
  unfold jnp.reshape_images.
  destruct (h * w * c =? 0) eqn:E0.
  - apply Nat.eqb_eq in E0. cbn. split; auto.
  - apply Nat.eqb_neq in E0.
    destruct (length (concat x) `mod` (h * w * c) =? 0) eqn:E1; cbn.
    + apply Nat.eqb_eq in E1. split; [done|]. intros [?|?]; done.
    + apply Nat.eqb_neq in E1. split; auto.
Qed.

Lemma chunks3_images (n h w c : nat) (flat : vector) :
  length flat = n * h * w * c →
  is_images n h w c (jnp.chunks n h (jnp.chunks (n * h) w (jnp.chunks (n * h * w) c flat)))
  ∧ concat (concat (concat
      (jnp.chunks n h (jnp.chunks (n * h) w (jnp.chunks (n * h * w) c flat))))) = flat.
Proof.
  intros Hl. split.
  - split; [apply chunks_length|].
    assert (Forall (λ row : list (list R), length row = w ∧ Forall (λ px, length px = c) row)
              (jnp.chunks (n * h) w (jnp.chunks (n * h * w) c flat))) as Hrows.
    { apply Forall_and. split.
      - apply chunks_Forall_length. rewrite chunks_length. lia.
      - apply Forall_concat. rewrite concat_chunks by (rewrite chunks_length; lia).
        apply chunks_Forall_length. lia. }
    apply Forall_and. split.
    + apply chunks_Forall_length. rewrite chunks_length. lia.
    + apply Forall_concat. rewrite concat_chunks by (rewrite chunks_length; lia).
      exact Hrows.
  - rewrite concat_chunks by (rewrite chunks_length; lia).
    rewrite concat_chunks by (rewrite chunks_length; lia).
    apply concat_chunks. lia.
Qed.

(** ** Observation unflattening *)

Lemma concat_map_map {A B} (f : A → B) (x : list (list A)) :
  concat (map (map f) x) = map f (concat x).
Proof.
  induction x as [|r x IH]; [reflexivity|]. cbn [map concat].
  by rewrite map_app, IH.
Qed.

Lemma flatten_divide_images (x : images) (c : R) :
  flatten (jnp.divide_images x c) = map (λ v, v / c)%R (flatten x).
Proof.
  unfold flatten, jnp.divide_images. by rewrite !concat_map_map.
Qed.

Lemma is_images_divide n h w c (x : images) d :
  is_images n h w c x → is_images n h w c (jnp.divide_images x d).
Proof.
  unfold is_images, jnp.divide_images. intros [Hn H]. split; [by rewrite length_map|].
  apply List.Forall_map. eapply Forall_impl; [exact H|]. cbn beta.
  intros img [Hh Hi]. split; [by rewrite length_map|].
  apply List.Forall_map. eapply Forall_impl; [exact Hi|]. cbn beta.
  intros row [Hw Hr]. split; [by rewrite length_map|].
  apply List.Forall_map. eapply Forall_impl; [exact Hr|]. cbn beta.
  intros px Hp. by rewrite length_map.
Qed.

Lemma Forall_concat_inv {A} (Q : A → Prop) (x : list (list A)) :
  Forall Q (concat x) → Forall (Forall Q) x.
Proof.
  induction x as [|r x IH]; cbn [concat]; [constructor|].
  intros H. apply Forall_app in H as [H1 H2]. constructor; auto.
Qed.

Lemma pixels_in_flatten lo hi (x : images) :
  Forall (λ v, lo <= v <= hi)%R (flatten x) → pixels_in lo hi x.
Proof.
  unfold flatten, pixels_in. intros H.
  apply Forall_concat_inv in H.
  apply Forall_concat_inv in H. apply Forall_concat_inv in H. exact H.
Qed.

Lemma cols_to_matrix n w d (x : matrix) :
  is_matrix n w x → is_matrix n (d `min` w) (jnp.cols_to d x).
Proof.
  intros [Hn H]. split; [unfold jnp.cols_to; by rewrite length_map|].
  apply List.Forall_map. eapply Forall_impl; [exact H|]. cbn beta.
  intros r <-. apply length_take.
Qed.

Lemma cols_from_matrix n w d (x : matrix) :
  is_matrix n w x → is_matrix n (w - d) (jnp.cols_from d x).
Proof.
  intros [Hn H]. split; [unfold jnp.cols_from; by rewrite length_map|].
  apply List.Forall_map. eapply Forall_impl; [exact H|]. cbn beta.
  intros r <-. apply length_drop.
Qed.

Lemma reshape_images_spec (h w c n m : nat) (x : matrix) :
  is_matrix n m x →
  (jnp.reshape_images h w c x = None ↔
     h * w * c = 0 ∨ (n * m) `mod` (h * w * c) ≠ 0)
  ∧ (∀ y, jnp.reshape_images h w c x = Some y →
       is_images ((n * m) `div` (h * w * c)) h w c y ∧ flatten y = concat x)
  ∧ (m = h * w * c → m ≠ 0 →
       jnp.reshape_images h w c x = Some (map (image_of_segment h w c) x)).
Proof.
  intros [Hn Hm]. pose proof (length_concat_matrix n m x Hn Hm) as Hl.
  split; [|split].
  - rewrite reshape_images_None, Hl. done.
  - intros y Hy. apply reshape_images_inv in Hy as (H0 & Hsize & ->).
    cbn zeta in Hsize. rewrite Hl in Hsize |- *.
    apply chunks3_images. rewrite Hl. rewrite Hsize at 1. rewrite !Nat.mul_assoc. reflexivity.
  - intros -> H0. unfold jnp.reshape_images. rewrite Hl.
    rewrite Nat.Div0.mod_mul, Nat.div_mul by done.
    apply Nat.eqb_neq in H0. rewrite H0. cbn [orb negb Nat.eqb].
    f_equal. subst n. apply reshape_chunks_rows. exact Hm.
Qed.

(** Claim C8.  [_unflatten_obs] splits each row of the flat observation at
    [obs_dim], reshapes each part into 64 x 64 x 3 images and divides the
    pixels by 255, so that entries in [[0, 255]] end in [[0, 1]].  It fails
    exactly when the number of entries of a part is not a multiple of
    64 * 64 * 3, hence only when a segment is not of that length; when both
    segments have that length, image [i] of each part is the segment of
    observation [i]. *)
Theorem unflatten_obs_spec (cfg : Config) (n w : nat) (obs : matrix) :
  is_matrix n w obs →
  let ds := obs_dim cfg `min` w in
  let dg := w - obs_dim cfg in
  (_unflatten_obs cfg obs = None ↔
     (n * ds) `mod` (64 * 64 * 3) ≠ 0 ∨ (n * dg) `mod` (64 * 64 * 3) ≠ 0)
  ∧ (_unflatten_obs cfg obs = None → ds ≠ 64 * 64 * 3 ∨ dg ≠ 64 * 64 * 3)
  ∧ (∀ state goal, _unflatten_obs cfg obs = Some (state, goal) →
       is_images ((n * ds) `div` (64 * 64 * 3)) 64 64 3 state
       ∧ is_images ((n * dg) `div` (64 * 64 * 3)) 64 64 3 goal
       ∧ flatten state
         = map (λ v, v / 255)%R (concat (jnp.cols_to (obs_dim cfg) obs))
       ∧ flatten goal
         = map (λ v, v / 255)%R (concat (jnp.cols_from (obs_dim cfg) obs))
       ∧ (Forall (Forall (λ v, 0 <= v <= 255)%R) obs →
          pixels_in 0 1 state ∧ pixels_in 0 1 goal))
  ∧ (ds = 64 * 64 * 3 → dg = 64 * 64 * 3 →
     _unflatten_obs cfg obs =
       Some (map (λ r, map (map (map (λ v, v / 255)%R))
                         (image_of_segment 64 64 3 (take (obs_dim cfg) r))) obs,
             map (λ r, map (map (map (λ v, v / 255)%R))
                         (image_of_segment 64 64 3 (drop (obs_dim cfg) r))) obs)).
Proof.
  intros Hobs ds dg.
  pose proof (cols_to_matrix n w (obs_dim cfg) obs Hobs) as Hs.
  pose proof (cols_from_matrix n w (obs_dim cfg) obs Hobs) as Hg.
  fold ds in Hs. fold dg in Hg.
  destruct (reshape_images_spec 64 64 3 n ds _ Hs) as (HsN & HsS & HsE).
  destruct (reshape_images_spec 64 64 3 n dg _ Hg) as (HgN & HgS & HgE).
  assert (64 * 64 * 3 ≠ 0) as Hnz by lia.
  assert (_unflatten_obs cfg obs = None ↔
     (n * ds) `mod` (64 * 64 * 3) ≠ 0 ∨ (n * dg) `mod` (64 * 64 * 3) ≠ 0) as HNone.
  { unfold _unflatten_obs.
    destruct (jnp.reshape_images 64 64 3 (jnp.cols_to _ obs)) as [state|] eqn:Es;
      cbn [mbind option_bind].
    - destruct (jnp.reshape_images 64 64 3 (jnp.cols_from _ obs)) as [goal|] eqn:Eg;
        cbn [mbind option_bind].
      + split; [done|]. intros [H|H].
        * assert (Some state = None) by (apply HsN; auto). done.
        * assert (Some goal = None) by (apply HgN; auto). done.
      + split; [|done]. intros _. right.
        destruct (proj1 HgN eq_refl) as [?|?]; done.
    - split; [|done]. intros _. left.
      destruct (proj1 HsN eq_refl) as [?|?]; done. }
  split; [exact HNone|]. split; [|split].
  - intros H. apply HNone in H as [H|H].
    + left. intros E. apply H. rewrite E. apply Nat.Div0.mod_mul.
    + right. intros E. apply H. rewrite E. apply Nat.Div0.mod_mul.
  - intros state goal H. unfold _unflatten_obs in H.
    destruct (jnp.reshape_images 64 64 3 (jnp.cols_to _ obs)) as [state0|] eqn:Es;
      [|done]. cbn [mbind option_bind] in H.
    destruct (jnp.reshape_images 64 64 3 (jnp.cols_from _ obs)) as [goal0|] eqn:Eg;
      [|done]. cbn [mbind option_bind] in H. injection H as <- <-.
    destruct (HsS _ eq_refl) as [Hs1 Hs2]. destruct (HgS _ eq_refl) as [Hg1 Hg2].
    split; [by apply is_images_divide|]. split; [by apply is_images_divide|].
    rewrite !flatten_divide_images, Hs2, Hg2. split; [done|]. split; [done|].
    intros Hrange.
    assert (∀ l : vector, Forall (λ v, 0 <= v <= 255)%R l →
              Forall (λ v, 0 <= v <= 1)%R (map (λ v, v / 255)%R l)) as Hdiv.
    { intros l Hl. apply List.Forall_map. eapply Forall_impl; [exact Hl|].
      cbn beta. intros v Hv. split.
      - apply Rmult_le_reg_r with 255%R; lra.
      - apply Rmult_le_reg_r with 255%R; [lra|]. 
        replace (v / 255 * 255)%R with v by lra. lra. }
    split; apply pixels_in_flatten; rewrite flatten_divide_images;
      [rewrite Hs2|rewrite Hg2]; apply Hdiv, Forall_concat;
      apply List.Forall_map; (eapply Forall_impl; [exact Hrange|]); cbn beta;
      intros r Hr; [apply Forall_take|apply Forall_drop]; exact Hr.
  - intros Es Eg. unfold _unflatten_obs.
    rewrite (HsE Es) by lia. rewrite (HgE Eg) by lia.
    cbn [mbind option_bind]. unfold jnp.divide_images, jnp.cols_to, jnp.cols_from.
    rewrite !map_map. reflexivity.
Qed.


(** ** Shapes through the layers *)

Lemma forallb_Forall {A} (f : A → bool) (l : list A) :
  forallb f l = true ↔ Forall (λ x, f x = true) l.
Proof.
  induction l as [|a l IH]; cbn [forallb].
  - split; [constructor|done].
  - rewrite andb_true_iff, IH. split.
    + intros [? ?]. by constructor.
    + intros H. by inversion H.
Qed.

Lemma forallb_length_eq {A} (l : list (list A)) (n : nat) :
  forallb (λ r, length r =? n) l = true ↔ Forall (λ r, length r = n) l.
Proof.
  rewrite forallb_Forall. split; intros H; (eapply Forall_impl; [exact H|]);
    cbn beta; intros r; apply Nat.eqb_eq.
Qed.

Lemma is_matrix_map (n m : nat) (f : vector → vector) (x : matrix) :
  length x = n → (∀ r, r ∈ x → length (f r) = m) → is_matrix n m (map f x).
Proof.
  intros Hn H. split; [by rewrite length_map|].
  apply List.Forall_map, Forall_forall. exact H.
Qed.

Lemma vecmat_length (s : nat) (x : vector) (w : matrix) :
  Forall (λ r, length r = s) w → length (hk.vecmat s x w) = s.
Proof.
  unfold hk.vecmat. intros H. revert x.
  induction H as [|r w Hr _ IH]; intros [|xk x]; cbn [zip_with foldr];
    try apply length_replicate.
  rewrite length_zip_with, length_map, Hr, IH. lia.
Qed.

Lemma Linear_inv (s : nat) (p : hk.LinearParams) (x y : matrix) :
  hk.Linear s p x = Some y →
  y = map (λ r, zip_with Rplus (hk.vecmat s r (hk.w p)) (hk.b p)) x
  ∧ Forall (λ r, length r = length (hk.w p)) x
  ∧ Forall (λ r, length r = s) (hk.w p)
  ∧ length (hk.b p) = s.
Proof.
  unfold hk.Linear. intros H.
  destruct (forallb _ x) eqn:E1; [|done].
  destruct (forallb _ (hk.w p)) eqn:E2; [|done].
  destruct (length (hk.b p) =? s) eqn:E3; [|done].
  cbn in H. injection H as <-.
  apply forallb_length_eq in E1, E2. apply Nat.eqb_eq in E3. done.
Qed.

Lemma Linear_shape (s : nat) (p : hk.LinearParams) (x y : matrix) :
  hk.Linear s p x = Some y → is_matrix (length x) s y.
Proof.
  intros H. apply Linear_inv in H as (-> & _ & Hw & Hb).
  apply is_matrix_map; [done|]. intros r _.
  rewrite length_zip_with, vecmat_length, Hb by done. lia.
Qed.

Lemma Linear_some (n d s : nat) (p : hk.LinearParams) (x : matrix) :
  is_matrix n d x → is_matrix d s (hk.w p) → length (hk.b p) = s →
  ∃ y, hk.Linear s p x = Some y.
Proof.
  intros [_ Hx] [Hd Hw] Hb. unfold hk.Linear.
  rewrite Hd. apply forallb_length_eq in Hx, Hw. rewrite Hx, Hw.
  apply Nat.eqb_eq in Hb. rewrite Hb. cbn. eauto.
Qed.

Lemma relu_shape (n m : nat) (x : matrix) :
  is_matrix n m x → is_matrix n m (jnp.relu x).
Proof.
  intros [Hn H]. unfold jnp.relu. split; [by rewrite length_map|].
  apply List.Forall_map. eapply Forall_impl; [exact H|]. cbn beta.
  intros r <-. apply length_map.
Qed.

Section MLP.
Context {ConvParams : Type}.
Implicit Types (P : hk.Params ConvParams).

Lemma MLP_call_shape P name af sizes : ∀ i x y d,
  hk.MLP_call P name af i sizes x = Some y →
  last sizes = Some d → is_matrix (length x) d y.
Proof.
  induction sizes as [|size rest IH]; intros i x y d H Hlast; [done|].
  cbn [hk.MLP_call] in H.
  destruct (hk.linear_params P !! hk.linear_name name i) as [p|]; [|done].
  cbn [mbind option_bind] in H.
  destruct (hk.Linear size p x) as [out|] eqn:El; [|done].
  cbn [mbind option_bind] in H.
  apply Linear_shape in El.
  destruct rest as [|size' rest'].
  - cbn [hk.MLP_call] in H. injection H as <-. cbn in Hlast.
    injection Hlast as <-.
    case_match; [by apply relu_shape|done].
  - apply (IH _ _ _ d) in H; [|done].
    destruct El as [El _].
    case_match; [unfold jnp.relu in H; rewrite length_map in H|];
      rewrite El in H; done.
Qed.

Lemma MLP_call_some P name af sizes : ∀ i n d x,
  is_matrix n d x → hk.MLP_params_ok P name i d sizes →
  ∃ y, hk.MLP_call P name af i sizes x = Some y.
Proof.
  induction sizes as [|size rest IH]; intros i n d x Hx Hok; [by eexists|].
  cbn [hk.MLP_call]. destruct Hok as [(p & Hp & Hw & Hb) Hrest].
  rewrite Hp. cbn [mbind option_bind].
  destruct (Linear_some n d size p x Hx Hw Hb) as [out Hout].
  rewrite Hout. cbn [mbind option_bind].
  apply Linear_shape in Hout as Hs. destruct Hx as [Hn _]. rewrite Hn in Hs.
  eapply (IH _ n size); [|exact Hrest].
  case_match; [by apply relu_shape|done].
Qed.

Lemma encoder_sizes_last cfg : last (encoder_sizes cfg) = Some (repr_dim cfg).
Proof. unfold encoder_sizes. apply last_snoc. Qed.
End MLP.

Lemma concatenate_shape (n d a : nat) (x y : matrix) :
  is_matrix n d x → is_matrix n a y →
  ∃ z, jnp.concatenate x y = Some z ∧ is_matrix n (d + a) z.
Proof.
  intros [Hnx Hx] [Hny Hy]. unfold jnp.concatenate.
  rewrite Hnx, Hny, Nat.eqb_refl. eexists. split; [done|].
  split; [rewrite length_zip_with; lia|].
  clear Hnx Hny. revert y Hy.
  induction Hx as [|r x Hr _ IH]; intros y Hy; [constructor|].
  destruct Hy as [|r' y Hr' Hy]; [constructor|]. cbn [zip_with].
  constructor; [rewrite length_app; lia|]. by apply IH.
Qed.

Lemma concatenate_length (x y z : matrix) :
  jnp.concatenate x y = Some z → length x = length y ∧ length z = length x.
Proof.
  unfold jnp.concatenate. destruct (length x =? length y) eqn:E; [|done].
  apply Nat.eqb_eq in E. intros [= <-]. rewrite length_zip_with. lia.
Qed.

Lemma normalize_shape (n m : nat) (x : matrix) :
  is_matrix n m x → is_matrix n m (jnp.divide_rows x (jnp.linalg_norm x)).
Proof.
  intros [Hn H]. rewrite divide_rows_norm. split; [by rewrite length_map|].
  apply List.Forall_map. eapply Forall_impl; [exact H|]. cbn beta.
  intros r <-. apply length_map.
Qed.

Lemma divide_scalar_shape (n m : nat) (x : matrix) (c : R) :
  is_matrix n m x → is_matrix n m (jnp.divide_scalar x c).
Proof.
  intros [Hn H]. unfold jnp.divide_scalar. split; [by rewrite length_map|].
  apply List.Forall_map. eapply Forall_impl; [exact H|]. cbn beta.
  intros r <-. apply length_map.
Qed.

Lemma stack_matrix (n m : nat) (x y : matrix) :
  is_matrix n m x → is_matrix n m y →
  jnp.stack x y = Some (zip_with (zip_with (λ u v, [u; v])) x y).
Proof.
  intros [Hnx Hx] [Hny Hy]. unfold jnp.stack.
  rewrite Hnx, Hny, Nat.eqb_refl. clear Hnx Hny. revert y Hy.
  induction Hx as [|r x Hr _ IH]; intros y Hy; [by destruct y|].
  destruct Hy as [|r' y Hr' Hy]; [done|].
  cbn [zip mapM zip_with fst snd]. rewrite (IH y Hy).
  unfold jnp.stack_row. rewrite Hr, Hr', Nat.eqb_refl. reflexivity.
Qed.

Lemma stack_shape (n m : nat) (x y : matrix) :
  is_matrix n m x → is_matrix n m y →
  is_array3 n m 2 (zip_with (zip_with (λ u v, [u; v])) x y).
Proof.
  intros [Hnx Hx] [Hny Hy]. split; [rewrite length_zip_with; lia|].
  clear Hnx Hny. revert y Hy.
  induction Hx as [|r x Hr _ IH]; intros y Hy; [constructor|].
  destruct Hy as [|r' y Hr' Hy]; [constructor|]. cbn [zip_with].
  constructor; [|by apply IH]. split; [rewrite length_zip_with; lia|].
  clear. revert r'. induction r as [|u r IH]; intros [|v r']; cbn [zip_with];
    constructor; auto.
Qed.

Lemma lookup_zip_with {A B C} (f : A → B → C) (x : list A) (y : list B) i a b :
  x !! i = Some a → y !! i = Some b → zip_with f x y !! i = Some (f a b).
Proof.
  revert y i. induction x as [|a' x IH]; intros [|b' y] [|i]; cbn; try done.
  - by intros [= ->] [= ->].
  - apply IH.
Qed.

Lemma entry_stack (x y : matrix) (i j : nat) (u v : R) :
  entry x i j = Some u → entry y i j = Some v →
  entry (zip_with (zip_with (λ u v, [u; v])) x y) i j = Some [u; v].
Proof.
  unfold entry. intros Hx Hy.
  destruct (x !! i) as [r|] eqn:Er; [|done].
  destruct (y !! i) as [r'|] eqn:Er'; [|done].
  cbn [mbind option_bind] in *.
  rewrite (lookup_zip_with _ x y i r r' Er Er'). cbn [mbind option_bind].
  exact (lookup_zip_with (λ u v : R, [u; v]) r r' j u v Hx Hy).
Qed.

Lemma entry_einsum (A B : matrix) (i j : nat) (a b : vector) :
  A !! i = Some a → B !! j = Some b →
  entry (map (λ a, map (λ b, jnp.dot a b) B) A) i j = Some (jnp.dot a b).
Proof.
  intros Ha Hb. unfold entry. rewrite lookup_map, Ha. cbn.
  rewrite lookup_map, Hb. reflexivity.
Qed.

Lemma einsum_shape (n m : nat) (A B : matrix) :
  length A = n → length B = m →
  is_matrix n m (map (λ a, map (λ b, jnp.dot a b) B) A).
Proof.
  intros <- <-. split; [by rewrite length_map|].
  apply List.Forall_map, Forall_true. intros a. by rewrite length_map.
Qed.

Section ValidLemmas.
Context {ConvParams : Type}.
Variable AtariTorso : ConvParams → images → option matrix.
Implicit Types (P : hk.Params ConvParams) (cfg : Config).

Lemma hidden_stage_ok cfg P (n w ds dg : nat) (obs : matrix) :
  is_matrix n w obs → obs_width_ok AtariTorso cfg P w ds dg →
  ∃ state goal, hidden_stage AtariTorso cfg P obs None = Some (state, goal)
    ∧ is_matrix n ds state ∧ is_matrix n dg goal.
Proof.
  intros Hobs Hw. unfold hidden_stage, obs_width_ok, torso_ok in *.
  destruct (use_image_obs cfg).
  - destruct Hw as (Hd & -> & <- & Ht).
    pose proof (cols_to_matrix n _ (obs_dim cfg) obs Hobs) as Hs.
    pose proof (cols_from_matrix n _ (obs_dim cfg) obs Hobs) as Hg.
    rewrite Hd in Hs, Hg.
    replace ((64 * 64 * 3) `min` (64 * 64 * 3 + 64 * 64 * 3)) with (64 * 64 * 3)
      in Hs by lia.
    replace (64 * 64 * 3 + 64 * 64 * 3 - 64 * 64 * 3) with (64 * 64 * 3)
      in Hg by lia.
    destruct (reshape_images_spec 64 64 3 n _ _ Hs) as (_ & HsS & HsE).
    destruct (reshape_images_spec 64 64 3 n _ _ Hg) as (_ & HgS & HgE).
    unfold _unflatten_obs. rewrite Hd.
    specialize (HsE eq_refl ltac:(lia)). specialize (HgE eq_refl ltac:(lia)).
    destruct (HsS _ HsE) as [Hsi _]. destruct (HgS _ HgE) as [Hgi _].
    rewrite Nat.div_mul in Hsi, Hgi by lia.
    rewrite HsE, HgE. cbn [mbind option_bind].
    destruct (Ht n _ (is_images_divide _ _ _ _ _ 255%R Hsi)) as (state & Es & Hstate).
    destruct (Ht n _ (is_images_divide _ _ _ _ _ 255%R Hgi)) as (goal & Eg & Hgoal).
    rewrite Es. cbn [mbind option_bind]. rewrite Eg. cbn [mbind option_bind].
    eauto.
  - destruct Hw as [-> ->]. eexists _, _. split; [reflexivity|].
    split; [by apply cols_to_matrix|by apply cols_from_matrix].
Qed.

Lemma norm_stage_ok cfg P (n m d : nat) (sa0 g0 : matrix) :
  is_matrix n d sa0 → is_matrix m d g0 →
  (repr_norm cfg = true → repr_norm_temp cfg = true →
   is_Some (hk.top_level P !! "repr_log_scale")) →
  ∃ sa g, norm_stage cfg P sa0 g0 = Some (sa, g)
    ∧ is_matrix n d sa ∧ is_matrix m d g.
Proof.
  intros Hsa Hg Hls. unfold norm_stage.
  destruct (repr_norm cfg); [|eauto].
  destruct (repr_norm_temp cfg).
  - destruct Hls as [ls ->]; [done..|]. cbn [mbind option_bind].
    eexists _, _. split; [reflexivity|].
    split; [apply divide_scalar_shape|]; by apply normalize_shape.
  - eexists _, _. split; [reflexivity|]. split; by apply normalize_shape.
Qed.

Lemma repr_head_ok cfg P n1 n2 (n m ds dg a : nat) obs action hidden state goal :
  hidden_stage AtariTorso cfg P obs hidden = Some (state, goal) →
  is_matrix n ds state → is_matrix m dg goal → is_matrix n a action →
  hk.MLP_params_ok P n1 0 (ds + a) (encoder_sizes cfg) →
  hk.MLP_params_ok P n2 0 dg (encoder_sizes cfg) →
  (repr_norm cfg = true → repr_norm_temp cfg = true →
   is_Some (hk.top_level P !! "repr_log_scale")) →
  ∃ sa g, repr_head AtariTorso cfg P n1 n2 obs action hidden
            = Some (sa, g, (state, goal))
    ∧ is_matrix n (repr_dim cfg) sa ∧ is_matrix m (repr_dim cfg) g.
Proof.
  intros Hh Hstate Hgoal Haction Hp1 Hp2 Hls.
  destruct (concatenate_shape n ds a state action Hstate Haction)
    as (sa_input & Hc & Hin).
  destruct (MLP_call_some P n1 false _ 0 n _ sa_input Hin Hp1) as [sa0 Hsa0].
  destruct (MLP_call_some P n2 false _ 0 m _ goal Hgoal Hp2) as [g0 Hg0].
  pose proof (MLP_call_shape P _ _ _ _ _ _ _ Hsa0 (encoder_sizes_last cfg)) as Hs1.
  pose proof (MLP_call_shape P _ _ _ _ _ _ _ Hg0 (encoder_sizes_last cfg)) as Hs2.
  destruct Hin as [Hin _]. destruct Hgoal as [Hgoal ?]. rewrite Hin in Hs1.
  rewrite Hgoal in Hs2.
  destruct (norm_stage_ok cfg P n m _ sa0 g0 Hs1 Hs2 Hls) as (sa & g & Hn & ? & ?).
  exists sa, g. split; [|done].
  eapply repr_head_intro; eauto.
Qed.

Lemma norm_stage_shape cfg P (n m d : nat) (sa0 g0 sa g : matrix) :
  norm_stage cfg P sa0 g0 = Some (sa, g) →
  is_matrix n d sa0 → is_matrix m d g0 → is_matrix n d sa ∧ is_matrix m d g.
Proof.
  unfold norm_stage. intros H Hsa Hg.
  destruct (repr_norm cfg); [|by injection H as <- <-].
  destruct (repr_norm_temp cfg).
  - destruct (hk.top_level P !! "repr_log_scale"); [|done].
    cbn [mbind option_bind] in H. injection H as <- <-.
    split; [apply divide_scalar_shape|]; by apply normalize_shape.
  - injection H as <- <-. split; by apply normalize_shape.
Qed.

(** Whatever the parameters, the embeddings that [_repr_fn] returns have one
    row per row of the state and goal representations, and [repr_dim]
    columns. *)
Lemma repr_head_shape cfg P n1 n2 obs action hidden sa g state goal :
  repr_head AtariTorso cfg P n1 n2 obs action hidden = Some (sa, g, (state, goal)) →
  length action = length state
  ∧ is_matrix (length state) (repr_dim cfg) sa
  ∧ is_matrix (length goal) (repr_dim cfg) g.
Proof.
  intros H.
  apply repr_head_inv in H as (sa_input & sa0 & g0 & Hh & Hc & Hsa & Hg & Hn).
  cbn [fst snd] in *.
  apply concatenate_length in Hc as [Hlen Hin].
  eapply MLP_call_shape in Hsa; [|apply encoder_sizes_last].
  eapply MLP_call_shape in Hg; [|apply encoder_sizes_last].
  rewrite Hin in Hsa.
  destruct (norm_stage_shape cfg P _ _ _ _ _ _ _ Hn Hsa Hg). done.
Qed.

End ValidLemmas.


(** ** The claims on the networks *)

Section Claims.
Context {ConvParams PRNGKey : Type}.
Variable AtariTorso : ConvParams → images → option matrix.
Variable NormalTanhDistribution :
  nat → R → hk.Params ConvParams → matrix → option (@Distribution PRNGKey).
Implicit Types (P : hk.Params ConvParams) (cfg : Config).

Local Abbreviation networks_of cfg :=
  (make_networks AtariTorso NormalTanhDistribution cfg).

Lemma repr_fn_bundle cfg P obs action hidden :
  repr_fn (networks_of cfg) P obs action hidden
  = repr_head AtariTorso cfg P "sa_encoder" "g_encoder" obs action hidden.
Proof. apply repr_fn_transform. Qed.

Lemma q_network_bundle cfg P obs action :
  apply (q_network (networks_of cfg)) P obs action
  = critic_head AtariTorso cfg P obs action.
Proof. apply critic_fn_run. Qed.

Lemma l_network_bundle cfg P goal language :
  apply (l_network (networks_of cfg)) P goal language =
    g_repr ← hk.MLP_call P "g_encoder" false 0 (encoder_sizes cfg) goal;
    l_repr ← hk.MLP_call P "l_encoder" false 0 (encoder_sizes cfg) language;
    outer ← _combine_repr g_repr l_repr;
    Some (g_repr, l_repr, outer).
Proof. apply language_fn_transform. Qed.

Lemma goal_fn_bundle cfg P goal :
  goal_fn (networks_of cfg) P goal
  = hk.MLP_call P "g_encoder" false 0 (encoder_sizes cfg) goal.
Proof. apply goal_fn_transform. Qed.

(** Claim C1, amended.  For one parameter collection, let the
    representation function return the goal embedding [g] and the goal
    representation [goal], and let the language network return the goal
    embedding [g'] for [goal].  Then [g'] is also what the goal function
    returns, and: without normalization [g = g']; with normalization [g]
    is [g'] with each row divided by its L2 norm. *)
Theorem goal_embedding_shared cfg P obs action hidden sa g state goal
    language g' l outer :
  repr_fn (networks_of cfg) P obs action hidden = Some (sa, g, (state, goal)) →
  apply (l_network (networks_of cfg)) P goal language = Some (g', l, outer) →
  goal_fn (networks_of cfg) P goal = Some g'
  ∧ g = if repr_norm cfg then jnp.divide_rows g' (jnp.linalg_norm g') else g'.
Proof.
  rewrite repr_fn_bundle, l_network_bundle, goal_fn_bundle.
  intros H1 H2.
  apply repr_head_inv in H1 as (sa_input & sa0 & g0 & Hh & Hc & Hsa & Hg & Hn).
  cbn [snd] in Hg. rewrite Hg in H2 |- *. cbn [mbind option_bind] in H2.
  destruct (hk.MLP_call P "l_encoder" _ _ _ _) as [l0|]; [|done].
  cbn [mbind option_bind] in H2.
  destruct (_combine_repr g0 l0); [|done].
  cbn [mbind option_bind] in H2. injection H2 as <- <- <-.
  split; [reflexivity|].
  unfold norm_stage in Hn. destruct (repr_norm cfg); [|congruence].
  destruct (repr_norm_temp cfg); [|congruence].
  destruct (hk.top_level P !! "repr_log_scale"); [|done].
  cbn [mbind option_bind] in Hn. congruence.
Qed.

(** Without image observations and whatever the parameters: when the critic
    returns, the observations and the actions have the same number [n] of
    rows and the output has shape [(n, n)], or [(n, n, 2)] with [twin_q]. *)
Lemma critic_returns_shape cfg P obs action out :
  use_image_obs cfg = false →
  apply (q_network (networks_of cfg))
    P obs action = Some out →
  length action = length obs
  ∧ match out with
    | Outer outer => twin_q cfg = false ∧ is_matrix (length obs) (length obs) outer
    | OuterTwin outer =>
        twin_q cfg = true ∧ is_array3 (length obs) (length obs) 2 outer
    end.
Proof.
  intros Himg. rewrite q_network_bundle. unfold critic_head. intros H.
  destruct (repr_head _ _ _ "sa_encoder" _ _ _ _) as [[[sa g] [state goal]]|] eqn:Hr;
    [|done].
  cbn [mbind option_bind] in H.
  pose proof (repr_head_hidden _ _ _ _ _ _ _ _ _ _ _ Hr) as Hh.
  unfold hidden_stage in Hh. rewrite Himg in Hh. injection Hh as <- <-.
  apply repr_head_shape in Hr as (Hlen & Hsa & Hg).
  unfold jnp.cols_to, jnp.cols_from in Hlen, Hsa, Hg. rewrite length_map in *.
  split; [exact Hlen|].
  unfold _combine_repr in H.
  rewrite (einsum_matrix _ _ _ sa g Hsa Hg) in H. cbn [mbind option_bind] in H.
  destruct Hsa as [Hsa1 _], Hg as [Hg1 _].
  pose proof (einsum_shape _ _ sa g Hsa1 Hg1) as Ho.
  destruct (twin_q cfg); [|by injection H as <-].
  destruct (repr_head _ _ _ "sa_encoder_1" _ _ _ _) as [[[sa2 g2] [state2 goal2]]|]
    eqn:Hr2; [|done].
  cbn [mbind option_bind] in H.
  pose proof (repr_head_hidden _ _ _ _ _ _ _ _ _ _ _ Hr2) as Hh2.
  cbn in Hh2. injection Hh2 as <- <-.
  apply repr_head_shape in Hr2 as (_ & Hsa2 & Hg2).
  unfold jnp.cols_to, jnp.cols_from in Hsa2, Hg2. rewrite length_map in *.
  rewrite (einsum_matrix _ _ _ sa2 g2 Hsa2 Hg2) in H. cbn [mbind option_bind] in H.
  destruct Hsa2 as [Hsa2 _], Hg2 as [Hg2 _].
  pose proof (einsum_shape _ _ sa2 g2 Hsa2 Hg2) as Ho2.
  rewrite (stack_matrix _ _ _ _ Ho Ho2) in H. cbn [mbind option_bind] in H.
  injection H as <-. split; [done|]. by apply stack_shape.
Qed.
(** Claim C2.  For a valid batch of [n] observations and [n] actions and
    parameters of the requested shapes, the critic returns: without
    [twin_q] the [n] x [n] matrix of the inner products of the state-action
    embeddings with the goal embeddings; with [twin_q] the [n] x [n] x 2
    array that holds at [(i, j)] the inner products of the first and of the
    second head. *)
Theorem critic_output_shape cfg P (n w a ds dg : nat) (obs action : matrix) :
  is_matrix n w obs → is_matrix n a action →
  obs_width_ok AtariTorso cfg P w ds dg → critic_params_ok cfg P ds dg a →
  ∃ sa g h,
    repr_fn (networks_of cfg) P obs action None = Some (sa, g, h)
    ∧ if twin_q cfg then
        ∃ sa2 g2 outer,
          repr_head AtariTorso cfg P "sa_encoder_1" "g_encoder_1"
            obs action (Some h) = Some (sa2, g2, h)
          ∧ apply (q_network (networks_of cfg)) P obs action
            = Some (OuterTwin outer)
          ∧ is_array3 n n 2 outer
          ∧ ∀ i j x y x2 y2,
              sa !! i = Some x → g !! j = Some y →
              sa2 !! i = Some x2 → g2 !! j = Some y2 →
              entry outer i j = Some [jnp.dot x y; jnp.dot x2 y2]
      else
        ∃ outer,
          apply (q_network (networks_of cfg)) P obs action = Some (Outer outer)
          ∧ is_matrix n n outer
          ∧ ∀ i j x y, sa !! i = Some x → g !! j = Some y →
              entry outer i j = Some (jnp.dot x y).
Proof.
  intros Hobs Haction Hw (Hp1 & Hp2 & Hp3 & Hls).
  destruct (hidden_stage_ok AtariTorso cfg P n w ds dg obs Hobs Hw)
    as (state & goal & Hh & Hstate & Hgoal).
  destruct (repr_head_ok AtariTorso cfg P "sa_encoder" "g_encoder" n n ds dg a
              obs action None state goal Hh Hstate Hgoal Haction Hp1 Hp2 Hls)
    as (sa & g & Hr & Hsa & Hg).
  exists sa, g, (state, goal). rewrite repr_fn_bundle, q_network_bundle.
  split; [exact Hr|].
  unfold critic_head. rewrite Hr. cbn [mbind option_bind].
  unfold _combine_repr.
  rewrite (einsum_matrix n n _ sa g Hsa Hg). cbn [mbind option_bind].
  destruct (twin_q cfg) eqn:Htwin.
  - destruct (Hp3 eq_refl) as [Hq1 Hq2].
    destruct (repr_head_ok AtariTorso cfg P "sa_encoder_1" "g_encoder_1" n n ds dg a
                obs action (Some (state, goal)) state goal eq_refl
                Hstate Hgoal Haction Hq1 Hq2 Hls)
      as (sa2 & g2 & Hr2 & Hsa2 & Hg2).
    exists sa2, g2. eexists. split; [exact Hr2|].
    rewrite Hr2. cbn [mbind option_bind].
    rewrite (einsum_matrix n n _ sa2 g2 Hsa2 Hg2). cbn [mbind option_bind].
    destruct Hsa as [Hsa _], Hg as [Hg _], Hsa2 as [Hsa2 _], Hg2 as [Hg2 _].
    pose proof (einsum_shape n n sa g Hsa Hg) as Ho1.
    pose proof (einsum_shape n n sa2 g2 Hsa2 Hg2) as Ho2.
    rewrite (stack_matrix n n _ _ Ho1 Ho2). cbn [mbind option_bind].
    split; [reflexivity|]. split; [by apply stack_shape|].
    intros i j x y x2 y2 Hx Hy Hx2 Hy2.
    apply entry_stack; by apply entry_einsum.
  - eexists. split; [reflexivity|].
    destruct Hsa as [Hsa _], Hg as [Hg _].
    split; [by apply einsum_shape|].
    intros i j x y Hx Hy. by apply entry_einsum.
Qed.

(** Claim C3, amended.  With normalization on, let [sa_raw] and [g_raw] be
    the embeddings the same call returns with normalization off.  Every
    row of the goal embedding is the raw row divided by its L2 norm.  Every
    row of the state-action embedding is the raw row divided by its L2
    norm and, with temperature scaling, then by [exp(repr_log_scale)]. *)
Theorem normalized_embedding_rows cfg P obs action hidden sa g h :
  repr_norm cfg = true →
  repr_fn (networks_of cfg) P obs action hidden = Some (sa, g, h) →
  ∃ sa_raw g_raw,
    repr_fn (networks_of (with_repr_norm false cfg)) P obs action hidden
      = Some (sa_raw, g_raw, h)
    ∧ length sa = length sa_raw ∧ length g = length g_raw
    ∧ (∀ i raw, g_raw !! i = Some raw →
         g !! i = Some (map (λ v, v / jnp.norm raw)%R raw))
    ∧ (∀ i raw, sa_raw !! i = Some raw →
         sa !! i = Some
           (if repr_norm_temp cfg
            then map (λ v, v / jnp.norm raw
                           / exp (default 0 (hk.top_level P !! "repr_log_scale")))%R
                     raw
            else map (λ v, v / jnp.norm raw)%R raw))
    ∧ (repr_norm_temp cfg = true →
       is_Some (hk.top_level P !! "repr_log_scale")).
Proof.
  intros Hn. rewrite !repr_fn_bundle. intros H.
  apply (repr_head_norm_off AtariTorso cfg P _ _ _ _ _ _ _ _ Hn) in H
    as (sa_raw & g_raw & Hraw & -> & Hsa).
  exists sa_raw, g_raw. split; [exact Hraw|].
  rewrite divide_rows_norm in Hsa. rewrite divide_rows_norm.
  destruct (repr_norm_temp cfg).
  - destruct Hsa as (ls & Hls & ->). rewrite Hls. cbn [default].
    unfold jnp.divide_scalar. rewrite !length_map.
    split; [done|]. split; [done|]. split; [|split; [|eauto]].
    + intros i raw Hi. by rewrite lookup_map, Hi.
    + intros i raw Hi. rewrite !lookup_map, Hi. cbn. by rewrite map_map.
  - subst sa. rewrite !length_map.
    split; [done|]. split; [done|]. split; [|split; [|done]].
    + intros i raw Hi. by rewrite lookup_map, Hi.
    + intros i raw Hi. by rewrite lookup_map, Hi.
Qed.

(** Claim C4.  When the representation function, called without [hidden],
    returns [(sa, g, h)], calling it with [hidden = h] returns the same
    [(sa, g, h)], whatever the observation.  A call with [hidden = h]
    returns [h] as its third component, and the second head of the twin
    critic is such a call, on the [h] returned by the first head. *)
Theorem repr_fn_hidden_cache cfg P obs action sa g h :
  repr_fn (networks_of cfg) P obs action None = Some (sa, g, h) →
  (∀ obs', repr_fn (networks_of cfg) P obs' action (Some h) = Some (sa, g, h))
  ∧ (∀ sa_name g_name obs' sa2 g2 h2,
       repr_head AtariTorso cfg P sa_name g_name obs' action (Some h)
         = Some (sa2, g2, h2) → h2 = h)
  ∧ (twin_q cfg = true →
     apply (q_network (networks_of cfg)) P obs action =
       outer ← _combine_repr sa g;
       '(sa2, g2, _) ←
         repr_head AtariTorso cfg P "sa_encoder_1" "g_encoder_1"
           obs action (Some h);
       outer2 ← _combine_repr sa2 g2;
       OuterTwin <$> jnp.stack outer outer2).
Proof.
  rewrite repr_fn_bundle. intros H. split; [|split].
  - intros obs'. rewrite repr_fn_bundle. eapply repr_head_reuse, H.
  - intros ?????? H2. apply repr_head_hidden in H2. cbn in H2. congruence.
  - intros Htwin. rewrite q_network_bundle.
    unfold critic_head. rewrite H, Htwin.
    cbn [mbind option_bind].
    destruct (_combine_repr sa g) as [outer|]; [|done].
    cbn [mbind option_bind].
    destruct (repr_head _ _ _ "sa_encoder_1" _ _ _ _) as [[[sa2 g2] h2]|]; [|done].
    cbn [mbind option_bind].
    destruct (_combine_repr sa2 g2) as [outer2|]; [|done].
    cbn [mbind option_bind].
    destruct (jnp.stack outer outer2); reflexivity.
Qed.

(** Claim C5.  With temperature scaling on and [repr_log_scale] equal to
    0, the representation function returns what it returns with
    temperature scaling off; with normalization on, the state-action
    embedding is then the raw embedding with each row divided by its norm,
    and nothing else. *)
Theorem temperature_zero_init cfg P obs action hidden :
  repr_norm_temp cfg = true →
  hk.top_level P !! "repr_log_scale" = Some 0%R →
  repr_fn (networks_of cfg) P obs action hidden
  = repr_fn (networks_of (with_repr_norm_temp false cfg)) P obs action hidden
  ∧ (repr_norm cfg = true → ∀ sa g h,
       repr_fn (networks_of cfg) P obs action hidden = Some (sa, g, h) →
       ∃ sa_raw g_raw,
         repr_fn (networks_of (with_repr_norm false cfg)) P obs action hidden
           = Some (sa_raw, g_raw, h)
         ∧ sa = jnp.divide_rows sa_raw (jnp.linalg_norm sa_raw)).
Proof.
  intros Ht Hs. rewrite !repr_fn_bundle. split.
  - unfold repr_head.
    change (hidden_stage AtariTorso (with_repr_norm_temp false cfg))
      with (hidden_stage AtariTorso cfg).
    change (encoder_sizes (with_repr_norm_temp false cfg)) with (encoder_sizes cfg).
    destruct (hidden_stage _ _ _ _ _) as [[state goal]|]; [|done].
    cbn [mbind option_bind].
    destruct (jnp.concatenate state action) as [sa_input|]; [|done].
    cbn [mbind option_bind].
    destruct (hk.MLP_call P "sa_encoder" _ _ _ _) as [sa0|]; [|done].
    cbn [mbind option_bind].
    destruct (hk.MLP_call P "g_encoder" _ _ _ _) as [g0|]; [|done].
    cbn [mbind option_bind].
    rewrite (norm_stage_temp_zero cfg P sa0 g0 Ht Hs). reflexivity.
  - intros Hn sa g h H.
    apply (repr_head_norm_off AtariTorso cfg P _ _ _ _ _ _ _ _ Hn) in H
      as (sa_raw & g_raw & Hraw & _ & Hsa).
    exists sa_raw, g_raw. split; [exact Hraw|].
    rewrite Ht in Hsa. destruct Hsa as (ls & Hls & ->).
    assert (ls = 0%R) as -> by congruence.
    rewrite exp_0. apply divide_scalar_1.
Qed.

(** Claim C7.  On a bundle whose [sample_eval] is unset,
    [apply_policy_and_sample] with [eval_mode=True] raises the
    [ValueError] "sample function is not provided": it returns no
    function, in particular not one built on the stochastic sampler. *)
Theorem eval_mode_without_sampler_raises
    (networks : @ContrastiveNetworks ConvParams PRNGKey) :
  sample_eval networks = None →
  apply_policy_and_sample networks true
  = inl (ValueError "sample function is not provided").
Proof. intros H. unfold apply_policy_and_sample. cbn [negb]. by rewrite H. Qed.

(** Claim C9.  The bundle built by [make_networks] has an evaluation
    sampler (the mode of the distribution), so [apply_policy_and_sample]
    with [eval_mode=True] returns the action function and no error. *)
Theorem make_networks_eval_sampler cfg :
  sample_eval (networks_of cfg) = Some (λ params key, dist_mode params)
  ∧ apply_policy_and_sample (networks_of cfg) true
    = inr (λ params key obs,
             d ← apply (policy_network (networks_of cfg)) params obs;
             Some (dist_mode d))
  ∧ ∀ e, apply_policy_and_sample (networks_of cfg) true ≠ inl e.
Proof. split; [reflexivity|]. split; [reflexivity|]. intros e. discriminate. Qed.

(** Claim C10.  The evaluation sampler built by [make_networks] returns
    the mode of the distribution for every key, and so do the actions
    selected in evaluation mode: two keys give the same result. *)
Theorem sample_eval_ignores_key cfg :
  ∃ sample_fn act,
    sample_eval (networks_of cfg) = Some sample_fn
    ∧ apply_policy_and_sample (networks_of cfg) true = inr act
    ∧ (∀ d key1 key2, sample_fn d key1 = sample_fn d key2
                      ∧ sample_fn d key1 = dist_mode d)
    ∧ (∀ params obs key1 key2, act params key1 obs = act params key2 obs).
Proof.
  eexists _, _. split; [reflexivity|]. split; [reflexivity|].
  split; [done|]. reflexivity.
Qed.

End Claims.

(** ** The claims on concrete inputs *)

Lemma norm_singleton (x : R) : (0 <= x)%R → jnp.norm [x] = x.
Proof.
  intros Hx. unfold jnp.norm, jnp.sum_sq, jnp.sum. cbn [map foldr].
  rewrite Rplus_0_r. by apply sqrt_square.
Qed.

Lemma ex_lookup_linear (ls : R) :
  hk.linear_params (ex_params ls) !! hk.linear_name "sa_encoder" 0
    = Some (ex_linear [[1]; [0]]%R [0%R])
  ∧ hk.linear_params (ex_params ls) !! hk.linear_name "g_encoder" 0
    = Some (ex_linear [[2%R]] [0%R])
  ∧ hk.linear_params (ex_params ls) !! hk.linear_name "sa_encoder_1" 0
    = Some (ex_linear [[3]; [0]]%R [0%R])
  ∧ hk.linear_params (ex_params ls) !! hk.linear_name "g_encoder_1" 0
    = Some (ex_linear [[5%R]] [0%R])
  ∧ hk.linear_params (ex_params ls) !! hk.linear_name "l_encoder" 0
    = Some (ex_linear [[1%R]] [0%R])
  ∧ hk.top_level (ex_params ls) !! "repr_log_scale" = Some ls.
Proof. repeat split; vm_compute; reflexivity. Qed.

(** The two encoders on the example observation: the raw embeddings. *)
Lemma ex_sa_raw (ls : R) :
  hk.MLP_call (ex_params ls) "sa_encoder" false 0 [1] [[1; 0]]%R = Some [[1%R]].
Proof.
  cbn [hk.MLP_call]. rewrite (proj1 (ex_lookup_linear ls)).
  cbn -[Rplus Rmult]. do 3 f_equal. lra.
Qed.

Lemma ex_g_raw (ls : R) :
  hk.MLP_call (ex_params ls) "g_encoder" false 0 [1] [[1%R]] = Some [[2%R]].
Proof.
  cbn [hk.MLP_call]. rewrite (proj1 (proj2 (ex_lookup_linear ls))).
  cbn -[Rplus Rmult]. do 3 f_equal. lra.
Qed.

Lemma ex_l_raw (ls : R) :
  hk.MLP_call (ex_params ls) "l_encoder" false 0 [1] [[1%R]] = Some [[1%R]].
Proof.
  cbn [hk.MLP_call].
  rewrite (proj1 (proj2 (proj2 (proj2 (proj2 (ex_lookup_linear ls)))))).
  cbn -[Rplus Rmult]. do 3 f_equal. lra.
Qed.

Lemma ex_repr_head (norm temp twin : bool) (ls : R) :
  repr_head ex_torso (ex_cfg norm temp twin) (ex_params ls)
    "sa_encoder" "g_encoder" ex_obs ex_action None
  = Some (if norm then [[if temp then (1 / exp ls)%R else 1%R]] else [[1%R]],
          if norm then [[1%R]] else [[2%R]],
          ([[1%R]], [[1%R]])).
Proof.
  unfold repr_head, hidden_stage, encoder_sizes.
  cbn [ex_cfg use_image_obs obs_dim hidden_layer_sizes repr_dim app
       ex_obs ex_action jnp.cols_to jnp.cols_from map take drop
       mbind option_bind jnp.concatenate length Nat.eqb zip_with].
  rewrite ex_sa_raw. cbn [mbind option_bind].
  rewrite ex_g_raw. cbn [mbind option_bind].
  unfold norm_stage. cbn [ex_cfg repr_norm repr_norm_temp].
  destruct norm; [|reflexivity].
  cbn [jnp.divide_rows jnp.linalg_norm map zip_with].
  rewrite !norm_singleton by lra.
  destruct temp.
  - rewrite (proj2 (proj2 (proj2 (proj2 (proj2 (ex_lookup_linear ls)))))).
    cbn [mbind option_bind jnp.divide_scalar map].
    do 4 f_equal; [do 2 f_equal|]; [|do 2 f_equal]; lra.
  - cbn [mbind option_bind]. do 3 f_equal; do 2 f_equal; lra.
Qed.

Lemma ex_language (norm temp twin : bool) (ls : R) :
  hk.transform (_language_fn (ex_cfg norm temp twin) [[1%R]] [[1%R]]) (ex_params ls)
  = Some ([[2%R]], [[1%R]], [[2%R]]).
Proof.
  rewrite language_fn_transform. unfold encoder_sizes.
  cbn [ex_cfg hidden_layer_sizes repr_dim app].
  rewrite ex_g_raw. cbn [mbind option_bind].
  rewrite ex_l_raw. cbn [mbind option_bind].
  cbn -[Rplus Rmult]. do 4 f_equal. lra.
Qed.

Lemma ex_repr_fn (norm temp twin : bool) (ls : R) :
  repr_fn (make_networks ex_torso ex_head (ex_cfg norm temp twin)) (ex_params ls)
    ex_obs ex_action None
  = Some (if norm then [[if temp then (1 / exp ls)%R else 1%R]] else [[1%R]],
          if norm then [[1%R]] else [[2%R]],
          ([[1%R]], [[1%R]])).
Proof. rewrite repr_fn_bundle. apply ex_repr_head. Qed.

Lemma ex_l_network (norm temp twin : bool) (ls : R) :
  apply (l_network (make_networks ex_torso ex_head (ex_cfg norm temp twin)))
    (ex_params ls) [[1%R]] [[1%R]]
  = Some ([[2%R]], [[1%R]], [[2%R]]).
Proof. apply ex_language. Qed.

(** The twin critic on two observations: the second head reads the
    parameters of [sa_encoder_1] and [g_encoder_1], so its matrix differs
    from that of the first head. *)
Example ex_twin_critic :
  apply (q_network (make_networks ex_torso ex_head (ex_cfg false true true)))
    (ex_params 0) ex_obs2 ex_action2
  = Some (OuterTwin [[[2; 15]; [6; 45]]; [[4; 30]; [12; 90]]]%R).
Proof.
  rewrite q_network_bundle.
  unfold critic_head, repr_head, hidden_stage, norm_stage, encoder_sizes.
  cbn [ex_cfg use_image_obs obs_dim hidden_layer_sizes repr_dim repr_norm twin_q app
       ex_obs2 ex_action2 jnp.cols_to jnp.cols_from map take drop
       mbind option_bind jnp.concatenate length Nat.eqb zip_with hk.MLP_call].
  pose proof (ex_lookup_linear 0) as (-> & -> & -> & -> & _).
  cbn -[Rplus Rmult]. do 2 f_equal.
  repeat (f_equal; try lra).
Qed.

(** Against claim C1 as stated: with normalization on, for the same goal
    representation [[1]] and the same parameters, the representation
    function returns the goal embedding [[1]] and the language network
    [[2]]. *)
Lemma goal_embedding_differs_when_normalized :
  repr_fn (make_networks ex_torso ex_head (ex_cfg true false false)) (ex_params 0)
    ex_obs ex_action None
  = Some ([[1%R]], [[1%R]], ([[1%R]], [[1%R]]))
  ∧ apply (l_network (make_networks ex_torso ex_head (ex_cfg true false false)))
      (ex_params 0) [[1%R]] [[1%R]]
    = Some ([[2%R]], [[1%R]], [[2%R]])
  ∧ [[1%R]] ≠ [[2%R]].
Proof.
  split; [apply (ex_repr_fn true false false)|].
  split; [apply ex_l_network|]. intros [= H]. lra.
Qed.

Lemma goal_embedding_shared_witness :
  repr_fn (make_networks ex_torso ex_head (ex_cfg true false false)) (ex_params 0)
    ex_obs ex_action None
  = Some ([[1%R]], [[1%R]], ([[1%R]], [[1%R]]))
  ∧ apply (l_network (make_networks ex_torso ex_head (ex_cfg true false false)))
      (ex_params 0) [[1%R]] [[1%R]]
    = Some ([[2%R]], [[1%R]], [[2%R]])
  ∧ goal_fn (make_networks ex_torso ex_head (ex_cfg true false false))
      (ex_params 0) [[1%R]] = Some [[2%R]]
  ∧ [[1%R]] = jnp.divide_rows [[2%R]] (jnp.linalg_norm [[2%R]]).
Proof.
  split; [apply (ex_repr_fn true false false)|].
  split; [apply ex_l_network|].
  exact (goal_embedding_shared ex_torso ex_head (ex_cfg true false false)
           (ex_params 0) ex_obs ex_action None _ _ _ _ _ _ _ _
           (ex_repr_fn true false false 0) (ex_l_network true false false 0)).
Defined.

(** Against claim C3 as stated: with normalization and temperature scaling
    on and [repr_log_scale = ln 2], the raw state-action embedding [[1]] is
    not zero and the embedding returned has norm 1/2. *)
Lemma sa_embedding_norm_under_temperature :
  repr_fn (make_networks ex_torso ex_head (ex_cfg false true false))
    (ex_params (ln 2)) ex_obs ex_action None
  = Some ([[1%R]], [[2%R]], ([[1%R]], [[1%R]]))
  ∧ repr_fn (make_networks ex_torso ex_head (ex_cfg true true false))
      (ex_params (ln 2)) ex_obs ex_action None
    = Some ([[(1 / 2)%R]], [[1%R]], ([[1%R]], [[1%R]]))
  ∧ jnp.norm [(1 / 2)%R] = (1 / 2)%R
  ∧ jnp.norm [(1 / 2)%R] ≠ 1%R.
Proof.
  split; [apply (ex_repr_fn false true false)|].
  split.
  - rewrite (ex_repr_fn true true false). rewrite exp_ln by lra. reflexivity.
  - rewrite norm_singleton by lra. split; lra.
Qed.

(** Against claim C3 as stated, also without temperature scaling: on
    float32 numbers the row [[10^30; 10^30]] is not zero, the sum of its
    squares overflows, its norm is infinite and the normalized row is the
    zero row, of norm 0. *)
Example normalization_overflow :
  f32.linalg_norm [[ex_large; ex_large]] = [S754_infinity false]
  ∧ f32.divide_rows [[ex_large; ex_large]] (f32.linalg_norm [[ex_large; ex_large]])
    = [[f32.zero; f32.zero]]
  ∧ f32.norm [f32.zero; f32.zero] = f32.zero
  ∧ f32.zero ≠ f32.of_Z 1.
Proof. repeat split; try (vm_compute; reflexivity). vm_compute. discriminate. Qed.

(** Against claim C3 as stated, both ways: the state-action row of norm
    1/2 under temperature scaling, and the float32 row that normalization
    sends to the zero row. *)
Lemma embedding_norm_not_unit :
  (repr_fn (make_networks ex_torso ex_head (ex_cfg false true false))
     (ex_params (ln 2)) ex_obs ex_action None
   = Some ([[1%R]], [[2%R]], ([[1%R]], [[1%R]]))
   ∧ repr_fn (make_networks ex_torso ex_head (ex_cfg true true false))
       (ex_params (ln 2)) ex_obs ex_action None
     = Some ([[(1 / 2)%R]], [[1%R]], ([[1%R]], [[1%R]]))
   ∧ jnp.norm [(1 / 2)%R] = (1 / 2)%R
   ∧ jnp.norm [(1 / 2)%R] ≠ 1%R)
  ∧ (f32.divide_rows [[ex_large; ex_large]]
       (f32.linalg_norm [[ex_large; ex_large]])
     = [[f32.zero; f32.zero]]
     ∧ f32.norm [f32.zero; f32.zero] = f32.zero
     ∧ f32.zero ≠ f32.of_Z 1).
Proof.
  split; [exact sa_embedding_norm_under_temperature|].
  exact (proj2 normalization_overflow).
Qed.

Lemma normalized_embedding_rows_witness :
  repr_norm (ex_cfg true true false) = true
  ∧ repr_fn (make_networks ex_torso ex_head (ex_cfg true true false))
      (ex_params (ln 2)) ex_obs ex_action None
    = Some ([[(1 / exp (ln 2))%R]], [[1%R]], ([[1%R]], [[1%R]]))
  ∧ [[1%R]] !! 0 = Some (map (λ v, v / jnp.norm [2%R])%R [2%R])
  ∧ [[(1 / exp (ln 2))%R]] !! 0
    = Some (map (λ v, v / jnp.norm [1%R]
                      / exp (default 0 (hk.top_level (ex_params (ln 2))
                                          !! "repr_log_scale")))%R [1%R]).
Proof.
  split; [reflexivity|]. split; [apply (ex_repr_fn true true false)|].
  destruct (normalized_embedding_rows ex_torso ex_head (ex_cfg true true false)
              (ex_params (ln 2)) ex_obs ex_action None _ _ _ eq_refl
              (ex_repr_fn true true false (ln 2)))
    as (sa_raw & g_raw & Hraw & _ & _ & Hg & Hsa & _).
  change (with_repr_norm false (ex_cfg true true false))
    with (ex_cfg false true false) in Hraw.
  rewrite (ex_repr_fn false true false) in Hraw. injection Hraw as <- <-.
  split; [exact (Hg 0 [2%R] eq_refl)|exact (Hsa 0 [1%R] eq_refl)].
Defined.

Lemma repr_fn_hidden_cache_witness :
  repr_fn (make_networks ex_torso ex_head (ex_cfg true false true)) (ex_params 0)
    ex_obs ex_action None
  = Some ([[1%R]], [[1%R]], ([[1%R]], [[1%R]]))
  ∧ repr_fn (make_networks ex_torso ex_head (ex_cfg true false true)) (ex_params 0)
      ex_obs ex_action (Some ([[1%R]], [[1%R]]))
    = Some ([[1%R]], [[1%R]], ([[1%R]], [[1%R]])).
Proof.
  split; [apply (ex_repr_fn true false true)|].
  apply (proj1 (repr_fn_hidden_cache ex_torso ex_head (ex_cfg true false true)
                  (ex_params 0) ex_obs ex_action _ _ _
                  (ex_repr_fn true false true 0))).
Defined.

Lemma temperature_zero_init_witness :
  repr_norm_temp (ex_cfg true true false) = true
  ∧ hk.top_level (ex_params 0) !! "repr_log_scale" = Some 0%R
  ∧ repr_fn (make_networks ex_torso ex_head (ex_cfg true true false)) (ex_params 0)
      ex_obs ex_action None
    = repr_fn (make_networks ex_torso ex_head
                 (with_repr_norm_temp false (ex_cfg true true false)))
        (ex_params 0) ex_obs ex_action None.
Proof.
  split; [reflexivity|].
  split; [apply (ex_lookup_linear 0)|].
  apply (proj1 (temperature_zero_init ex_torso ex_head (ex_cfg true true false)
                  (ex_params 0) ex_obs ex_action None eq_refl
                  (proj2 (proj2 (proj2 (proj2 (proj2 (ex_lookup_linear 0)))))))).
Defined.



Lemma eval_mode_without_sampler_raises_witness :
  sample_eval ex_networks_no_eval = None
  ∧ apply_policy_and_sample ex_networks_no_eval true
    = inl (ValueError "sample function is not provided").
Proof.
  split; [reflexivity|].
  apply (eval_mode_without_sampler_raises ex_networks_no_eval eq_refl).
Defined.

Lemma ex_image_obs_shape : is_matrix 1 (64 * 64 * 3 + 64 * 64 * 3) ex_image_obs.
Proof.
  split; [reflexivity|]. unfold ex_image_obs. constructor; [|constructor].
  apply length_replicate.
Qed.

Lemma unflatten_obs_spec_witness :
  is_matrix 1 (64 * 64 * 3 + 64 * 64 * 3) ex_image_obs
  ∧ ∃ state goal,
      _unflatten_obs ex_image_cfg ex_image_obs = Some (state, goal)
      ∧ is_images 1 64 64 3 state ∧ is_images 1 64 64 3 goal.
Proof.
  split; [exact ex_image_obs_shape|].
  destruct (unflatten_obs_spec ex_image_cfg 1 _ ex_image_obs ex_image_obs_shape)
    as (_ & _ & Himg & Hrows).
  cbn [ex_image_cfg obs_dim] in Himg, Hrows.
  assert ((64 * 64 * 3) `min` (64 * 64 * 3 + 64 * 64 * 3) = 64 * 64 * 3) as E1 by lia.
  assert (64 * 64 * 3 + 64 * 64 * 3 - 64 * 64 * 3 = 64 * 64 * 3) as E2 by lia.
  specialize (Hrows E1 E2). eexists _, _. split; [exact Hrows|].
  destruct (Himg _ _ Hrows) as (Hs & Hg & _).
  rewrite E1 in Hs. rewrite E2 in Hg.
  rewrite Nat.mul_1_l, Nat.div_same in Hs, Hg by lia. split; [exact Hs|exact Hg].
Defined.

Lemma ex_critic_params_ok :
  critic_params_ok (ex_cfg true true true) (ex_params 0) 1 1 1.
Proof.
  unfold critic_params_ok, encoder_sizes.
  cbn [ex_cfg hidden_layer_sizes repr_dim app hk.MLP_params_ok].
  pose proof (ex_lookup_linear 0) as (H1 & H2 & H3 & H4 & _ & H6).
  repeat split; eauto; try (rewrite H6; eauto).
  all: eexists; split; [eassumption|]; split; [|reflexivity];
    split; [reflexivity|repeat constructor].
Qed.

Lemma critic_output_shape_witness :
  is_matrix 2 2 ex_obs2 ∧ is_matrix 2 1 ex_action2
  ∧ obs_width_ok ex_torso (ex_cfg true true true) (ex_params 0) 2 1 1
  ∧ critic_params_ok (ex_cfg true true true) (ex_params 0) 1 1 1
  ∧ ∃ outer,
      apply (q_network (make_networks ex_torso ex_head (ex_cfg true true true)))
        (ex_params 0) ex_obs2 ex_action2 = Some (OuterTwin outer)
      ∧ is_array3 2 2 2 outer.
Proof.
  assert (is_matrix 2 2 ex_obs2) as Hobs by (split; [reflexivity|repeat constructor]).
  assert (is_matrix 2 1 ex_action2) as Hact
    by (split; [reflexivity|repeat constructor]).
  assert (obs_width_ok ex_torso (ex_cfg true true true) (ex_params 0) 2 1 1) as Hw
    by (split; reflexivity).
  split; [exact Hobs|]. split; [exact Hact|]. split; [exact Hw|].
  split; [exact ex_critic_params_ok|].
  destruct (critic_output_shape ex_torso ex_head (ex_cfg true true true)
              (ex_params 0) 2 2 1 1 1 ex_obs2 ex_action2 Hobs Hact Hw
              ex_critic_params_ok)
    as (sa & g & h & _ & sa2 & g2 & outer & _ & Hq & Hshape & _).
  exists outer. split; [exact Hq|exact Hshape].
Defined.

(** * Further properties of the networks *)

(** ** Layers, row by row *)

Lemma forallb_app_eq {A} (f : A → bool) (l1 l2 : list A) :
  forallb f (l1 ++ l2) = forallb f l1 && forallb f l2.
Proof. induction l1 as [|a l1 IH]; cbn; [done|]. by rewrite IH, andb_assoc. Qed.

Lemma Linear_app (s : nat) (p : hk.LinearParams) (x1 x2 : matrix) :
  hk.Linear s p (x1 ++ x2) =
    y1 ← hk.Linear s p x1; y2 ← hk.Linear s p x2; Some (y1 ++ y2).
Proof.
  unfold hk.Linear. rewrite forallb_app_eq, map_app.
  destruct (forallb _ x1), (forallb _ x2), (forallb _ (hk.w p)),
    (length (hk.b p) =? s); reflexivity.
Qed.

Lemma relu_app (x1 x2 : matrix) :
  jnp.relu (x1 ++ x2) = jnp.relu x1 ++ jnp.relu x2.
Proof. unfold jnp.relu. apply map_app. Qed.

Section Layers.
Context {ConvParams : Type}.
Implicit Types (P : hk.Params ConvParams).

Lemma MLP_call_app P name af sizes : ∀ i x1 x2,
  hk.MLP_call P name af i sizes (x1 ++ x2) =
    y1 ← hk.MLP_call P name af i sizes x1;
    y2 ← hk.MLP_call P name af i sizes x2;
    Some (y1 ++ y2).
Proof.
  induction sizes as [|size rest IH]; intros i x1 x2; [reflexivity|].
  cbn [hk.MLP_call].
  destruct (hk.linear_params P !! hk.linear_name name i) as [p|]; [|reflexivity].
  cbn [mbind option_bind]. rewrite Linear_app.
  destruct (hk.Linear size p x1) as [y1|]; [|reflexivity].
  cbn [mbind option_bind].
  destruct (hk.Linear size p x2) as [y2|]; cbn [mbind option_bind].
  - destruct (negb (bool_decide (rest = [])) || af);
      [rewrite relu_app|]; apply IH.
  - destruct (hk.MLP_call P name af (S i) rest _); reflexivity.
Qed.

(** The MLP called [name] reads the [hk.Linear] parameters only. *)
Lemma MLP_call_ext P P' name af sizes : ∀ i x,
  (∀ j, hk.linear_params P !! hk.linear_name name j
        = hk.linear_params P' !! hk.linear_name name j) →
  hk.MLP_call P name af i sizes x = hk.MLP_call P' name af i sizes x.
Proof.
  intros i x H. revert i x.
  induction sizes as [|size rest IH]; intros i x; [reflexivity|].
  cbn [hk.MLP_call]. rewrite H.
  destruct (hk.linear_params P' !! hk.linear_name name i) as [p|]; [|reflexivity].
  cbn [mbind option_bind].
  destruct (hk.Linear size p x) as [y|]; [|reflexivity].
  cbn [mbind option_bind]. apply IH.
Qed.

Lemma MLP_call_missing P name af i size rest x :
  hk.linear_params P !! hk.linear_name name i = None →
  hk.MLP_call P name af i (size :: rest) x = None.
Proof. intros H. cbn [hk.MLP_call]. by rewrite H. Qed.

Lemma MLP_call_length P name af sizes : ∀ i x y,
  hk.MLP_call P name af i sizes x = Some y → length y = length x.
Proof.
  induction sizes as [|size rest IH]; intros i x y H.
  - by injection H as <-.
  - cbn [hk.MLP_call] in H.
    destruct (hk.linear_params P !! hk.linear_name name i) as [p|]; [|done].
    cbn [mbind option_bind] in H.
    destruct (hk.Linear size p x) as [out|] eqn:El; [|done].
    cbn [mbind option_bind] in H. apply Linear_shape in El as [El _].
    apply IH in H. rewrite H.
    destruct (negb _ || af); [unfold jnp.relu; rewrite length_map|]; exact El.
Qed.

(** With [activate_final] the output of an MLP with at least one layer is
    the image of [jax.nn.relu]. *)
Lemma MLP_call_final_relu P name sizes : ∀ i x y,
  sizes ≠ [] → hk.MLP_call P name true i sizes x = Some y →
  ∃ z, y = jnp.relu z.
Proof.
  induction sizes as [|size rest IH]; intros i x y Hne H; [done|].
  cbn [hk.MLP_call] in H.
  destruct (hk.linear_params P !! hk.linear_name name i) as [p|]; [|done].
  cbn [mbind option_bind] in H.
  destruct (hk.Linear size p x) as [out|]; [|done].
  cbn [mbind option_bind] in H. rewrite orb_true_r in H.
  destruct rest as [|size' rest'].
  - injection H as <-. eauto.
  - eapply IH; [done|exact H].
Qed.
End Layers.

Lemma relu_nonneg (z : matrix) : Forall (Forall (λ v, 0 <= v)%R) (jnp.relu z).
Proof.
  unfold jnp.relu. apply List.Forall_map, Forall_true. intros r.
  apply List.Forall_map, Forall_true. intros v. apply Rmax_l.
Qed.

(** ** Stacking, inverted *)

Lemma stack_row_inv (a b : vector) (e : list (list R)) :
  jnp.stack_row a b = Some e →
  length a = length b ∧ e = zip_with (λ u v, [u; v]) a b.
Proof.
  unfold jnp.stack_row. destruct (length a =? length b) eqn:E; [|done].
  apply Nat.eqb_eq in E. by intros [= <-].
Qed.

Lemma stack_inv (x y : matrix) (t : list (list (list R))) :
  jnp.stack x y = Some t →
  Forall2 (λ a b, length a = length b) x y
  ∧ t = zip_with (zip_with (λ u v, [u; v])) x y.
Proof.
  unfold jnp.stack. destruct (length x =? length y) eqn:E; [|done].
  apply Nat.eqb_eq in E. revert y t E.
  induction x as [|a x IH]; intros [|b y] t E; try done.
  - intros [= <-]. split; [constructor|done].
  - cbn [zip zip_with mapM fst snd]. intros H.
    destruct (jnp.stack_row a b) as [e|] eqn:Er; [|done].
    cbn [mbind option_bind] in H.
    destruct (mapM _ (zip x y)) as [t'|] eqn:Et; [|done].
    cbn in H. injection H as <-.
    apply stack_row_inv in Er as [Hl ->].
    destruct (IH y t' ltac:(cbn in E; lia) Et) as [HF ->].
    split; [by constructor|done].
Qed.

Lemma zip_pair_lookup (a b : vector) (j : nat) :
  length a = length b →
  a !! j = e ← zip_with (λ u v, [u; v]) a b !! j; head e.
Proof.
  revert b j. induction a as [|u a IH]; intros [|v b] [|j] Hab; try done.
  cbn. apply IH. cbn in Hab. lia.
Qed.

Lemma entry_stack_head (x y : matrix) (i j : nat) :
  Forall2 (λ a b, length a = length b) x y →
  entry x i j = e ← entry (zip_with (zip_with (λ u v, [u; v])) x y) i j; head e.
Proof.
  intros HF. revert i. unfold entry.
  induction HF as [|a b x y Hab _ IH]; intros [|i].
  - reflexivity.
  - reflexivity.
  - cbn. by apply zip_pair_lookup.
  - cbn. apply IH.
Qed.


(** ** The language network and the composition of the critic *)

Section Composition.
Context {ConvParams PRNGKey : Type}.
Variable AtariTorso : ConvParams → images → option matrix.
Variable NormalTanhDistribution :
  nat → R → hk.Params ConvParams → matrix → option (@Distribution PRNGKey).
Implicit Types (P : hk.Params ConvParams) (cfg : Config).

Local Abbreviation networks_of cfg :=
  (make_networks AtariTorso NormalTanhDistribution cfg).

(** Property X17.  For [n] goals and [m] language
    descriptors, and parameters of the shapes that the goal and language
    encoders request, the language network returns embeddings of shapes
    [(n, repr_dim)] and [(m, repr_dim)] and the [n] x [m] matrix of their
    inner products. *)
Theorem language_output_shape cfg P (n m dg dl : nat) (goal language : matrix) :
  is_matrix n dg goal → is_matrix m dl language →
  hk.MLP_params_ok P "g_encoder" 0 dg (encoder_sizes cfg) →
  hk.MLP_params_ok P "l_encoder" 0 dl (encoder_sizes cfg) →
  ∃ g l outer,
    apply (l_network (networks_of cfg)) P goal language = Some (g, l, outer)
    ∧ is_matrix n (repr_dim cfg) g ∧ is_matrix m (repr_dim cfg) l
    ∧ is_matrix n m outer
    ∧ ∀ i j x y, g !! i = Some x → l !! j = Some y →
        entry outer i j = Some (jnp.dot x y).
Proof.
  intros Hgoal Hlang Hpg Hpl. rewrite l_network_bundle.
  destruct (MLP_call_some P "g_encoder" false _ 0 n dg goal Hgoal Hpg) as [g Hg].
  destruct (MLP_call_some P "l_encoder" false _ 0 m dl language Hlang Hpl) as [l Hl].
  pose proof (MLP_call_shape P _ _ _ _ _ _ _ Hg (encoder_sizes_last cfg)) as Hsg.
  pose proof (MLP_call_shape P _ _ _ _ _ _ _ Hl (encoder_sizes_last cfg)) as Hsl.
  destruct Hgoal as [Hn _], Hlang as [Hm _]. rewrite Hn in Hsg. rewrite Hm in Hsl.
  exists g, l. eexists. rewrite Hg. cbn [mbind option_bind].
  rewrite Hl. cbn [mbind option_bind]. unfold _combine_repr.
  rewrite (einsum_matrix n m _ g l Hsg Hsl). cbn [mbind option_bind].
  split; [reflexivity|]. split; [exact Hsg|]. split; [exact Hsl|].
  destruct Hsg as [Hsg _], Hsl as [Hsl _].
  split; [by apply einsum_shape|].
  intros i j x y Hx Hy. by apply entry_einsum.
Qed.

(** Property X12.  Without [twin_q], the critic is the
    similarity combination of the two embeddings that the representation
    function returns for the same parameters, observations and actions; it
    fails exactly when one of the two fails. *)
Theorem critic_combines_repr_fn cfg P (obs action : matrix) :
  twin_q cfg = false →
  apply (q_network (networks_of cfg)) P obs action =
    '(sa_repr, g_repr, _) ← repr_fn (networks_of cfg) P obs action None;
    outer ← _combine_repr sa_repr g_repr;
    Some (Outer outer).
Proof.
  intros Htwin. rewrite q_network_bundle, repr_fn_bundle.
  unfold critic_head. rewrite Htwin. reflexivity.
Qed.

(** Property X15.  When the twin critic returns,
    the critic of the same configuration without [twin_q] returns too, and
    its matrix is the first component of every entry of the twin
    output. *)
Theorem twin_first_head_is_single_critic cfg P (obs action : matrix) outer2 :
  apply (q_network (networks_of (with_twin_q true cfg))) P obs action
    = Some (OuterTwin outer2) →
  ∃ outer,
    apply (q_network (networks_of (with_twin_q false cfg))) P obs action
      = Some (Outer outer)
    ∧ length outer = length outer2
    ∧ ∀ i j, entry outer i j = e ← entry outer2 i j; head e.
Proof.
  rewrite !q_network_bundle. unfold critic_head.
  change (repr_head AtariTorso (with_twin_q true cfg))
    with (repr_head AtariTorso (with_twin_q false cfg)).
  cbn [with_twin_q twin_q]. intros H.
  destruct (repr_head _ _ _ "sa_encoder" _ _ _ _) as [[[sa g] h]|]; [|done].
  cbn [mbind option_bind] in *.
  destruct (_combine_repr sa g) as [outer|]; [|done].
  cbn [mbind option_bind] in *.
  destruct (repr_head _ _ _ "sa_encoder_1" _ _ _ _) as [[[sa2 g2] h2]|]; [|done].
  cbn [mbind option_bind] in H.
  destruct (_combine_repr sa2 g2) as [outer'|]; [|done].
  cbn [mbind option_bind] in H.
  destruct (jnp.stack outer outer') as [t|] eqn:Es; [|done].
  cbn in H. injection H as <-.
  apply stack_inv in Es as [HF ->].
  exists outer. split; [reflexivity|].
  split; [rewrite length_zip_with; apply Forall2_length in HF; lia|].
  intros i j. by apply entry_stack_head.
Qed.
End Composition.

(** ** Batches, one after the other *)

Lemma concatenate_app (x1 x2 y1 y2 : matrix) :
  length x1 = length y1 →
  jnp.concatenate (x1 ++ x2) (y1 ++ y2) =
    z1 ← jnp.concatenate x1 y1; z2 ← jnp.concatenate x2 y2; Some (z1 ++ z2).
Proof.
  intros H. unfold jnp.concatenate. rewrite !length_app, H, Nat.eqb_refl.
  cbn [mbind option_bind].
  destruct (length x2 =? length y2) eqn:E.
  - apply Nat.eqb_eq in E. rewrite E, Nat.eqb_refl. cbn.
    f_equal. clear E. revert y1 H.
    induction x1 as [|r x1 IH]; intros [|r' y1] H; try done.
    cbn. f_equal. apply IH. cbn in H. lia.
  - apply Nat.eqb_neq in E.
    destruct (length y1 + length x2 =? length y1 + length y2) eqn:E'; [|done].
    apply Nat.eqb_eq in E'. lia.
Qed.

Lemma bind_none {A B} (o : option A) (f : A → option B) :
  (∀ a, f a = None) → o ≫= f = None.
Proof. intros H. destruct o; [apply H|reflexivity]. Qed.

Lemma normalize_app (x1 x2 : matrix) :
  jnp.divide_rows (x1 ++ x2) (jnp.linalg_norm (x1 ++ x2))
  = jnp.divide_rows x1 (jnp.linalg_norm x1)
    ++ jnp.divide_rows x2 (jnp.linalg_norm x2).
Proof. rewrite !divide_rows_norm. apply map_app. Qed.

Lemma divide_scalar_app (x1 x2 : matrix) (c : R) :
  jnp.divide_scalar (x1 ++ x2) c
  = jnp.divide_scalar x1 c ++ jnp.divide_scalar x2 c.
Proof. unfold jnp.divide_scalar. apply map_app. Qed.

Section Batches.
Context {ConvParams PRNGKey : Type}.
Variable AtariTorso : ConvParams → images → option matrix.
Variable NormalTanhDistribution :
  nat → R → hk.Params ConvParams → matrix → option (@Distribution PRNGKey).
Implicit Types (P : hk.Params ConvParams) (cfg : Config).

Local Abbreviation networks_of cfg :=
  (make_networks AtariTorso NormalTanhDistribution cfg).

Lemma norm_stage_app cfg P (sa1 sa2 g1 g2 : matrix) :
  norm_stage cfg P (sa1 ++ sa2) (g1 ++ g2) =
    '(a1, b1) ← norm_stage cfg P sa1 g1;
    '(a2, b2) ← norm_stage cfg P sa2 g2;
    Some (a1 ++ a2, b1 ++ b2).
Proof.
  unfold norm_stage. destruct (repr_norm cfg); [|reflexivity].
  rewrite !normalize_app.
  destruct (repr_norm_temp cfg); [|reflexivity].
  destruct (hk.top_level P !! "repr_log_scale") as [ls|]; [|reflexivity].
  cbn [mbind option_bind]. by rewrite divide_scalar_app.
Qed.

Lemma repr_head_app cfg P n1 n2 (obs1 obs2 act1 act2 : matrix) :
  use_image_obs cfg = false → length obs1 = length act1 →
  repr_head AtariTorso cfg P n1 n2 (obs1 ++ obs2) (act1 ++ act2) None =
    '(sa1, g1, (s1, gl1)) ← repr_head AtariTorso cfg P n1 n2 obs1 act1 None;
    '(sa2, g2, (s2, gl2)) ← repr_head AtariTorso cfg P n1 n2 obs2 act2 None;
    Some (sa1 ++ sa2, g1 ++ g2, (s1 ++ s2, gl1 ++ gl2)).
Proof.
  intros Himg Hlen. unfold repr_head, hidden_stage. rewrite Himg.
  cbn [mbind option_bind]. unfold jnp.cols_to, jnp.cols_from.
  rewrite !map_app.
  rewrite concatenate_app by (by rewrite length_map).
  destruct (jnp.concatenate (map _ obs1) act1) as [z1|]; [|reflexivity].
  cbn [mbind option_bind].
  destruct (jnp.concatenate (map _ obs2) act2) as [z2|]; cbn [mbind option_bind].
  2:{ symmetry. apply bind_none. intros [[? ?] [? ?]]. reflexivity. }
  rewrite !MLP_call_app.
  destruct (hk.MLP_call P n1 _ _ _ z1) as [sa1|]; [|reflexivity].
  cbn [mbind option_bind].
  destruct (hk.MLP_call P n1 _ _ _ z2) as [sa2|]; cbn [mbind option_bind].
  2:{ symmetry. apply bind_none. intros [[? ?] [? ?]]. reflexivity. }
  destruct (hk.MLP_call P n2 _ _ _ (map _ obs1)) as [g1|]; [|reflexivity].
  cbn [mbind option_bind].
  destruct (hk.MLP_call P n2 _ _ _ (map _ obs2)) as [g2|]; cbn [mbind option_bind].
  2:{ symmetry. apply bind_none. intros [[? ?] [? ?]]. reflexivity. }
  rewrite norm_stage_app.
  destruct (norm_stage cfg P sa1 g1) as [[a1 b1]|]; [|reflexivity].
  cbn [mbind option_bind].
  destruct (norm_stage cfg P sa2 g2) as [[a2 b2]|]; reflexivity.
Qed.

(** Property X3.  Without image observations the representation
    function works row by row: on two batches put one after the other, the
    first with as many actions as observations, it returns, component by
    component, the results on each batch put one after the other, and it
    fails exactly when it fails on one of them. *)
Theorem repr_fn_batch cfg P (obs1 obs2 act1 act2 : matrix) :
  use_image_obs cfg = false → length obs1 = length act1 →
  repr_fn (make_networks AtariTorso NormalTanhDistribution cfg) P
    (obs1 ++ obs2) (act1 ++ act2) None =
    '(sa1, g1, (s1, gl1)) ← repr_fn (networks_of cfg) P obs1 act1 None;
    '(sa2, g2, (s2, gl2)) ← repr_fn (networks_of cfg) P obs2 act2 None;
    Some (sa1 ++ sa2, g1 ++ g2, (s1 ++ s2, gl1 ++ gl2)).
Proof. intros. rewrite !repr_fn_bundle. by apply repr_head_app. Qed.
End Batches.

(** ** Shapes, segments and missing parameters *)

Lemma split_concatenate (d : nat) (x : matrix) :
  jnp.concatenate (jnp.cols_to d x) (jnp.cols_from d x) = Some x.
Proof.
  unfold jnp.concatenate, jnp.cols_to, jnp.cols_from.
  rewrite !length_map, Nat.eqb_refl. f_equal.
  induction x as [|r x IH]; [reflexivity|]. cbn [map zip_with].
  by rewrite take_drop, IH.
Qed.

Lemma encoder_sizes_cons cfg : ∃ size rest, encoder_sizes cfg = size :: rest.
Proof.
  unfold encoder_sizes. destruct (hidden_layer_sizes cfg); cbn; eauto.
Qed.

Section Edges.
Context {ConvParams PRNGKey : Type}.
Variable AtariTorso : ConvParams → images → option matrix.
Variable NormalTanhDistribution :
  nat → R → hk.Params ConvParams → matrix → option (@Distribution PRNGKey).
Implicit Types (P : hk.Params ConvParams) (cfg : Config).

Local Abbreviation networks_of cfg :=
  (make_networks AtariTorso NormalTanhDistribution cfg).

Lemma encoder_missing cfg P name (x : matrix) :
  hk.linear_params P !! hk.linear_name name 0 = None →
  hk.MLP_call P name false 0 (encoder_sizes cfg) x = None.
Proof.
  intros H. destruct (encoder_sizes_cons cfg) as (size & rest & ->).
  by apply MLP_call_missing.
Qed.

(** Property X1.  Without image observations, the representation function
    called without [hidden] fails when the numbers of observations and
    actions differ.  When it returns, the third component is the pair of the
    two segments of the observations, and both embeddings have one row of
    [repr_dim] entries per observation, whatever the parameters. *)
Theorem repr_fn_shape cfg P (obs action : matrix) :
  use_image_obs cfg = false →
  (length action ≠ length obs →
   repr_fn (networks_of cfg) P obs action None = None)
  ∧ ∀ sa g h,
      repr_fn (networks_of cfg) P obs action None = Some (sa, g, h) →
      h = (jnp.cols_to (obs_dim cfg) obs, jnp.cols_from (obs_dim cfg) obs)
      ∧ is_matrix (length obs) (repr_dim cfg) sa
      ∧ is_matrix (length obs) (repr_dim cfg) g.
Proof.
  intros Himg. rewrite !repr_fn_bundle.
  assert (∀ sa g h,
    repr_head AtariTorso cfg P "sa_encoder" "g_encoder" obs action None
      = Some (sa, g, h) →
    length action = length obs
    ∧ h = (jnp.cols_to (obs_dim cfg) obs, jnp.cols_from (obs_dim cfg) obs)
    ∧ is_matrix (length obs) (repr_dim cfg) sa
    ∧ is_matrix (length obs) (repr_dim cfg) g) as Hall.
  { intros sa g [state goal] H.
    pose proof (repr_head_hidden _ _ _ _ _ _ _ _ _ _ _ H) as Hh.
    unfold hidden_stage in Hh. rewrite Himg in Hh. injection Hh as <- <-.
    apply repr_head_shape in H as (Hlen & Hsa & Hg).
    unfold jnp.cols_to, jnp.cols_from in Hlen, Hsa, Hg.
    rewrite length_map in *. done. }
  split.
  - intros Hne.
    destruct (repr_head _ _ _ _ _ _ _ _) as [[[sa g] h]|] eqn:E; [|done].
    destruct (Hall _ _ _ eq_refl) as [? _]. done.
  - intros sa g h H. destruct (Hall _ _ _ H) as (_ & ? & ? & ?). done.
Qed.

(** Property X2.  Without image observations, the (state, goal)
    pair returned by the representation function concatenates back to the
    observations: no entry of an observation is dropped or read twice. *)
Theorem split_round_trip cfg P (obs action : matrix) sa g state goal :
  use_image_obs cfg = false →
  repr_fn (networks_of cfg) P obs action None = Some (sa, g, (state, goal)) →
  jnp.concatenate state goal = Some obs.
Proof.
  intros Himg. rewrite repr_fn_bundle. intros H.
  apply repr_head_hidden in H. unfold hidden_stage in H. rewrite Himg in H.
  injection H as <- <-. apply split_concatenate.
Qed.

(** Property X6.  With [repr_norm] off, the flag
    [repr_norm_temp] and the top-level parameters ([repr_log_scale]) have no
    effect on the representation function. *)
Theorem repr_norm_off_ignores_temperature cfg P P' (obs action : matrix) hidden
    (temp : bool) :
  repr_norm cfg = false →
  hk.linear_params P = hk.linear_params P' →
  hk.conv_params P = hk.conv_params P' →
  repr_fn (networks_of (with_repr_norm_temp temp cfg)) P obs action hidden
  = repr_fn (networks_of cfg) P' obs action hidden.
Proof.
  intros Hn Hl Hc. rewrite !repr_fn_bundle.
  unfold repr_head, hidden_stage, norm_stage, encoder_sizes, _unflatten_obs.
  cbn [with_repr_norm_temp use_image_obs obs_dim hidden_layer_sizes repr_dim
       repr_norm]. rewrite Hn, Hc.
  destruct (match hidden with Some h => Some h | None => _ end) as [[state goal]|];
    [|reflexivity].
  cbn [mbind option_bind].
  destruct (jnp.concatenate state action) as [z|]; [|reflexivity].
  cbn [mbind option_bind].
  rewrite (MLP_call_ext P P' "sa_encoder") by (intros; by rewrite Hl).
  rewrite (MLP_call_ext P P' "g_encoder") by (intros; by rewrite Hl).
  reflexivity.
Qed.

(** Property X9.  With [repr_norm] and [repr_norm_temp]
    set, the representation function and the critic fail when the
    parameters hold no [repr_log_scale]. *)
Theorem missing_log_scale_fails cfg P (obs action : matrix) hidden :
  repr_norm cfg = true → repr_norm_temp cfg = true →
  hk.top_level P !! "repr_log_scale" = None →
  repr_fn (make_networks AtariTorso NormalTanhDistribution cfg) P
    obs action hidden = None
  ∧ apply (q_network (make_networks AtariTorso NormalTanhDistribution cfg)) P
      obs action = None.
Proof.
  intros Hn Ht Hls.
  assert (∀ n1 n2 hidden,
            repr_head AtariTorso cfg P n1 n2 obs action hidden = None) as Hnone.
  { intros n1 n2 hid.
    destruct (repr_head _ _ _ _ _ _ _ _) as [[[sa g] h]|] eqn:E; [|done].
    apply repr_head_inv in E as (? & ? & ? & _ & _ & _ & _ & E).
    unfold norm_stage in E. rewrite Hn, Ht, Hls in E. done. }
  rewrite repr_fn_bundle, q_network_bundle. unfold critic_head.
  by rewrite !Hnone.
Qed.

(** Property X10.  When the parameters hold no first
    layer of [g_encoder], the goal function, the language network, the
    representation function and the critic all fail. *)
Theorem missing_goal_encoder_fails cfg P (obs action goal language : matrix) hidden :
  hk.linear_params P !! "g_encoder/~/linear_0" = None →
  goal_fn (make_networks AtariTorso NormalTanhDistribution cfg) P goal = None
  ∧ apply (l_network (make_networks AtariTorso NormalTanhDistribution cfg)) P
      goal language = None
  ∧ repr_fn (make_networks AtariTorso NormalTanhDistribution cfg) P
      obs action hidden = None
  ∧ apply (q_network (make_networks AtariTorso NormalTanhDistribution cfg)) P
      obs action = None.
Proof.
  intros Hmiss.
  assert (∀ x, hk.MLP_call P "g_encoder" false 0 (encoder_sizes cfg) x = None)
    as Hg by (intros x; apply encoder_missing; exact Hmiss).
  rewrite goal_fn_bundle, l_network_bundle, repr_fn_bundle, q_network_bundle.
  rewrite !Hg.
  assert (∀ hid, repr_head AtariTorso cfg P "sa_encoder" "g_encoder"
                   obs action hid = None) as Hnone.
  { intros hid.
    destruct (repr_head _ _ _ _ _ _ _ _) as [[[sa g] h]|] eqn:E; [|done].
    apply repr_head_inv in E as (? & ? & ? & _ & _ & _ & E & _).
    rewrite Hg in E. done. }
  unfold critic_head. rewrite !Hnone. done.
Qed.

(** Property X11.  With [twin_q] the critic fails when the
    parameters hold no first layer of [sa_encoder_1] or of [g_encoder_1]:
    the second head has parameters of its own. *)
Theorem twin_needs_second_head cfg P (obs action : matrix) :
  twin_q cfg = true →
  hk.linear_params P !! "sa_encoder_1/~/linear_0" = None
  ∨ hk.linear_params P !! "g_encoder_1/~/linear_0" = None →
  apply (q_network (make_networks AtariTorso NormalTanhDistribution cfg)) P
    obs action = None.
Proof.
  intros Htwin Hmiss. rewrite q_network_bundle. unfold critic_head.
  rewrite Htwin.
  destruct (repr_head _ _ _ "sa_encoder" _ _ _ _) as [[[sa g] h]|]; [|done].
  cbn [mbind option_bind].
  destruct (_combine_repr sa g) as [outer|]; [|done].
  cbn [mbind option_bind].
  destruct (repr_head _ _ _ "sa_encoder_1" _ _ _ _) as [[[sa2 g2] h2]|] eqn:E;
    [|done].
  apply repr_head_inv in E as (z & ? & ? & _ & _ & E1 & E2 & _).
  destruct Hmiss as [Hm|Hm].
  - rewrite (encoder_missing cfg P "sa_encoder_1" z Hm) in E1. done.
  - rewrite (encoder_missing cfg P "g_encoder_1" _ Hm) in E2. done.
Qed.

(** Property X5.  When [hidden] is given, the
    representation function reads neither the observation nor the
    parameters of the image torso: two calls with the same [hidden], the
    same action, the same [hk.Linear] parameters and the same top-level
    parameters return the same result. *)
Theorem hidden_skips_observation cfg P P' (obs obs' action : matrix)
    (h : matrix * matrix) :
  hk.linear_params P = hk.linear_params P' →
  hk.top_level P = hk.top_level P' →
  repr_fn (make_networks AtariTorso NormalTanhDistribution cfg) P
    obs action (Some h)
  = repr_fn (make_networks AtariTorso NormalTanhDistribution cfg) P'
      obs' action (Some h).
Proof.
  intros Hl Ht. rewrite !repr_fn_bundle.
  unfold repr_head, hidden_stage, norm_stage. destruct h as [state goal].
  cbn [mbind option_bind]. rewrite Ht.
  destruct (jnp.concatenate state action) as [z|]; [|reflexivity].
  cbn [mbind option_bind].
  rewrite (MLP_call_ext P P' "sa_encoder") by (intros; by rewrite Hl).
  rewrite (MLP_call_ext P P' "g_encoder") by (intros; by rewrite Hl).
  reflexivity.
Qed.

(** Property X4.  Without image observations, the
    goal embedding that the representation function returns is the output
    of the goal function on the goal segment of the observations
    (normalized when [repr_norm] is set): two calls whose observations have
    the same goal segments return the same goal embedding, whatever their
    state segments and actions. *)
Theorem goal_embedding_from_goal_segment cfg P (obs action : matrix) sa g h :
  use_image_obs cfg = false →
  repr_fn (networks_of cfg) P obs action None = Some (sa, g, h) →
  ∃ g_raw,
    goal_fn (networks_of cfg) P (jnp.cols_from (obs_dim cfg) obs) = Some g_raw
    ∧ g = (if repr_norm cfg
           then jnp.divide_rows g_raw (jnp.linalg_norm g_raw) else g_raw)
    ∧ ∀ obs' action' sa' g' h',
        jnp.cols_from (obs_dim cfg) obs' = jnp.cols_from (obs_dim cfg) obs →
        repr_fn (networks_of cfg) P obs' action' None = Some (sa', g', h') →
        g' = g.
Proof.
  intros Himg. rewrite repr_fn_bundle, goal_fn_bundle. intros H.
  assert (∀ obs0 action0 sa0 g0 h0,
    repr_head AtariTorso cfg P "sa_encoder" "g_encoder" obs0 action0 None
      = Some (sa0, g0, h0) →
    ∃ g_raw,
      hk.MLP_call P "g_encoder" false 0 (encoder_sizes cfg)
        (jnp.cols_from (obs_dim cfg) obs0) = Some g_raw
      ∧ g0 = (if repr_norm cfg
              then jnp.divide_rows g_raw (jnp.linalg_norm g_raw) else g_raw))
    as Hall.
  { intros obs0 action0 sa0 g0 h0 H0.
    apply repr_head_inv in H0 as (z & s0 & gr & Hh & _ & _ & Hg & Hn).
    unfold hidden_stage in Hh. rewrite Himg in Hh. injection Hh as <-.
    cbn [snd] in Hg. exists gr. split; [exact Hg|].
    unfold norm_stage in Hn. destruct (repr_norm cfg); [|congruence].
    destruct (repr_norm_temp cfg); [|congruence].
    destruct (hk.top_level P !! "repr_log_scale"); [|done].
    cbn [mbind option_bind] in Hn. congruence. }
  destruct (Hall _ _ _ _ _ H) as (g_raw & Hg & ->).
  exists g_raw. split; [exact Hg|]. split; [reflexivity|].
  intros obs' action' sa' g' h' Heq H'. rewrite repr_fn_bundle in H'.
  destruct (Hall _ _ _ _ _ H') as (g_raw' & Hg' & ->).
  rewrite Heq, Hg in Hg'. by injection Hg' as <-.
Qed.
End Edges.


(** ** The entries of the critic, pair by pair *)

Lemma app_cons_middle {A} (l : list A) (i : nat) (x : A) :
  l !! i = Some x → l = take i l ++ [x] ++ drop (S i) l.
Proof. intros H. by rewrite <- (take_drop_middle l i x H) at 1. Qed.

Section Pairs.
Context {ConvParams PRNGKey : Type}.
Variable AtariTorso : ConvParams → images → option matrix.
Variable NormalTanhDistribution :
  nat → R → hk.Params ConvParams → matrix → option (@Distribution PRNGKey).
Implicit Types (P : hk.Params ConvParams) (cfg : Config).

Local Abbreviation networks_of cfg :=
  (make_networks AtariTorso NormalTanhDistribution cfg).

(** Row [i] of a batch, on its own. *)
Lemma repr_head_row cfg P n1 n2 (obs action : matrix) sa g h i r a :
  use_image_obs cfg = false →
  repr_head AtariTorso cfg P n1 n2 obs action None = Some (sa, g, h) →
  obs !! i = Some r → action !! i = Some a →
  ∃ x y, sa !! i = Some x ∧ g !! i = Some y
    ∧ repr_head AtariTorso cfg P n1 n2 [r] [a] None
      = Some ([x], [y], ([take (obs_dim cfg) r], [drop (obs_dim cfg) r])).
Proof.
  intros Himg H Hr Ha.
  rewrite (app_cons_middle obs i r Hr), (app_cons_middle action i a Ha) in H.
  assert (length (take i obs) = length (take i action)) as Hlen.
  { rewrite !length_take. apply lookup_lt_Some in Hr, Ha.
    lia. }
  rewrite (repr_head_app AtariTorso cfg P n1 n2 _ _ _ _ Himg Hlen) in H.
  destruct (repr_head _ _ _ _ _ (take i obs) _ _) as [[[sa1 g1] [s1 gl1]]|] eqn:E1;
    [|done].
  cbn [mbind option_bind] in H.
  rewrite (repr_head_app AtariTorso cfg P n1 n2 [r] _ [a] _ Himg eq_refl) in H.
  destruct (repr_head _ _ _ _ _ [r] [a] _) as [[[sa2 g2] [s2 gl2]]|] eqn:E2;
    [|done].
  cbn [mbind option_bind] in H.
  destruct (repr_head _ _ _ _ _ (drop (S i) obs) _ _) as [[[sa3 g3] [s3 gl3]]|];
    [|done].
  cbn [mbind option_bind] in H. injection H as <- <- <-.
  pose proof (repr_head_hidden _ _ _ _ _ _ _ _ _ _ _ E2) as Hh2.
  unfold hidden_stage in Hh2. rewrite Himg in Hh2. cbn in Hh2.
  injection Hh2 as <- <-.
  pose proof (repr_head_shape _ _ _ _ _ _ _ _ _ _ _ _ E1) as (_ & [Hs1 _] & [Hg1 _]).
  pose proof (repr_head_hidden _ _ _ _ _ _ _ _ _ _ _ E1) as Hh1.
  unfold hidden_stage in Hh1. rewrite Himg in Hh1. injection Hh1 as <- <-.
  unfold jnp.cols_to, jnp.cols_from in Hs1, Hg1. rewrite length_map in Hs1, Hg1.
  pose proof (repr_head_shape _ _ _ _ _ _ _ _ _ _ _ _ E2) as (_ & [Hs2 _] & [Hg2 _]).
  cbn in Hs2, Hg2.
  destruct sa2 as [|x [|]]; try done. destruct g2 as [|y [|]]; try done.
  assert (length (take i obs) = i) as Hi.
  { rewrite length_take. apply lookup_lt_Some in Hr. lia. }
  exists x, y. split; [|split; [|reflexivity]].
  - rewrite lookup_app_r by lia. rewrite Hs1, Hi, Nat.sub_diag. reflexivity.
  - rewrite lookup_app_r by lia. rewrite Hg1, Hi, Nat.sub_diag. reflexivity.
Qed.

Lemma norm_stage_mix cfg P (sa1 g1 sa1' g1' sa2 g2 sa2' g2' : matrix) :
  norm_stage cfg P sa1 g1 = Some (sa1', g1') →
  norm_stage cfg P sa2 g2 = Some (sa2', g2') →
  norm_stage cfg P sa1 g2 = Some (sa1', g2').
Proof.
  unfold norm_stage. destruct (repr_norm cfg); [|congruence].
  destruct (repr_norm_temp cfg); [|congruence].
  destruct (hk.top_level P !! "repr_log_scale"); [|done].
  cbn [mbind option_bind]. congruence.
Qed.

(** The state-action embedding of one row and the goal embedding of another,
    from the observation made of the state of the first and the goal of the
    second. *)
Lemma repr_head_mix cfg P n1 n2 (r1 r2 a1 a2 : vector) x1 y1 h1 x2 y2 h2 :
  use_image_obs cfg = false → obs_dim cfg ≤ length r1 →
  repr_head AtariTorso cfg P n1 n2 [r1] [a1] None = Some (x1, y1, h1) →
  repr_head AtariTorso cfg P n1 n2 [r2] [a2] None = Some (x2, y2, h2) →
  repr_head AtariTorso cfg P n1 n2
    [take (obs_dim cfg) r1 ++ drop (obs_dim cfg) r2] [a1] None
  = Some (x1, y2, ([take (obs_dim cfg) r1], [drop (obs_dim cfg) r2])).
Proof.
  intros Himg Hd H1 H2.
  apply repr_head_inv in H1 as (z1 & s1 & g1 & Hh1 & Hc1 & Hs1 & _ & Hn1).
  apply repr_head_inv in H2 as (z2 & s2 & g2 & Hh2 & _ & _ & Hg2 & Hn2).
  unfold hidden_stage in Hh1, Hh2. rewrite Himg in Hh1, Hh2.
  injection Hh1 as <-. injection Hh2 as <-. cbn [fst snd] in *.
  assert (length (take (obs_dim cfg) r1) = obs_dim cfg) as Hl
    by (rewrite length_take; lia).
  eapply repr_head_intro.
  - unfold hidden_stage. rewrite Himg. cbn [jnp.cols_to jnp.cols_from map].
    rewrite take_app_length', drop_app_length' by (symmetry; exact Hl). reflexivity.
  - exact Hc1.
  - exact Hs1.
  - exact Hg2.
  - eapply norm_stage_mix; eassumption.
Qed.

(** Property X13.  Without image observations and
    [twin_q], entry [(i, j)] of the critic's matrix is the value the critic
    gives, on a batch of one, to the observation made of the state segment
    of observation [i] and the goal segment of observation [j], with action
    [i]. *)
Theorem critic_entry_is_pair_score cfg P (obs action : matrix) outer
    (i j : nat) (r_i r_j a_i : vector) :
  use_image_obs cfg = false → twin_q cfg = false →
  apply (q_network (networks_of cfg)) P obs action = Some (Outer outer) →
  obs !! i = Some r_i → obs !! j = Some r_j → action !! i = Some a_i →
  obs_dim cfg ≤ length r_i →
  ∃ v, entry outer i j = Some v
    ∧ apply (q_network (networks_of cfg)) P
        [take (obs_dim cfg) r_i ++ drop (obs_dim cfg) r_j] [a_i]
      = Some (Outer [[v]]).
Proof.
  intros Himg Htwin H Hri Hrj Hai Hd.
  rewrite !q_network_bundle in *. unfold critic_head in *. rewrite Htwin in *.
  destruct (repr_head _ _ _ _ _ obs _ _) as [[[sa g] h]|] eqn:E; [|done].
  cbn [mbind option_bind] in H.
  destruct (_combine_repr sa g) as [outer'|] eqn:Ec; [|done].
  cbn in H. injection H as ->.
  pose proof (repr_head_shape _ _ _ _ _ _ _ _ _ _ (fst h) (snd h)
                ltac:(destruct h; exact E)) as (Hlen & Hsa & Hg).
  assert (∃ a_j, action !! j = Some a_j) as [a_j Haj].
  { apply lookup_lt_is_Some. apply lookup_lt_Some in Hrj.
    pose proof (repr_head_hidden _ _ _ _ _ _ _ _ _ _ _ E) as Hh.
    unfold hidden_stage in Hh. rewrite Himg in Hh. injection Hh as <-.
    cbn [fst] in Hlen. unfold jnp.cols_to in Hlen. rewrite length_map in Hlen.
    lia. }
  destruct (repr_head_row cfg P _ _ _ _ _ _ _ i r_i a_i Himg E Hri Hai)
    as (x & y0 & Hx & _ & Ei).
  destruct (repr_head_row cfg P _ _ _ _ _ _ _ j r_j a_j Himg E Hrj Haj)
    as (x0 & y & _ & Hy & Ej).
  rewrite (repr_head_mix cfg P _ _ _ _ _ _ _ _ _ _ _ _ Himg Hd Ei Ej).
  cbn [mbind option_bind].
  unfold _combine_repr in Ec.
  rewrite (einsum_matrix _ _ _ sa g Hsa Hg) in Ec. injection Ec as <-.
  exists (jnp.dot x y). split; [by apply entry_einsum|].
  assert (length x = length y) as Hxy.
  { destruct Hsa as [_ Hsa], Hg as [_ Hg].
    rewrite Forall_lookup in Hsa, Hg.
    rewrite (Hsa _ _ Hx), (Hg _ _ Hy). reflexivity. }
  unfold _combine_repr, jnp.einsum_ik_jk. cbn [mapM].
  rewrite (contract_same_length x y Hxy). reflexivity.
Qed.
End Pairs.

(** ** The parameters each network reads *)

Ltac linear_name_ne :=
  unfold hk.linear_name; cbn [String.app String.append]; discriminate.


Lemma zip_pair_lookup_second (a b : vector) (j : nat) :
  length a = length b →
  b !! j = e ← zip_with (λ u v, [u; v]) a b !! j; e !! 1.
Proof.
  revert b j. induction a as [|u a IH]; intros [|v b] [|j] Hab; try done.
  cbn. apply IH. cbn in Hab. lia.
Qed.

Lemma entry_stack_second (x y : matrix) (i j : nat) :
  Forall2 (λ a b, length a = length b) x y →
  entry y i j = e ← entry (zip_with (zip_with (λ u v, [u; v])) x y) i j; e !! 1.
Proof.
  intros HF. revert i. unfold entry.
  induction HF as [|a b x y Hab _ IH]; intros [|i].
  - reflexivity.
  - reflexivity.
  - cbn. by apply zip_pair_lookup_second.
  - cbn. apply IH.
Qed.

Section Independence.
Context {ConvParams PRNGKey : Type}.
Variable AtariTorso : ConvParams → images → option matrix.
Variable NormalTanhDistribution :
  nat → R → hk.Params ConvParams → matrix → option (@Distribution PRNGKey).
Implicit Types (P : hk.Params ConvParams) (cfg : Config).

Local Abbreviation networks_of cfg :=
  (make_networks AtariTorso NormalTanhDistribution cfg).

(** [repr_head] reads the [hk.Linear] parameters of its two encoders, the
    parameters outside modules and those of the torso. *)
Lemma repr_head_ext cfg P P' n1 n2 obs action hidden :
  (∀ j, hk.linear_params P !! hk.linear_name n1 j
        = hk.linear_params P' !! hk.linear_name n1 j) →
  (∀ j, hk.linear_params P !! hk.linear_name n2 j
        = hk.linear_params P' !! hk.linear_name n2 j) →
  hk.top_level P = hk.top_level P' → hk.conv_params P = hk.conv_params P' →
  repr_head AtariTorso cfg P n1 n2 obs action hidden
  = repr_head AtariTorso cfg P' n1 n2 obs action hidden.
Proof.
  intros H1 H2 Ht Hc. unfold repr_head, hidden_stage, norm_stage.
  rewrite Ht, Hc.
  destruct (match hidden with Some h => Some h | None => _ end) as [[state goal]|];
    [|reflexivity].
  cbn [mbind option_bind].
  destruct (jnp.concatenate state action) as [z|]; [|reflexivity].
  cbn [mbind option_bind].
  rewrite (MLP_call_ext P P' n1) by exact H1.
  rewrite (MLP_call_ext P P' n2) by exact H2.
  reflexivity.
Qed.

Lemma critic_twin_inv cfg P (obs action : matrix) outer :
  twin_q cfg = true →
  critic_head AtariTorso cfg P obs action = Some (OuterTwin outer) →
  ∃ sa g h sa2 g2 h2 o1 o2,
    repr_head AtariTorso cfg P "sa_encoder" "g_encoder" obs action None
      = Some (sa, g, h)
    ∧ _combine_repr sa g = Some o1
    ∧ repr_head AtariTorso cfg P "sa_encoder_1" "g_encoder_1" obs action (Some h)
      = Some (sa2, g2, h2)
    ∧ _combine_repr sa2 g2 = Some o2
    ∧ Forall2 (λ a b, length a = length b) o1 o2
    ∧ outer = zip_with (zip_with (λ u v, [u; v])) o1 o2.
Proof.
  intros Htwin. unfold critic_head. rewrite Htwin. intros H.
  destruct (repr_head _ _ _ "sa_encoder" _ _ _ _) as [[[sa g] h]|] eqn:E1; [|done].
  cbn [mbind option_bind] in H.
  destruct (_combine_repr sa g) as [o1|] eqn:C1; [|done].
  cbn [mbind option_bind] in H.
  destruct (repr_head _ _ _ "sa_encoder_1" _ _ _ _) as [[[sa2 g2] h2]|] eqn:E2;
    [|done].
  cbn [mbind option_bind] in H.
  destruct (_combine_repr sa2 g2) as [o2|] eqn:C2; [|done].
  cbn [mbind option_bind] in H.
  destruct (jnp.stack o1 o2) as [t|] eqn:Es; [|done].
  cbn in H. injection H as <-. apply stack_inv in Es as [HF ->].
  exists sa, g, h, sa2, g2, h2, o1, o2.
  split; [reflexivity|]. split; [exact C1|]. split; [exact E2|].
  split; [exact C2|]. split; [exact HF|reflexivity].
Qed.

(** Property X7.  The representation function reads
    the [hk.Linear] parameters of [sa_encoder] and [g_encoder] only:
    replacing a layer of the second critic head, of the language encoder or
    of the policy does not change its result. *)
Theorem repr_fn_ignores_other_encoders cfg P (name : string) (i : nat)
    (p : hk.LinearParams) (obs action : matrix) hidden :
  name ∈ ["sa_encoder_1"; "g_encoder_1"; "l_encoder"; "mlp"] →
  repr_fn (networks_of cfg) (update_linear (hk.linear_name name i) p P)
    obs action hidden
  = repr_fn (networks_of cfg) P obs action hidden.
Proof.
  intros Hname. rewrite !repr_fn_bundle.
  apply repr_head_ext; try reflexivity; intros j; cbn [update_linear hk.linear_params];
    apply lookup_insert_ne;
    repeat (apply elem_of_cons in Hname as [->|Hname]; [linear_name_ne|]);
    by apply elem_of_nil in Hname.
Qed.

(** Property X16.  The two heads of the twin critic have
    separate parameters: replacing a layer of [sa_encoder_1] or
    [g_encoder_1] leaves the first component of every entry unchanged, and
    replacing a layer of [sa_encoder] or [g_encoder] leaves the second
    component unchanged. *)
Theorem twin_heads_independent cfg P (name : string) (i : nat)
    (p : hk.LinearParams) (obs action : matrix) outer outer' :
  twin_q cfg = true →
  apply (q_network (networks_of cfg)) P obs action = Some (OuterTwin outer) →
  apply (q_network (networks_of cfg))
    (update_linear (hk.linear_name name i) p P) obs action
    = Some (OuterTwin outer') →
  (name ∈ ["sa_encoder_1"; "g_encoder_1"] →
   ∀ a b, (e ← entry outer' a b; head e) = (e ← entry outer a b; head e))
  ∧ (name ∈ ["sa_encoder"; "g_encoder"] →
     ∀ a b, (e ← entry outer' a b; e !! 1) = (e ← entry outer a b; e !! 1)).
Proof.
  intros Htwin. rewrite !q_network_bundle. intros H H'.
  apply (critic_twin_inv cfg P _ _ _ Htwin) in H
    as (sa & g & h & sa2 & g2 & h2 & o1 & o2 & E1 & C1 & E2 & C2 & HF & ->).
  apply (critic_twin_inv cfg _ _ _ _ Htwin) in H'
    as (sa' & g' & h' & sa2' & g2' & h2' & o1' & o2' & E1' & C1' & E2' & C2'
        & HF' & ->).
  assert (h' = h) as ->.
  { apply repr_head_hidden in E1, E1'. cbn in E1, E1'. congruence. }
  split; intros Hname a b.
  - rewrite <- !entry_stack_head by assumption.
    rewrite (repr_head_ext cfg _ P "sa_encoder" "g_encoder") in E1'.
    + congruence.
    + intros j. cbn [update_linear hk.linear_params]. apply lookup_insert_ne.
      repeat (apply elem_of_cons in Hname as [->|Hname]; [linear_name_ne|]).
      by apply elem_of_nil in Hname.
    + intros j. cbn [update_linear hk.linear_params]. apply lookup_insert_ne.
      repeat (apply elem_of_cons in Hname as [->|Hname]; [linear_name_ne|]).
      by apply elem_of_nil in Hname.
    + reflexivity.
    + reflexivity.
  - rewrite <- !entry_stack_second by assumption.
    rewrite (repr_head_ext cfg _ P "sa_encoder_1" "g_encoder_1") in E2'.
    + congruence.
    + intros j. cbn [update_linear hk.linear_params]. apply lookup_insert_ne.
      repeat (apply elem_of_cons in Hname as [->|Hname]; [linear_name_ne|]).
      by apply elem_of_nil in Hname.
    + intros j. cbn [update_linear hk.linear_params]. apply lookup_insert_ne.
      repeat (apply elem_of_cons in Hname as [->|Hname]; [linear_name_ne|]).
      by apply elem_of_nil in Hname.
    + reflexivity.
    + reflexivity.
Qed.
End Independence.


(** ** Joining images along the channel axis *)

Lemma concatenate_rows_shape (w c c' : nat) (x y : list (list R)) :
  length x = w → Forall (λ px, length px = c) x →
  length y = w → Forall (λ px, length px = c') y →
  jnp.concatenate_rows x y = Some (zip_with app x y)
  ∧ length (zip_with app x y) = w
  ∧ Forall (λ px, length px = c + c') (zip_with app x y).
Proof.
  intros Hx Fx Hy Fy. unfold jnp.concatenate_rows.
  rewrite Hx, Hy, Nat.eqb_refl. split; [reflexivity|].
  split; [rewrite length_zip_with; lia|].
  clear Hx Hy. revert y Fy.
  induction Fx as [|a x Ha _ IH]; intros y Fy; [constructor|].
  destruct Fy as [|b y Hb Fy]; [constructor|]. cbn [zip_with].
  constructor; [rewrite length_app; lia|]. by apply IH.
Qed.

Lemma mapM_zip_total {A B C} (f : A * B → option C) (g : A → B → C)
    (Q : A → Prop) (Q' : B → Prop) (x : list A) (y : list B) :
  (∀ a b, Q a → Q' b → f (a, b) = Some (g a b)) →
  Forall Q x → Forall Q' y →
  mapM f (zip x y) = Some (zip_with g x y).
Proof.
  intros Hf Fx. revert y.
  induction Fx as [|a x Ha _ IH]; intros y Fy; [reflexivity|].
  destruct Fy as [|b y Hb Fy]; [reflexivity|].
  cbn [zip zip_with mapM]. rewrite (Hf a b Ha Hb). cbn [mbind option_bind].
  change (zip_with pair x y) with (zip x y).
  rewrite (IH y Fy). reflexivity.
Qed.

Lemma Forall_zip_with {A B C} (g : A → B → C) (Q : A → Prop) (Q' : B → Prop)
    (R' : C → Prop) (x : list A) (y : list B) :
  (∀ a b, Q a → Q' b → R' (g a b)) →
  Forall Q x → Forall Q' y → Forall R' (zip_with g x y).
Proof.
  intros Hg Fx. revert y.
  induction Fx as [|a x Ha _ IH]; intros y Fy; [constructor|].
  destruct Fy as [|b y Hb Fy]; [constructor|]. cbn [zip_with].
  constructor; [by apply Hg|by apply IH].
Qed.


Lemma concatenate_image_shape (h w c c' : nat) (x y : image) :
  image_ok h w c x → image_ok h w c' y →
  jnp.concatenate_image x y = Some (zip_with (zip_with app) x y)
  ∧ image_ok h w (c + c') (zip_with (zip_with app) x y).
Proof.
  intros [Hx Fx] [Hy Fy]. unfold jnp.concatenate_image.
  rewrite Hx, Hy, Nat.eqb_refl. split.
  - apply (mapM_zip_total _ _ (row_ok w c) (row_ok w c')); [|done..].
    intros a b [Ha Fa] [Hb Fb]. cbn [fst snd].
    by destruct (concatenate_rows_shape w c c' a b Ha Fa Hb Fb) as [-> _].
  - split; [rewrite length_zip_with; lia|].
    apply (Forall_zip_with _ (row_ok w c) (row_ok w c')); [|done..].
    intros a b [Ha Fa] [Hb Fb].
    by destruct (concatenate_rows_shape w c c' a b Ha Fa Hb Fb) as (_ & ? & ?).
Qed.

Lemma concatenate_images_shape (n h w c c' : nat) (x y : images) :
  is_images n h w c x → is_images n h w c' y →
  jnp.concatenate_images x y = Some (zip_with (zip_with (zip_with app)) x y)
  ∧ is_images n h w (c + c') (zip_with (zip_with (zip_with app)) x y).
Proof.
  intros [Hx Fx] [Hy Fy]. unfold jnp.concatenate_images.
  rewrite Hx, Hy, Nat.eqb_refl. split.
  - apply (mapM_zip_total _ _ (image_ok h w c) (image_ok h w c')); [|done..].
    intros a b Ha Hb. cbn [fst snd].
    by destruct (concatenate_image_shape h w c c' a b Ha Hb) as [-> _].
  - split; [rewrite length_zip_with; lia|].
    apply (Forall_zip_with _ (image_ok h w c) (image_ok h w c')); [|done..].
    intros a b Ha Hb.
    by destruct (concatenate_image_shape h w c c' a b Ha Hb) as [_ ?].
Qed.

(** ** The policy *)

Section Actor.
Context {ConvParams PRNGKey : Type}.
Variable AtariTorso : ConvParams → images → option matrix.
Variable NormalTanhDistribution :
  nat → R → hk.Params ConvParams → matrix → option (@Distribution PRNGKey).
Local Abbreviation networks_of cfg :=
  (make_networks AtariTorso NormalTanhDistribution cfg).

Lemma actor_fn_transform cfg P (obs : matrix) :
  apply (policy_network (networks_of cfg)) P obs =
    x ← actor_input AtariTorso cfg P obs;
    features ← hk.MLP_call P "mlp" true 0 (hidden_layer_sizes cfg) x;
    NormalTanhDistribution (num_dimensions cfg) (actor_min_std cfg) P features.
Proof.
  cbn [apply policy_network make_networks].
  unfold hk.transform, _actor_fn, actor_input. hk_unfold.
  destruct (use_image_obs cfg).
  - destruct (_unflatten_obs cfg obs) as [[state goal]|]; [|reflexivity].
    destruct (jnp.concatenate_images state goal) as [x|]; [|reflexivity].
    destruct (AtariTorso (hk.conv_params P) x) as [f|]; [|reflexivity].
    rewrite name_for_empty.
    destruct (hk.MLP_call P "mlp" true 0 (hidden_layer_sizes cfg) f) as [y|];
      [|reflexivity].
    destruct (NormalTanhDistribution _ _ P y); reflexivity.
  - rewrite name_for_empty.
    destruct (hk.MLP_call P "mlp" true 0 (hidden_layer_sizes cfg) obs) as [y|];
      [|reflexivity].
    destruct (NormalTanhDistribution _ _ P y); reflexivity.
Qed.

Lemma MLP_call_width (P : hk.Params ConvParams) name af sizes : ∀ i x y d,
  hk.MLP_call P name af i sizes x = Some y → last sizes = Some d →
  Forall (λ r, length r = d) y.
Proof.
  intros i x y d H Hl.
  by destruct (MLP_call_shape P name af sizes i x y d H Hl) as [_ ?].
Qed.

(** Property X18.  With at least one hidden layer,
    the distribution head of the policy is applied to the output of the MLP
    called [mlp], which ends with the activation: it has one row per input
    row, as many columns as the last hidden layer, and no negative
    entry. *)
Theorem policy_head_sees_relu_features cfg P (obs : matrix) d width :
  last (hidden_layer_sizes cfg) = Some width →
  apply (policy_network (networks_of cfg)) P obs = Some d →
  ∃ x features,
    actor_input AtariTorso cfg P obs = Some x
    ∧ hk.MLP_call P "mlp" true 0 (hidden_layer_sizes cfg) x = Some features
    ∧ NormalTanhDistribution (num_dimensions cfg) (actor_min_std cfg) P features
      = Some d
    ∧ is_matrix (length x) width features
    ∧ Forall (Forall (λ v, 0 <= v)%R) features.
Proof.
  intros Hw H. rewrite actor_fn_transform in H.
  destruct (actor_input AtariTorso cfg P obs) as [x|]; [|done].
  cbn [mbind option_bind] in H.
  destruct (hk.MLP_call P "mlp" true 0 (hidden_layer_sizes cfg) x)
    as [features|] eqn:Ef; [|done].
  cbn [mbind option_bind] in H.
  exists x, features. split; [done|]. split; [done|]. split; [done|].
  split.
  - split; [by eapply MLP_call_length|by eapply MLP_call_width].
  - assert (hidden_layer_sizes cfg ≠ []) as Hne by (intros E; by rewrite E in Hw).
    destruct (MLP_call_final_relu P "mlp" _ 0 x features Hne Ef) as [z ->].
    apply relu_nonneg.
Qed.

(** Without hidden layers the observation itself reaches the head. *)
(** Property X19.  With no hidden layer and without
    image observations, the distribution head of the policy is applied to
    the observations themselves. *)
Theorem policy_without_hidden_layers cfg P (obs : matrix) :
  hidden_layer_sizes cfg = [] → use_image_obs cfg = false →
  apply (policy_network (networks_of cfg)) P obs
  = NormalTanhDistribution (num_dimensions cfg) (actor_min_std cfg) P obs.
Proof.
  intros Hh Hi. rewrite actor_fn_transform. unfold actor_input.
  rewrite Hh, Hi. reflexivity.
Qed.


Lemma unflatten_obs_inv cfg (n w : nat) (obs : matrix) state goal :
  is_matrix n w obs → _unflatten_obs cfg obs = Some (state, goal) →
  (n * (obs_dim cfg `min` w)) `mod` (64 * 64 * 3) = 0
  ∧ (n * (w - obs_dim cfg)) `mod` (64 * 64 * 3) = 0
  ∧ is_images ((n * (obs_dim cfg `min` w)) `div` (64 * 64 * 3)) 64 64 3 state
  ∧ is_images ((n * (w - obs_dim cfg)) `div` (64 * 64 * 3)) 64 64 3 goal.
Proof.
  intros Hobs H.
  pose proof (cols_to_matrix n w (obs_dim cfg) obs Hobs) as Hs.
  pose proof (cols_from_matrix n w (obs_dim cfg) obs Hobs) as Hg.
  destruct (reshape_images_spec 64 64 3 n _ _ Hs) as (HsN & HsS & _).
  destruct (reshape_images_spec 64 64 3 n _ _ Hg) as (HgN & HgS & _).
  unfold _unflatten_obs in H.
  destruct (jnp.reshape_images 64 64 3 (jnp.cols_to _ obs)) as [state0|] eqn:Es;
    [|done]. cbn [mbind option_bind] in H.
  destruct (jnp.reshape_images 64 64 3 (jnp.cols_from _ obs)) as [goal0|] eqn:Eg;
    [|done]. cbn [mbind option_bind] in H. injection H as <- <-.
  destruct (HsS _ eq_refl) as [Hs1 _]. destruct (HgS _ eq_refl) as [Hg1 _].
  split; [|split; [|split; by apply is_images_divide]].
  - destruct (decide ((n * (obs_dim cfg `min` w)) `mod` (64 * 64 * 3) = 0))
      as [|Hne]; [done|].
    assert (Some state0 = None) by (apply HsN; auto). done.
  - destruct (decide ((n * (w - obs_dim cfg)) `mod` (64 * 64 * 3) = 0))
      as [|Hne]; [done|].
    assert (Some goal0 = None) by (apply HgN; auto). done.
Qed.

Lemma concatenate_images_length (x y z : images) :
  jnp.concatenate_images x y = Some z → length x = length y.
Proof.
  unfold jnp.concatenate_images.
  destruct (length x =? length y) eqn:E; [|done]. by apply Nat.eqb_eq in E.
Qed.

(** Property X21.  With image observations, the
    policy returns only if the state segments hold a whole number of
    64 x 64 x 3 images and the goal segments hold as many entries as the
    state segments. *)
Theorem policy_image_segments_balanced cfg P (n w : nat) (obs : matrix) d :
  use_image_obs cfg = true → is_matrix n w obs →
  apply (policy_network (networks_of cfg)) P obs = Some d →
  (n * (obs_dim cfg `min` w)) `mod` (64 * 64 * 3) = 0
  ∧ n * (obs_dim cfg `min` w) = n * (w - obs_dim cfg).
Proof.
  intros Hi Hobs H. rewrite actor_fn_transform in H. unfold actor_input in H.
  rewrite Hi in H.
  destruct (_unflatten_obs cfg obs) as [[state goal]|] eqn:Eu; [|done].
  cbn [mbind option_bind] in H.
  destruct (jnp.concatenate_images state goal) as [x|] eqn:Ec; [|done].
  apply concatenate_images_length in Ec.
  destruct (unflatten_obs_inv cfg n w obs state goal Hobs Eu)
    as (Hms & Hmg & [Hs _] & [Hg _]).
  split; [exact Hms|].
  pose proof (Nat.div_mod_eq (n * (obs_dim cfg `min` w)) (64 * 64 * 3)) as E1.
  pose proof (Nat.div_mod_eq (n * (w - obs_dim cfg)) (64 * 64 * 3)) as E2.
  rewrite Hms in E1. rewrite Hmg in E2. rewrite E1, E2.
  rewrite <- Hs, <- Hg, Ec. reflexivity.
Qed.

(** Observations whose two segments are one 64 x 64 x 3 image each. *)
Lemma unflatten_obs_images cfg (n : nat) (obs : matrix) :
  obs_dim cfg = 64 * 64 * 3 →
  is_matrix n (64 * 64 * 3 + 64 * 64 * 3) obs →
  let state :=
    jnp.divide_images
      (map (image_of_segment 64 64 3) (jnp.cols_to (64 * 64 * 3) obs)) 255 in
  let goal :=
    jnp.divide_images
      (map (image_of_segment 64 64 3) (jnp.cols_from (64 * 64 * 3) obs)) 255 in
  _unflatten_obs cfg obs = Some (state, goal)
  ∧ is_images n 64 64 3 state ∧ is_images n 64 64 3 goal.
Proof.
  intros Hd Hobs state goal.
  pose proof (cols_to_matrix n _ (64 * 64 * 3) obs Hobs) as Hs.
  pose proof (cols_from_matrix n _ (64 * 64 * 3) obs Hobs) as Hg.
  replace ((64 * 64 * 3) `min` (64 * 64 * 3 + 64 * 64 * 3)) with (64 * 64 * 3)
    in Hs by lia.
  replace (64 * 64 * 3 + 64 * 64 * 3 - 64 * 64 * 3) with (64 * 64 * 3)
    in Hg by lia.
  destruct (reshape_images_spec 64 64 3 n _ _ Hs) as (_ & HsS & HsE).
  destruct (reshape_images_spec 64 64 3 n _ _ Hg) as (_ & HgS & HgE).
  specialize (HsE eq_refl ltac:(lia)). specialize (HgE eq_refl ltac:(lia)).
  destruct (HsS _ HsE) as [Hs1 _]. destruct (HgS _ HgE) as [Hg1 _].
  rewrite Nat.div_mul in Hs1, Hg1 by lia.
  split; [|split; by apply is_images_divide].
  unfold _unflatten_obs. rewrite Hd, HsE, HgE. reflexivity.
Qed.

Lemma actor_input_images cfg P (n : nat) (obs : matrix) :
  use_image_obs cfg = true → obs_dim cfg = 64 * 64 * 3 →
  is_matrix n (64 * 64 * 3 + 64 * 64 * 3) obs →
  ∃ x,
    is_images n 64 64 6 x
    ∧ (∀ i r, obs !! i = Some r →
         x !! i = Some
           (zip_with (zip_with app)
              (map (map (map (λ v, v / 255)%R))
                 (image_of_segment 64 64 3 (take (64 * 64 * 3) r)))
              (map (map (map (λ v, v / 255)%R))
                 (image_of_segment 64 64 3 (drop (64 * 64 * 3) r)))))
    ∧ actor_input AtariTorso cfg P obs = AtariTorso (hk.conv_params P) x.
Proof.
  intros Hi Hd Hobs.
  destruct (unflatten_obs_images cfg n obs Hd Hobs) as (Hu & Hs & Hg).
  cbn zeta in Hu, Hs, Hg.
  destruct (concatenate_images_shape n 64 64 3 3 _ _ Hs Hg) as [Ec Hx].
  eexists. split; [exact Hx|]. split.
  - intros i r Hr. apply lookup_zip_with.
    + unfold jnp.divide_images, jnp.cols_to. rewrite !lookup_map, Hr. reflexivity.
    + unfold jnp.divide_images, jnp.cols_from. rewrite !lookup_map, Hr. reflexivity.
  - unfold actor_input. rewrite Hi, Hu. cbn [mbind option_bind]. rewrite Ec.
    reflexivity.
Qed.


(** Property X20.  With image observations whose two segments
    are one 64 x 64 x 3 image each, the torso of the policy is applied to
    one 64 x 64 x 6 image per observation: the state image and the goal
    image, pixels divided by 255, joined along the channel axis.  The
    policy is the torso, then the MLP, then the distribution head. *)
Theorem policy_image_input cfg P (n : nat) (obs : matrix) :
  use_image_obs cfg = true → obs_dim cfg = 64 * 64 * 3 →
  is_matrix n (64 * 64 * 3 + 64 * 64 * 3) obs →
  ∃ x,
    is_images n 64 64 6 x
    ∧ (∀ i r, obs !! i = Some r →
         x !! i = Some
           (zip_with (zip_with app)
              (map (map (map (λ v, v / 255)%R))
                 (image_of_segment 64 64 3 (take (64 * 64 * 3) r)))
              (map (map (map (λ v, v / 255)%R))
                 (image_of_segment 64 64 3 (drop (64 * 64 * 3) r)))))
    ∧ apply (policy_network (networks_of cfg)) P obs =
        f ← AtariTorso (hk.conv_params P) x;
        features ← hk.MLP_call P "mlp" true 0 (hidden_layer_sizes cfg) f;
        NormalTanhDistribution (num_dimensions cfg) (actor_min_std cfg) P features.
Proof.
  intros Hi Hd Hobs.
  destruct (actor_input_images cfg P n obs Hi Hd Hobs) as (x & Hx & Hrows & Hin).
  exists x. split; [exact Hx|]. split; [exact Hrows|].
  rewrite actor_fn_transform, Hin. reflexivity.
Qed.

End Actor.

(** ** The torso of the representation function *)

Section ImageTorso.
Context {ConvParams PRNGKey : Type}.
Variable AtariTorso : ConvParams → images → option matrix.
Variable NormalTanhDistribution :
  nat → R → hk.Params ConvParams → matrix → option (@Distribution PRNGKey).
Implicit Types (P : hk.Params ConvParams) (cfg : Config).

Local Abbreviation networks_of cfg :=
  (make_networks AtariTorso NormalTanhDistribution cfg).

(** Property X8.  With image observations, the (state, goal)
    pair returned by the representation function holds the features that
    one torso, with one set of parameters, computes for the state images
    and for the goal images; there is one row of state features per action,
    and equal state and goal segments give equal features. *)
Theorem image_torso_shared cfg P (obs action : matrix) sa g state goal :
  use_image_obs cfg = true →
  repr_fn (networks_of cfg) P obs action None = Some (sa, g, (state, goal)) →
  ∃ state_images goal_images,
    _unflatten_obs cfg obs = Some (state_images, goal_images)
    ∧ AtariTorso (hk.conv_params P) state_images = Some state
    ∧ AtariTorso (hk.conv_params P) goal_images = Some goal
    ∧ length action = length state
    ∧ (jnp.cols_to (obs_dim cfg) obs = jnp.cols_from (obs_dim cfg) obs →
       state = goal).
Proof.
  intros Himg. rewrite repr_fn_bundle. intros H.
  pose proof (repr_head_shape _ _ _ _ _ _ _ _ _ _ _ _ H) as (Hlen & _ & _).
  apply repr_head_hidden in H. unfold hidden_stage in H. rewrite Himg in H.
  destruct (_unflatten_obs cfg obs) as [[si gi]|] eqn:Eu; [|done].
  cbn [mbind option_bind] in H.
  destruct (AtariTorso (hk.conv_params P) si) as [s|] eqn:Es; [|done].
  cbn [mbind option_bind] in H.
  destruct (AtariTorso (hk.conv_params P) gi) as [g0|] eqn:Eg; [|done].
  cbn [mbind option_bind] in H. injection H as <- <-.
  exists si, gi. split; [reflexivity|]. split; [exact Es|]. split; [exact Eg|].
  split; [exact Hlen|].
  intros Heq. unfold _unflatten_obs in Eu. rewrite Heq in Eu.
  destruct (jnp.reshape_images 64 64 3 _) as [x|]; [|done].
  cbn [mbind option_bind] in Eu. injection Eu as <- <-.
  congruence.
Qed.
End ImageTorso.

(** ** The further properties on concrete inputs *)

Example ex_single_critic :
  apply (q_network (make_networks ex_torso ex_head (ex_cfg false true false)))
    (ex_params 0) ex_obs2 ex_action2
  = Some (Outer [[2; 6]; [4; 12]]%R).
Proof.
  rewrite q_network_bundle.
  unfold critic_head, repr_head, hidden_stage, norm_stage, encoder_sizes.
  cbn [ex_cfg use_image_obs obs_dim hidden_layer_sizes repr_dim repr_norm twin_q app
       ex_obs2 ex_action2 jnp.cols_to jnp.cols_from map take drop
       mbind option_bind jnp.concatenate length Nat.eqb zip_with hk.MLP_call].
  pose proof (ex_lookup_linear 0) as (-> & -> & _).
  cbn -[Rplus Rmult]. do 2 f_equal.
  repeat (f_equal; try lra).
Qed.

Lemma ex_updated_lookup :
  let P := update_linear (hk.linear_name "sa_encoder_1" 0)
             (ex_linear [[7]; [0]]%R [0%R]) (ex_params 0) in
  hk.linear_params P !! hk.linear_name "sa_encoder" 0
    = Some (ex_linear [[1]; [0]]%R [0%R])
  ∧ hk.linear_params P !! hk.linear_name "g_encoder" 0
    = Some (ex_linear [[2%R]] [0%R])
  ∧ hk.linear_params P !! hk.linear_name "sa_encoder_1" 0
    = Some (ex_linear [[7]; [0]]%R [0%R])
  ∧ hk.linear_params P !! hk.linear_name "g_encoder_1" 0
    = Some (ex_linear [[5%R]] [0%R]).
Proof. repeat split; vm_compute; reflexivity. Qed.

Example ex_twin_critic_updated :
  apply (q_network (make_networks ex_torso ex_head (ex_cfg false true true)))
    (update_linear (hk.linear_name "sa_encoder_1" 0)
       (ex_linear [[7]; [0]]%R [0%R]) (ex_params 0))
    ex_obs2 ex_action2
  = Some (OuterTwin [[[2; 35]; [6; 105]]; [[4; 70]; [12; 210]]]%R).
Proof.
  rewrite q_network_bundle.
  unfold critic_head, repr_head, hidden_stage, norm_stage, encoder_sizes.
  cbn [ex_cfg use_image_obs obs_dim hidden_layer_sizes repr_dim repr_norm twin_q app
       ex_obs2 ex_action2 jnp.cols_to jnp.cols_from map take drop
       mbind option_bind jnp.concatenate length Nat.eqb zip_with hk.MLP_call].
  pose proof ex_updated_lookup as (-> & -> & -> & ->).
  cbn -[Rplus Rmult]. do 2 f_equal.
  repeat (f_equal; try lra).
Qed.

Lemma ex_language_params_ok :
  hk.MLP_params_ok (ex_params 0) "g_encoder" 0 1
    (encoder_sizes (ex_cfg false true false))
  ∧ hk.MLP_params_ok (ex_params 0) "l_encoder" 0 1
      (encoder_sizes (ex_cfg false true false)).
Proof.
  unfold encoder_sizes.
  cbn [ex_cfg hidden_layer_sizes repr_dim app hk.MLP_params_ok].
  pose proof (ex_lookup_linear 0) as (_ & H2 & _ & _ & H5 & _).
  repeat split; try done.
  all: eexists; split; [eassumption|]; split; [|reflexivity];
    split; [reflexivity|repeat constructor].
Qed.

Lemma ex_policy :
  apply (policy_network (make_networks ex_torso ex_head ex_actor_cfg))
    ex_mlp_params [[1%R]]
  = ex_head (num_dimensions ex_actor_cfg) (actor_min_std ex_actor_cfg)
      ex_mlp_params [[0%R]].
Proof.
  rewrite actor_fn_transform. unfold actor_input.
  cbn [ex_actor_cfg use_image_obs hidden_layer_sizes mbind option_bind].
  rewrite (proj1 (proj2 mlp_two_layers)). reflexivity.
Qed.

Lemma ex_image_policy :
  ∃ d, apply (policy_network (make_networks ex_torso ex_head ex_image_cfg))
         (ex_params 0) ex_image_obs = Some d.
Proof.
  rewrite actor_fn_transform.
  destruct (actor_input_images ex_torso ex_image_cfg (ex_params 0) 1 ex_image_obs
              eq_refl eq_refl ex_image_obs_shape) as (x & _ & _ & ->).
  unfold ex_torso, ex_head.
  cbn [mbind option_bind ex_image_cfg hidden_layer_sizes hk.MLP_call]. eauto.
Qed.

Lemma map_const_singleton {A B} (c : B) (l : list A) :
  length l = 1 → map (λ _, c) l = [c].
Proof. destruct l as [|a [|b l]]; done. Qed.

Lemma ex_image_repr_fn :
  repr_fn (make_networks ex_small_torso ex_head ex_image_cfg) (ex_params 0)
    ex_image_obs ex_action None
  = Some ([[1%R]], [[2%R]], ([[1%R]], [[1%R]])).
Proof.
  rewrite repr_fn_bundle. unfold repr_head, hidden_stage.
  destruct (unflatten_obs_images ex_image_cfg 1 ex_image_obs eq_refl
              ex_image_obs_shape) as (Hu & [Hs _] & [Hg _]).
  cbn zeta in Hu, Hs, Hg.
  change (use_image_obs ex_image_cfg) with true. cbv iota. rewrite Hu.
  cbn [mbind option_bind]. unfold ex_small_torso.
  rewrite (map_const_singleton _ _ Hs), (map_const_singleton _ _ Hg).
  cbn [mbind option_bind ex_action jnp.concatenate length Nat.eqb zip_with app].
  unfold encoder_sizes. cbn [ex_image_cfg hidden_layer_sizes repr_dim app].
  rewrite ex_sa_raw. cbn [mbind option_bind].
  rewrite ex_g_raw. reflexivity.
Qed.

Lemma repr_fn_shape_witness :
  use_image_obs (ex_cfg false true false) = false
  ∧ is_matrix 1 1 [[1%R]] ∧ is_matrix 1 1 [[2%R]].
Proof.
  split; [reflexivity|].
  destruct (repr_fn_shape ex_torso ex_head (ex_cfg false true false) (ex_params 0)
              ex_obs ex_action eq_refl) as [_ H].
  destruct (H _ _ _ (ex_repr_fn false true false 0)) as (_ & Hsa & Hg).
  split; [exact Hsa|exact Hg].
Defined.

Lemma split_round_trip_witness :
  use_image_obs (ex_cfg false true false) = false
  ∧ repr_fn (make_networks ex_torso ex_head (ex_cfg false true false)) (ex_params 0)
      ex_obs ex_action None
    = Some ([[1%R]], [[2%R]], ([[1%R]], [[1%R]]))
  ∧ jnp.concatenate [[1%R]] [[1%R]] = Some ex_obs.
Proof.
  split; [reflexivity|]. split; [apply (ex_repr_fn false true false)|].
  exact (split_round_trip ex_torso ex_head (ex_cfg false true false) (ex_params 0)
           ex_obs ex_action _ _ _ _ eq_refl (ex_repr_fn false true false 0)).
Defined.

Lemma repr_fn_batch_witness :
  use_image_obs (ex_cfg true true false) = false
  ∧ length ex_obs = length ex_action
  ∧ repr_fn (make_networks ex_torso ex_head (ex_cfg true true false)) (ex_params 0)
      (ex_obs ++ ex_obs2) (ex_action ++ ex_action2) None =
      '(sa1, g1, (s1, gl1)) ←
        repr_fn (make_networks ex_torso ex_head (ex_cfg true true false))
          (ex_params 0) ex_obs ex_action None;
      '(sa2, g2, (s2, gl2)) ←
        repr_fn (make_networks ex_torso ex_head (ex_cfg true true false))
          (ex_params 0) ex_obs2 ex_action2 None;
      Some (sa1 ++ sa2, g1 ++ g2, (s1 ++ s2, gl1 ++ gl2)).
Proof.
  split; [reflexivity|]. split; [reflexivity|].
  exact (repr_fn_batch ex_torso ex_head (ex_cfg true true false) (ex_params 0)
           ex_obs ex_obs2 ex_action ex_action2 eq_refl eq_refl).
Defined.

Lemma goal_embedding_from_goal_segment_witness :
  use_image_obs (ex_cfg true true false) = false
  ∧ repr_fn (make_networks ex_torso ex_head (ex_cfg true true false)) (ex_params 0)
      ex_obs ex_action None
    = Some ([[(1 / exp 0)%R]], [[1%R]], ([[1%R]], [[1%R]]))
  ∧ ∃ g_raw,
      goal_fn (make_networks ex_torso ex_head (ex_cfg true true false)) (ex_params 0)
        (jnp.cols_from 1 ex_obs) = Some g_raw
      ∧ [[1%R]] = jnp.divide_rows g_raw (jnp.linalg_norm g_raw).
Proof.
  split; [reflexivity|]. split; [apply (ex_repr_fn true true false)|].
  destruct (goal_embedding_from_goal_segment ex_torso ex_head
              (ex_cfg true true false) (ex_params 0) ex_obs ex_action _ _ _
              eq_refl (ex_repr_fn true true false 0)) as (g_raw & Hg & Heq & _).
  exists g_raw. split; [exact Hg|exact Heq].
Defined.

Lemma hidden_skips_observation_witness :
  hk.linear_params (ex_params 0) = hk.linear_params (ex_params 0)
  ∧ hk.top_level (ex_params 0) = hk.top_level (ex_params 0)
  ∧ repr_fn (make_networks ex_torso ex_head (ex_cfg true true false)) (ex_params 0)
      ex_obs ex_action (Some ([[1%R]], [[1%R]]))
    = repr_fn (make_networks ex_torso ex_head (ex_cfg true true false)) (ex_params 0)
        ex_obs2 ex_action (Some ([[1%R]], [[1%R]])).
Proof.
  split; [reflexivity|]. split; [reflexivity|].
  exact (hidden_skips_observation ex_torso ex_head (ex_cfg true true false)
           (ex_params 0) (ex_params 0) ex_obs ex_obs2 ex_action
           ([[1%R]], [[1%R]]) eq_refl eq_refl).
Defined.

Lemma repr_norm_off_ignores_temperature_witness :
  repr_norm (ex_cfg false false false) = false
  ∧ hk.linear_params (ex_params 0) = hk.linear_params (ex_params 1)
  ∧ hk.conv_params (ex_params 0) = hk.conv_params (ex_params 1)
  ∧ repr_fn (make_networks ex_torso ex_head
               (with_repr_norm_temp true (ex_cfg false false false)))
      (ex_params 0) ex_obs ex_action None
    = repr_fn (make_networks ex_torso ex_head (ex_cfg false false false))
        (ex_params 1) ex_obs ex_action None.
Proof.
  split; [reflexivity|]. split; [reflexivity|]. split; [reflexivity|].
  exact (repr_norm_off_ignores_temperature ex_torso ex_head
           (ex_cfg false false false) (ex_params 0) (ex_params 1)
           ex_obs ex_action None true eq_refl eq_refl eq_refl).
Defined.

Lemma ex_l_encoder_listed :
  "l_encoder" ∈ ["sa_encoder_1"; "g_encoder_1"; "l_encoder"; "mlp"].
Proof. set_solver. Qed.

Lemma repr_fn_ignores_other_encoders_witness :
  "l_encoder" ∈ ["sa_encoder_1"; "g_encoder_1"; "l_encoder"; "mlp"]
  ∧ repr_fn (make_networks ex_torso ex_head (ex_cfg true true false))
      (update_linear (hk.linear_name "l_encoder" 0) (ex_linear [[7%R]] [1%R])
         (ex_params 0))
      ex_obs ex_action None
    = repr_fn (make_networks ex_torso ex_head (ex_cfg true true false))
        (ex_params 0) ex_obs ex_action None.
Proof.
  split; [exact ex_l_encoder_listed|].
  exact (repr_fn_ignores_other_encoders ex_torso ex_head (ex_cfg true true false)
           (ex_params 0) "l_encoder" 0 (ex_linear [[7%R]] [1%R])
           ex_obs ex_action None ex_l_encoder_listed).
Defined.

Lemma image_torso_shared_witness :
  use_image_obs ex_image_cfg = true
  ∧ repr_fn (make_networks ex_small_torso ex_head ex_image_cfg) (ex_params 0)
      ex_image_obs ex_action None
    = Some ([[1%R]], [[2%R]], ([[1%R]], [[1%R]]))
  ∧ ∃ state_images goal_images,
      _unflatten_obs ex_image_cfg ex_image_obs = Some (state_images, goal_images)
      ∧ ex_small_torso tt state_images = Some [[1%R]]
      ∧ ex_small_torso tt goal_images = Some [[1%R]].
Proof.
  split; [reflexivity|]. split; [exact ex_image_repr_fn|].
  destruct (image_torso_shared ex_small_torso ex_head ex_image_cfg (ex_params 0)
              ex_image_obs ex_action _ _ _ _ eq_refl ex_image_repr_fn)
    as (si & gi & Hu & Hs & Hg & _).
  exists si, gi. split; [exact Hu|]. split; [exact Hs|exact Hg].
Defined.

Lemma ex_no_scale_lookup :
  hk.top_level ex_params_no_scale !! "repr_log_scale" = None.
Proof. apply lookup_empty. Qed.

Lemma missing_log_scale_fails_witness :
  repr_norm (ex_cfg true true false) = true
  ∧ repr_norm_temp (ex_cfg true true false) = true
  ∧ hk.top_level ex_params_no_scale !! "repr_log_scale" = None
  ∧ repr_fn (make_networks ex_torso ex_head (ex_cfg true true false))
      ex_params_no_scale ex_obs ex_action None = None
  ∧ apply (q_network (make_networks ex_torso ex_head (ex_cfg true true false)))
      ex_params_no_scale ex_obs ex_action = None.
Proof.
  split; [reflexivity|]. split; [reflexivity|]. split; [exact ex_no_scale_lookup|].
  exact (missing_log_scale_fails ex_torso ex_head (ex_cfg true true false)
           ex_params_no_scale ex_obs ex_action None eq_refl eq_refl
           ex_no_scale_lookup).
Defined.

Lemma ex_mlp_params_no_goal_encoder :
  hk.linear_params ex_mlp_params !! "g_encoder/~/linear_0" = None.
Proof. vm_compute. reflexivity. Qed.

Lemma missing_goal_encoder_fails_witness :
  hk.linear_params ex_mlp_params !! "g_encoder/~/linear_0" = None
  ∧ goal_fn (make_networks ex_torso ex_head (ex_cfg false true false))
      ex_mlp_params [[1%R]] = None
  ∧ apply (l_network (make_networks ex_torso ex_head (ex_cfg false true false)))
      ex_mlp_params [[1%R]] [[1%R]] = None
  ∧ repr_fn (make_networks ex_torso ex_head (ex_cfg false true false))
      ex_mlp_params ex_obs ex_action None = None
  ∧ apply (q_network (make_networks ex_torso ex_head (ex_cfg false true false)))
      ex_mlp_params ex_obs ex_action = None.
Proof.
  split; [exact ex_mlp_params_no_goal_encoder|].
  exact (missing_goal_encoder_fails ex_torso ex_head (ex_cfg false true false)
           ex_mlp_params ex_obs ex_action [[1%R]] [[1%R]] None
           ex_mlp_params_no_goal_encoder).
Defined.

Lemma ex_one_head_lookup :
  hk.linear_params ex_params_one_head !! "sa_encoder_1/~/linear_0" = None
  ∨ hk.linear_params ex_params_one_head !! "g_encoder_1/~/linear_0" = None.
Proof. left. vm_compute. reflexivity. Qed.

Lemma twin_needs_second_head_witness :
  twin_q (ex_cfg false true true) = true
  ∧ (hk.linear_params ex_params_one_head !! "sa_encoder_1/~/linear_0" = None
     ∨ hk.linear_params ex_params_one_head !! "g_encoder_1/~/linear_0" = None)
  ∧ apply (q_network (make_networks ex_torso ex_head (ex_cfg false true true)))
      ex_params_one_head ex_obs ex_action = None.
Proof.
  split; [reflexivity|]. split; [exact ex_one_head_lookup|].
  exact (twin_needs_second_head ex_torso ex_head (ex_cfg false true true)
           ex_params_one_head ex_obs ex_action eq_refl ex_one_head_lookup).
Defined.

Lemma critic_combines_repr_fn_witness :
  twin_q (ex_cfg true true false) = false
  ∧ apply (q_network (make_networks ex_torso ex_head (ex_cfg true true false)))
      (ex_params 0) ex_obs ex_action =
      '(sa_repr, g_repr, _) ←
        repr_fn (make_networks ex_torso ex_head (ex_cfg true true false))
          (ex_params 0) ex_obs ex_action None;
      outer ← _combine_repr sa_repr g_repr;
      Some (Outer outer).
Proof.
  split; [reflexivity|].
  exact (critic_combines_repr_fn ex_torso ex_head (ex_cfg true true false)
           (ex_params 0) ex_obs ex_action eq_refl).
Defined.

Lemma critic_entry_is_pair_score_witness :
  use_image_obs (ex_cfg false true false) = false
  ∧ twin_q (ex_cfg false true false) = false
  ∧ apply (q_network (make_networks ex_torso ex_head (ex_cfg false true false)))
      (ex_params 0) ex_obs2 ex_action2
    = Some (Outer [[2; 6]; [4; 12]]%R)
  ∧ obs_dim (ex_cfg false true false) ≤ length [1; 1]%R
  ∧ ∃ v, entry [[2; 6]; [4; 12]]%R 0 1 = Some v
      ∧ apply (q_network (make_networks ex_torso ex_head (ex_cfg false true false)))
          (ex_params 0) [[1; 3]%R] [[0%R]]
        = Some (Outer [[v]]).
Proof.
  assert (obs_dim (ex_cfg false true false) ≤ length [1; 1]%R) as Hd
    by (cbn; lia).
  split; [reflexivity|]. split; [reflexivity|]. split; [exact ex_single_critic|].
  split; [exact Hd|].
  exact (critic_entry_is_pair_score ex_torso ex_head (ex_cfg false true false)
           (ex_params 0) ex_obs2 ex_action2 _ 0 1 [1; 1]%R [2; 3]%R [0%R]
           eq_refl eq_refl ex_single_critic eq_refl eq_refl eq_refl Hd).
Defined.

Lemma twin_first_head_is_single_critic_witness :
  apply (q_network (make_networks ex_torso ex_head
                      (with_twin_q true (ex_cfg false true false))))
    (ex_params 0) ex_obs2 ex_action2
  = Some (OuterTwin [[[2; 15]; [6; 45]]; [[4; 30]; [12; 90]]]%R)
  ∧ ∃ outer,
      apply (q_network (make_networks ex_torso ex_head
                          (with_twin_q false (ex_cfg false true false))))
        (ex_params 0) ex_obs2 ex_action2 = Some (Outer outer)
      ∧ length outer = 2.
Proof.
  split; [exact ex_twin_critic|].
  destruct (twin_first_head_is_single_critic ex_torso ex_head
              (ex_cfg false true false) (ex_params 0) ex_obs2 ex_action2 _
              ex_twin_critic) as (outer & Hq & Hlen & _).
  exists outer. split; [exact Hq|exact Hlen].
Defined.

Lemma ex_sa_encoder_1_listed : "sa_encoder_1" ∈ ["sa_encoder_1"; "g_encoder_1"].
Proof. set_solver. Qed.

Lemma twin_heads_independent_witness :
  twin_q (ex_cfg false true true) = true
  ∧ "sa_encoder_1" ∈ ["sa_encoder_1"; "g_encoder_1"]
  ∧ apply (q_network (make_networks ex_torso ex_head (ex_cfg false true true)))
      (ex_params 0) ex_obs2 ex_action2
    = Some (OuterTwin [[[2; 15]; [6; 45]]; [[4; 30]; [12; 90]]]%R)
  ∧ apply (q_network (make_networks ex_torso ex_head (ex_cfg false true true)))
      (update_linear (hk.linear_name "sa_encoder_1" 0)
         (ex_linear [[7]; [0]]%R [0%R]) (ex_params 0))
      ex_obs2 ex_action2
    = Some (OuterTwin [[[2; 35]; [6; 105]]; [[4; 70]; [12; 210]]]%R)
  ∧ (e ← entry [[[2; 35]; [6; 105]]; [[4; 70]; [12; 210]]]%R 0 1; head e)
    = (e ← entry [[[2; 15]; [6; 45]]; [[4; 30]; [12; 90]]]%R 0 1; head e).
Proof.
  split; [reflexivity|]. split; [exact ex_sa_encoder_1_listed|].
  split; [exact ex_twin_critic|]. split; [exact ex_twin_critic_updated|].
  exact (proj1 (twin_heads_independent ex_torso ex_head (ex_cfg false true true)
                  (ex_params 0) "sa_encoder_1" 0 (ex_linear [[7]; [0]]%R [0%R])
                  ex_obs2 ex_action2 _ _ eq_refl ex_twin_critic
                  ex_twin_critic_updated)
           ex_sa_encoder_1_listed 0 1).
Defined.

Lemma language_output_shape_witness :
  is_matrix 1 1 [[1%R]]
  ∧ hk.MLP_params_ok (ex_params 0) "g_encoder" 0 1
      (encoder_sizes (ex_cfg false true false))
  ∧ hk.MLP_params_ok (ex_params 0) "l_encoder" 0 1
      (encoder_sizes (ex_cfg false true false))
  ∧ ∃ g l outer,
      apply (l_network (make_networks ex_torso ex_head (ex_cfg false true false)))
        (ex_params 0) [[1%R]] [[1%R]] = Some (g, l, outer)
      ∧ is_matrix 1 1 outer.
Proof.
  assert (is_matrix 1 1 [[1%R]]) as Hm by (split; [reflexivity|repeat constructor]).
  split; [exact Hm|]. split; [exact (proj1 ex_language_params_ok)|].
  split; [exact (proj2 ex_language_params_ok)|].
  destruct (language_output_shape ex_torso ex_head (ex_cfg false true false)
              (ex_params 0) 1 1 1 1 [[1%R]] [[1%R]] Hm Hm
              (proj1 ex_language_params_ok) (proj2 ex_language_params_ok))
    as (g & l & outer & Hl & _ & _ & Ho & _).
  exists g, l, outer. split; [exact Hl|exact Ho].
Defined.

Lemma policy_head_sees_relu_features_witness :
  last (hidden_layer_sizes ex_actor_cfg) = Some 1
  ∧ ∃ x features,
      actor_input ex_torso ex_actor_cfg ex_mlp_params [[1%R]] = Some x
      ∧ hk.MLP_call ex_mlp_params "mlp" true 0 (hidden_layer_sizes ex_actor_cfg) x
        = Some features
      ∧ Forall (Forall (λ v, 0 <= v)%R) features.
Proof.
  split; [reflexivity|].
  destruct (policy_head_sees_relu_features ex_torso ex_head ex_actor_cfg
              ex_mlp_params [[1%R]] _ 1 eq_refl ex_policy)
    as (x & features & Hx & Hf & _ & _ & Hpos).
  exists x, features. split; [exact Hx|]. split; [exact Hf|exact Hpos].
Defined.

Lemma policy_without_hidden_layers_witness :
  hidden_layer_sizes (ex_cfg false true false) = []
  ∧ use_image_obs (ex_cfg false true false) = false
  ∧ apply (policy_network (make_networks ex_torso ex_head (ex_cfg false true false)))
      (ex_params 0) ex_obs
    = ex_head (num_dimensions (ex_cfg false true false))
        (actor_min_std (ex_cfg false true false)) (ex_params 0) ex_obs.
Proof.
  split; [reflexivity|]. split; [reflexivity|].
  exact (policy_without_hidden_layers ex_torso ex_head (ex_cfg false true false)
           (ex_params 0) ex_obs eq_refl eq_refl).
Defined.

Lemma policy_image_input_witness :
  use_image_obs ex_image_cfg = true ∧ obs_dim ex_image_cfg = 64 * 64 * 3
  ∧ is_matrix 1 (64 * 64 * 3 + 64 * 64 * 3) ex_image_obs
  ∧ ∃ x, is_images 1 64 64 6 x
      ∧ apply (policy_network (make_networks ex_torso ex_head ex_image_cfg))
          (ex_params 0) ex_image_obs =
          f ← ex_torso (hk.conv_params (ex_params 0)) x;
          features ← hk.MLP_call (ex_params 0) "mlp" true 0
                       (hidden_layer_sizes ex_image_cfg) f;
          ex_head (num_dimensions ex_image_cfg) (actor_min_std ex_image_cfg)
            (ex_params 0) features.
Proof.
  split; [reflexivity|]. split; [reflexivity|]. split; [exact ex_image_obs_shape|].
  destruct (policy_image_input ex_torso ex_head ex_image_cfg (ex_params 0) 1
              ex_image_obs eq_refl eq_refl ex_image_obs_shape)
    as (x & Hx & _ & Hp).
  exists x. split; [exact Hx|exact Hp].
Defined.

Lemma policy_image_segments_balanced_witness :
  use_image_obs ex_image_cfg = true
  ∧ is_matrix 1 (64 * 64 * 3 + 64 * 64 * 3) ex_image_obs
  ∧ (∃ d, apply (policy_network (make_networks ex_torso ex_head ex_image_cfg))
            (ex_params 0) ex_image_obs = Some d)
  ∧ 1 * (obs_dim ex_image_cfg `min` (64 * 64 * 3 + 64 * 64 * 3))
    = 1 * (64 * 64 * 3 + 64 * 64 * 3 - obs_dim ex_image_cfg).
Proof.
  split; [reflexivity|]. split; [exact ex_image_obs_shape|].
  split; [exact ex_image_policy|].
  destruct ex_image_policy as [d Hd].
  exact (proj2 (policy_image_segments_balanced ex_torso ex_head ex_image_cfg
                  (ex_params 0) 1 _ ex_image_obs d eq_refl ex_image_obs_shape Hd)).
Defined.
